(** * Bio.Align.tabular: the BTOP and CIGAR decoders, the row assembler,
    the header and the stream

    A shallow embedding of [src/Bio/Align/tabular.py].

    Conventions of the embedding.
    - A Python [str] is a [string]; a character is the code point 0..255 of
      its [ascii].  In that range the regular expression class [\d] is
      exactly ['0'..'9'] and [str.isspace] is the set listed in [is_space].
    - A Python [int] is a [Z] (unbounded).  [int(...)] on a string refuses
      more than 4300 digits, the limit of the interpreter the code runs on.
    - The coordinate array built by
      [numpy.array([target_coordinates, query_coordinates])] is an
      [ndarray]: an array of 64-bit integers, whose arithmetic wraps round,
      when every entry is within their range.  What numpy does beyond that
      range is not fixed here: it is the parameter [beyond_int64].
    - The classes [Seq], [SeqRecord] and [Alignment] are not among the
      sources: an object is kept as the constructor call that builds it,
      with its arguments and the attributes assigned to it afterwards.
    - A raised exception is the left injection of [result]; statements are
      sequenced with [x <- e ;; k]. *)

From Stdlib Require Import ZArith List String Ascii Bool Lia.
Import ListNotations.

Local Open Scope string_scope.
Local Open Scope list_scope.
Local Open Scope Z_scope.

(** ** Exceptions *)

Inductive exn : Type :=
| AssertionError
| ValueError
| TypeError
| UnboundLocalError
| OverflowError
| Exception.

Definition result (A : Type) : Type := (exn + A)%type.

Definition ret {A : Type} (a : A) : result A := inr a.
Definition raise {A : Type} (e : exn) : result A := inl e.

Definition bind {A B : Type} (m : result A) (k : A -> result B) : result B :=
  match m with
  | inl e => inl e
  | inr a => k a
  end.

Notation "x <- m ;; k" := (bind m (fun x => k))
  (at level 61, m at next level, right associativity).

(** [assert cond] *)
Definition assert (cond : bool) : result unit :=
  if cond then ret tt else raise AssertionError.

(** ** Characters and strings *)

Definition code (c : ascii) : N := N_of_ascii c.

(** [\d] *)
Definition is_digit (c : ascii) : bool :=
  ((48 <=? code c) && (code c <=? 57))%N.

(** [A-Z] *)
Definition is_upper (c : ascii) : bool :=
  ((65 <=? code c) && (code c <=? 90))%N.

(** [str.isspace] on one character. *)
Definition is_space (c : ascii) : bool :=
  let n := code c in
  (((9 <=? n) && (n <=? 13)) || ((28 <=? n) && (n <=? 32))
   || (n =? 133) || (n =? 160))%N.

Definition digit_value (c : ascii) : Z := Z.of_N (code c) - 48.

Fixpoint lstrip (s : string) : string :=
  match s with
  | String c r => if is_space c then lstrip r else s
  | EmptyString => EmptyString
  end.

(** [str.rstrip()] *)
Fixpoint rstrip (s : string) : string :=
  match s with
  | EmptyString => EmptyString
  | String c r =>
      match rstrip r with
      | EmptyString => if is_space c then EmptyString else String c EmptyString
      | r' => String c r'
      end
  end.

Definition strip (s : string) : string := lstrip (rstrip s).

(** [str.replace("-", "")] *)
Fixpoint remove_dashes (s : string) : string :=
  match s with
  | EmptyString => EmptyString
  | String c r =>
      if Ascii.eqb c "-" then remove_dashes r else String c (remove_dashes r)
  end.

(** [str.split("\t")] *)
Fixpoint split_tab (s : string) : list string :=
  match s with
  | EmptyString => [EmptyString]
  | String c r =>
      if Ascii.eqb c "009" then EmptyString :: split_tab r
      else match split_tab r with
           | w :: ws => String c w :: ws
           | [] => [String c EmptyString]
           end
  end.

(** [token.startswith("-")] and [token.endswith("-")] *)
Definition startswith_dash (s : string) : bool :=
  match s with
  | String c _ => Ascii.eqb c "-"
  | EmptyString => false
  end.

Fixpoint endswith_dash (s : string) : bool :=
  match s with
  | EmptyString => false
  | String c EmptyString => Ascii.eqb c "-"
  | String _ r => endswith_dash r
  end.

(** ** [int(...)] on a string

    Surrounding white space is dropped, one sign is allowed, and the digits
    may be separated by single underscores; more than 4300 digits are
    refused.  The white space of [int] is not that of [str.strip]: the
    separators U+001C to U+001F are no white space here.  [None] stands for
    the [ValueError] that [int] raises. *)

Definition is_int_space (c : ascii) : bool :=
  let n := code c in
  (((9 <=? n) && (n <=? 13)) || (n =? 32) || (n =? 133) || (n =? 160))%N.

Fixpoint int_lstrip (s : string) : string :=
  match s with
  | String c r => if is_int_space c then int_lstrip r else s
  | EmptyString => EmptyString
  end.

Fixpoint int_rstrip (s : string) : string :=
  match s with
  | EmptyString => EmptyString
  | String c r =>
      match int_rstrip r with
      | EmptyString =>
          if is_int_space c then EmptyString else String c EmptyString
      | r' => String c r'
      end
  end.

Definition int_strip (s : string) : string := int_lstrip (int_rstrip s).

(** The number of digits of a text. *)
Fixpoint count_digits (s : string) : Z :=
  match s with
  | EmptyString => 0
  | String c r => (if is_digit c then 1 else 0) + count_digits r
  end.

(** [sys.get_int_max_str_digits()] *)
Definition max_str_digits : Z := 4300.

Fixpoint int_digits (acc : Z) (after_digit : bool) (s : string) : option Z :=
  match s with
  | EmptyString => if after_digit then Some acc else None
  | String c r =>
      if is_digit c then int_digits (10 * acc + digit_value c) true r
      else if Ascii.eqb c "_" && after_digit then int_digits acc false r
      else None
  end.

Definition int (s : string) : option Z :=
  let t := int_strip s in
  if max_str_digits <? count_digits t then None
  else
    match t with
    | String "-" r => option_map Z.opp (int_digits 0 false r)
    | String "+" r => int_digits 0 false r
    | t => int_digits 0 false t
    end.

(** ** [re.findall]

    [re.findall(pattern, s)] scans [s] from the left.  At each position it
    tries the pattern; a match is reported and the scan resumes after it,
    otherwise the scan moves one character on.  [pattern s] is the text the
    pattern matches at the start of [s], if any; [inside] counts the
    characters of the current match that are still to be passed. *)

Fixpoint findall (pattern : string -> option string) (inside : nat)
    (s : string) : list string :=
  match s with
  | EmptyString => []
  | String _ r =>
      match inside with
      | S k => findall pattern k r
      | O =>
          match pattern s with
          | Some tok => tok :: findall pattern (Nat.pred (String.length tok)) r
          | None => findall pattern 0 r
          end
      end
  end.

(** The longest prefix of digits. *)
Fixpoint take_digits (s : string) : string :=
  match s with
  | String c r => if is_digit c then String c (take_digits r) else EmptyString
  | EmptyString => EmptyString
  end.

(** [\d+] *)
Definition digits_pattern (s : string) : option string :=
  match take_digits s with
  | EmptyString => None
  | d => Some d
  end.

(** [[A-Z-*]] *)
Definition btop_class (c : ascii) : bool :=
  is_upper c || Ascii.eqb c "-" || Ascii.eqb c "*".

(** [([A-Z-*]{2}|\d+)] *)
Definition btop_pattern (s : string) : option string :=
  match s with
  | String a (String b _) =>
      if btop_class a && btop_class b
      then Some (String a (String b EmptyString))
      else digits_pattern s
  | _ => digits_pattern s
  end.

(** [(M|D|I|\d+)] *)
Definition cigar_pattern (s : string) : option string :=
  match s with
  | String c _ =>
      if Ascii.eqb c "M" then Some "M"
      else if Ascii.eqb c "D" then Some "D"
      else if Ascii.eqb c "I" then Some "I"
      else digits_pattern s
  | EmptyString => None
  end.

Definition btop_tokens (btop : string) : list string :=
  findall btop_pattern 0 btop.

Definition cigar_tokens (cigar : string) : list string :=
  findall cigar_pattern 0 cigar.

(** ** Coordinates *)

(** Two rows of integers: row 0 holds the target coordinates, row 1 the
    query coordinates. *)
Record matrix : Type := Matrix {
  target_row : list Z;
  query_row : list Z
}.

(** *** numpy

    The range of a 64-bit integer and the value that arithmetic on such
    integers gives. *)
Definition int64_bound : Z := 9223372036854775808.

Definition fits_int64 (n : Z) : bool :=
  (- int64_bound <=? n) && (n <? int64_bound).

Definition wrap_int64 (n : Z) : Z :=
  (n + int64_bound) mod (2 * int64_bound) - int64_bound.

(** An array of two rows.  [int64_array rows] is an array of 64-bit
    integers that holds [rows].  [wide_array lists] is what [numpy.array]
    makes of lists with an entry outside that range, an array of another
    type: its entries are not modelled, and the lists it was built from are
    kept in their place. *)
Inductive ndarray : Type :=
| int64_array (rows : matrix)
| wide_array (lists : matrix).

(** [numpy.array([target_coordinates, query_coordinates])] *)
Definition numpy_array (target_coordinates query_coordinates : list Z)
  : ndarray :=
  if forallb fits_int64 target_coordinates
     && forallb fits_int64 query_coordinates
  then int64_array (Matrix target_coordinates query_coordinates)
  else wide_array (Matrix target_coordinates query_coordinates).

(** The three statements that change a row of the array:
    [coordinates[0, :] += n], [coordinates[1, :] += n] and
    [coordinates[1, :] = n - coordinates[1, :] + 1]. *)
Inductive row_operation : Type :=
| add_to_target (n : Z)
| add_to_query (n : Z)
| reverse_query (n : Z).

Definition operand (op : row_operation) : Z :=
  match op with
  | add_to_target n | add_to_query n | reverse_query n => n
  end.

(** The statement on an array of 64-bit integers, with an operand in their
    range. *)
Definition int64_operation (op : row_operation) (rows : matrix) : matrix :=
  match op with
  | add_to_target n =>
      Matrix (map (fun x => wrap_int64 (x + n)) (target_row rows))
             (query_row rows)
  | add_to_query n =>
      Matrix (target_row rows)
             (map (fun x => wrap_int64 (x + n)) (query_row rows))
  | reverse_query n =>
      Matrix (target_row rows)
             (map (fun x => wrap_int64 (wrap_int64 (n - x) + 1))
                  (query_row rows))
  end.

(** What numpy does with a statement on an array that is not of 64-bit
    integers, or with an operand outside their range: the exception it
    raises or the array it leaves.  This differs between the versions of
    numpy and is a parameter of all that follows. *)
Class Numpy : Type := {
  beyond_int64 : ndarray -> row_operation -> result ndarray
}.

Definition apply_operation {numpy : Numpy} (coordinates : ndarray)
    (op : row_operation) : result ndarray :=
  match coordinates with
  | int64_array rows =>
      if fits_int64 (operand op)
      then ret (int64_array (int64_operation op rows))
      else beyond_int64 coordinates op
  | wide_array _ => beyond_int64 coordinates op
  end.

(** [l[-1]] *)
Definition last_item (l : list Z) : Z := List.last l 0.

(** [l[-1] += n] *)
Fixpoint add_to_last (l : list Z) (n : Z) : list Z :=
  match l with
  | [] => []
  | [x] => [x + n]
  | x :: r => x :: add_to_last r n
  end.

(** [l.append(x)] *)
Definition append (l : list Z) (x : Z) : list Z := l ++ [x].

(** ** [parse_btop] *)

Inductive State : Type := MATCH | QUERY_GAP | TARGET_GAP | NONE.

Definition State_eqb (a b : State) : bool :=
  match a, b with
  | MATCH, MATCH | QUERY_GAP, QUERY_GAP
  | TARGET_GAP, TARGET_GAP | NONE, NONE => true
  | _, _ => false
  end.

Record btop_vars : Type := BtopVars {
  bt_target : list Z;
  bt_query : list Z;
  bt_state : State
}.

(** One turn of the loop [for token in tokens]. *)
Definition btop_step (v : btop_vars) (token : string) : btop_vars :=
  if startswith_dash token then
    let v1 :=
      if negb (State_eqb (bt_state v) QUERY_GAP)
      then BtopVars (append (bt_target v) (last_item (bt_target v)))
                    (append (bt_query v) (last_item (bt_query v)))
                    QUERY_GAP
      else v in
    BtopVars (add_to_last (bt_target v1) 1) (bt_query v1) (bt_state v1)
  else if endswith_dash token then
    let v1 :=
      if negb (State_eqb (bt_state v) TARGET_GAP)
      then BtopVars (append (bt_target v) (last_item (bt_target v)))
                    (append (bt_query v) (last_item (bt_query v)))
                    TARGET_GAP
      else v in
    BtopVars (bt_target v1) (add_to_last (bt_query v1) 1) (bt_state v1)
  else
    let length :=
      match int token with
      | Some n => n
      | None => 1 (* pair of mismatched letters *)
      end in
    if State_eqb (bt_state v) MATCH
    then BtopVars (add_to_last (bt_target v) length)
                  (add_to_last (bt_query v) length)
                  (bt_state v)
    else BtopVars (append (bt_target v) (last_item (bt_target v) + length))
                  (append (bt_query v) (last_item (bt_query v) + length))
                  MATCH.

Definition btop_init : btop_vars := BtopVars [0] [0] NONE.

Definition btop_loop (tokens : list string) (v : btop_vars) : btop_vars :=
  fold_left btop_step tokens v.

(** The lists [target_coordinates] and [query_coordinates] when the loop is
    through. *)
Definition btop_lists (btop : string) : matrix :=
  let v := btop_loop (btop_tokens btop) btop_init in
  Matrix (bt_target v) (bt_query v).

Definition parse_btop (btop : string) : ndarray :=
  let lists := btop_lists btop in
  numpy_array (target_row lists) (query_row lists).

(** ** [parse_cigar] *)

(** [tokens[::2]] and [tokens[1::2]] *)
Fixpoint even_items {A : Type} (l : list A) : list A :=
  match l with
  | [] => []
  | x :: r => x :: match r with
                   | [] => []
                   | _ :: r' => even_items r'
                   end
  end.

Definition odd_items {A : Type} (l : list A) : list A :=
  match l with
  | [] => []
  | _ :: r => even_items r
  end.

Record cigar_vars : Type := CigarVars {
  cg_target : list Z;
  cg_query : list Z;
  target_coordinate : Z;
  query_coordinate : Z
}.

(** One turn of the loop [for length, operation in zip(...)]. *)
Definition cigar_step (v : cigar_vars) (pair : string * string)
  : result cigar_vars :=
  let (length, operation) := pair in
  length <- match int length with
            | Some n => ret n
            | None => raise ValueError
            end ;;
  let (tc, qc) :=
    if String.eqb operation "M"
    then (target_coordinate v + length, query_coordinate v + length)
    else if String.eqb operation "I"
    then (target_coordinate v + length, query_coordinate v)
    else if String.eqb operation "D"
    then (target_coordinate v, query_coordinate v + length)
    else (target_coordinate v, query_coordinate v) in
  ret (CigarVars (append (cg_target v) tc) (append (cg_query v) qc) tc qc).

Fixpoint cigar_loop (pairs : list (string * string)) (v : cigar_vars)
  : result cigar_vars :=
  match pairs with
  | [] => ret v
  | p :: rest => v' <- cigar_step v p ;; cigar_loop rest v'
  end.

Definition cigar_init : cigar_vars := CigarVars [0] [0] 0 0.

(** [zip(tokens[::2], tokens[1::2])] *)
Definition cigar_pairs (tokens : list string) : list (string * string) :=
  combine (even_items tokens) (odd_items tokens).

(** The lists [target_coordinates] and [query_coordinates] when the loop is
    through, unless it raises. *)
Definition cigar_lists (cigar : string) : result matrix :=
  v <- cigar_loop (cigar_pairs (cigar_tokens cigar)) cigar_init ;;
  ret (Matrix (cg_target v) (cg_query v)).

Definition parse_cigar (cigar : string) : result ndarray :=
  lists <- cigar_lists cigar ;;
  ret (numpy_array (target_row lists) (query_row lists)).

(** ** The row assembler: [_read_next_alignment]

    The embedding starts at the line the loop of lines 103-115 leaves in
    [line]: the first line of the stream that is not a header line.  What
    the headers have set up is the record [AlignmentIterator].  [assert]
    statements are taken to be enabled. *)

Section Assembler.

(** The type of Python's floating point numbers and [float(...)] on a
    string, [None] standing for its [ValueError]. *)
Context {float_value : Type}.
Variable float : string -> option float_value.
Context {numpy : Numpy}.

(** A value stored in an annotation dictionary. *)
Inductive value : Type :=
| VNone
| VInt (n : Z)
| VFloat (x : float_value)
| VStr (s : string).

(** A dictionary with string keys, in insertion order. *)
Definition dict : Type := list (string * value).

(** [d[key] = x] *)
Fixpoint dict_set (d : dict) (key : string) (x : value) : dict :=
  match d with
  | [] => [(key, x)]
  | (k, y) :: r =>
      if String.eqb k key then (key, x) :: r else (k, y) :: dict_set r key x
  end.

Definition VOptInt (n : option Z) : value :=
  match n with
  | Some n => VInt n
  | None => VNone
  end.

(** Modelled from the spec: the class [Seq] of [Bio.Seq] is not among the
    sources.  The spec's Sparse Sequence is fully unknown with a total
    length, fully known, or one known substring anchored at a start offset
    with a declared total length; a constructor call is kept as data, with
    the arguments the assembler passes. *)
Inductive Seq : Type :=
| SeqUndefined (length : Z)      (* Seq(None, length=length) *)
| SeqDefined (data : string)     (* Seq(data) *)
| SeqPartial (start : Z) (data : string) (length : option Z)
                                 (* Seq({start: data}, length=length) *).

(** Modelled from the spec: the class [SeqRecord] of [Bio.SeqRecord] is not
    among the sources.  A sequence holder with an identifier, a description
    (absent unless assigned) and a mapping of annotations. *)
Record SeqRecord : Type := MkSeqRecord {
  seq : option Seq;
  rec_id : option string;
  rec_description : option string;
  rec_annotations : dict
}.

(** Modelled from the spec: the class [Alignment] of [Bio.Align] is not
    among the sources.  The Alignment Record: the two sequence holders
    (target, query), the coordinate matrix or its absence, the
    alignment-level annotations and an optional score.  The record is the
    call [Alignment(records, coordinates)] of line 298 with the two
    assignments that follow it: [sequences] and [aln_coordinates] are the
    arguments of the call, not what the constructor makes of them. *)
Record Alignment : Type := MkAlignment {
  sequences : list SeqRecord;
  aln_coordinates : option ndarray;
  aln_annotations : dict;
  aln_score : option Z
}.

(** What the header lines have left in [self]. *)
Record AlignmentIterator : Type := MkAlignmentIterator {
  _fields : list string;
  _query_id : option string;
  _query_description : option string;
  _query_size : option Z;
  Program : string                       (* self.metadata["Program"] *)
}.

(** The local variables of [_read_next_alignment] ([btop] and [cigar] are
    never assigned after their initialisation and are left out). *)
Record locals : Type := Locals {
  alignment_length : option Z;
  identical : option Z;
  score : option Z;
  query_id : option string;
  target_id : option string;
  query_start : option Z;
  query_end : option Z;
  target_start : option Z;
  target_end : option Z;
  query_sequence : option string;
  target_sequence : option string;
  target_length : option Z;
  coordinates : option ndarray;
  query_size : option Z;
  annotations : dict;
  query_annotations : dict;
  target_annotations : dict
}.

Definition set_alignment_length (v : locals) (x : option Z) : locals :=
  Locals x (identical v) (score v) (query_id v) (target_id v)
    (query_start v) (query_end v) (target_start v) (target_end v)
    (query_sequence v) (target_sequence v) (target_length v)
    (coordinates v) (query_size v) (annotations v) (query_annotations v)
    (target_annotations v).

Definition set_identical (v : locals) (x : option Z) : locals :=
  Locals (alignment_length v) x (score v) (query_id v) (target_id v)
    (query_start v) (query_end v) (target_start v) (target_end v)
    (query_sequence v) (target_sequence v) (target_length v)
    (coordinates v) (query_size v) (annotations v) (query_annotations v)
    (target_annotations v).

Definition set_score (v : locals) (x : option Z) : locals :=
  Locals (alignment_length v) (identical v) x (query_id v) (target_id v)
    (query_start v) (query_end v) (target_start v) (target_end v)
    (query_sequence v) (target_sequence v) (target_length v)
    (coordinates v) (query_size v) (annotations v) (query_annotations v)
    (target_annotations v).

Definition set_query_id (v : locals) (x : option string) : locals :=
  Locals (alignment_length v) (identical v) (score v) x (target_id v)
    (query_start v) (query_end v) (target_start v) (target_end v)
    (query_sequence v) (target_sequence v) (target_length v)
    (coordinates v) (query_size v) (annotations v) (query_annotations v)
    (target_annotations v).

Definition set_target_id (v : locals) (x : option string) : locals :=
  Locals (alignment_length v) (identical v) (score v) (query_id v) x
    (query_start v) (query_end v) (target_start v) (target_end v)
    (query_sequence v) (target_sequence v) (target_length v)
    (coordinates v) (query_size v) (annotations v) (query_annotations v)
    (target_annotations v).

Definition set_query_start (v : locals) (x : option Z) : locals :=
  Locals (alignment_length v) (identical v) (score v) (query_id v)
    (target_id v) x (query_end v) (target_start v) (target_end v)
    (query_sequence v) (target_sequence v) (target_length v)
    (coordinates v) (query_size v) (annotations v) (query_annotations v)
    (target_annotations v).

Definition set_query_end (v : locals) (x : option Z) : locals :=
  Locals (alignment_length v) (identical v) (score v) (query_id v)
    (target_id v) (query_start v) x (target_start v) (target_end v)
    (query_sequence v) (target_sequence v) (target_length v)
    (coordinates v) (query_size v) (annotations v) (query_annotations v)
    (target_annotations v).

Definition set_target_start (v : locals) (x : option Z) : locals :=
  Locals (alignment_length v) (identical v) (score v) (query_id v)
    (target_id v) (query_start v) (query_end v) x (target_end v)
    (query_sequence v) (target_sequence v) (target_length v)
    (coordinates v) (query_size v) (annotations v) (query_annotations v)
    (target_annotations v).

Definition set_target_end (v : locals) (x : option Z) : locals :=
  Locals (alignment_length v) (identical v) (score v) (query_id v)
    (target_id v) (query_start v) (query_end v) (target_start v) x
    (query_sequence v) (target_sequence v) (target_length v)
    (coordinates v) (query_size v) (annotations v) (query_annotations v)
    (target_annotations v).

Definition set_query_sequence (v : locals) (x : option string) : locals :=
  Locals (alignment_length v) (identical v) (score v) (query_id v)
    (target_id v) (query_start v) (query_end v) (target_start v)
    (target_end v) x (target_sequence v) (target_length v) (coordinates v)
    (query_size v) (annotations v) (query_annotations v)
    (target_annotations v).

Definition set_target_sequence (v : locals) (x : option string) : locals :=
  Locals (alignment_length v) (identical v) (score v) (query_id v)
    (target_id v) (query_start v) (query_end v) (target_start v)
    (target_end v) (query_sequence v) x (target_length v) (coordinates v)
    (query_size v) (annotations v) (query_annotations v)
    (target_annotations v).

Definition set_target_length (v : locals) (x : option Z) : locals :=
  Locals (alignment_length v) (identical v) (score v) (query_id v)
    (target_id v) (query_start v) (query_end v) (target_start v)
    (target_end v) (query_sequence v) (target_sequence v) x
    (coordinates v) (query_size v) (annotations v) (query_annotations v)
    (target_annotations v).

Definition set_coordinates (v : locals) (x : option ndarray) : locals :=
  Locals (alignment_length v) (identical v) (score v) (query_id v)
    (target_id v) (query_start v) (query_end v) (target_start v)
    (target_end v) (query_sequence v) (target_sequence v)
    (target_length v) x (query_size v) (annotations v)
    (query_annotations v) (target_annotations v).

Definition set_query_size (v : locals) (x : option Z) : locals :=
  Locals (alignment_length v) (identical v) (score v) (query_id v)
    (target_id v) (query_start v) (query_end v) (target_start v)
    (target_end v) (query_sequence v) (target_sequence v)
    (target_length v) (coordinates v) x (annotations v)
    (query_annotations v) (target_annotations v).

Definition set_annotations (v : locals) (x : dict) : locals :=
  Locals (alignment_length v) (identical v) (score v) (query_id v)
    (target_id v) (query_start v) (query_end v) (target_start v)
    (target_end v) (query_sequence v) (target_sequence v)
    (target_length v) (coordinates v) (query_size v) x
    (query_annotations v) (target_annotations v).

Definition set_query_annotations (v : locals) (x : dict) : locals :=
  Locals (alignment_length v) (identical v) (score v) (query_id v)
    (target_id v) (query_start v) (query_end v) (target_start v)
    (target_end v) (query_sequence v) (target_sequence v)
    (target_length v) (coordinates v) (query_size v) (annotations v) x
    (target_annotations v).

Definition set_target_annotations (v : locals) (x : dict) : locals :=
  Locals (alignment_length v) (identical v) (score v) (query_id v)
    (target_id v) (query_start v) (query_end v) (target_start v)
    (target_end v) (query_sequence v) (target_sequence v)
    (target_length v) (coordinates v) (query_size v) (annotations v)
    (query_annotations v) x.

Definition annotate (v : locals) (key : string) (x : value) : locals :=
  set_annotations v (dict_set (annotations v) key x).

Definition annotate_query (v : locals) (key : string) (x : value) : locals :=
  set_query_annotations v (dict_set (query_annotations v) key x).

Definition annotate_target (v : locals) (key : string) (x : value) : locals :=
  set_target_annotations v (dict_set (target_annotations v) key x).

Definition to_int (column : string) : result Z :=
  match int column with
  | Some n => ret n
  | None => raise ValueError
  end.

Definition to_float (column : string) : result float_value :=
  match float column with
  | Some x => ret x
  | None => raise ValueError
  end.

Variable self : AlignmentIterator.

(** Lines 116-136. *)
Definition initial_locals : locals :=
  Locals None None None None None None None None None None None None None
         (_query_size self) [] [] [].

(** One turn of the loop of lines 137-235. *)
Definition dispatch_field (v : locals) (column field : string)
  : result locals :=
  if String.eqb field "query id" then
      let v := set_query_id v (Some column) in
      match _query_id self with
      | Some expected => _ <- assert (String.eqb column expected) ;; ret v
      | None => ret v
      end
  else if String.eqb field "subject id" then
      ret (set_target_id v (Some column))
  else if String.eqb field "% identity" then
      x <- to_float column ;; ret (annotate v field (VFloat x))
  else if String.eqb field "alignment length" then
      n <- to_int column ;; ret (set_alignment_length v (Some n))
  else if String.eqb field "mismatches" then
      n <- to_int column ;; ret (annotate v field (VInt n))
  else if String.eqb field "gap opens" then
      n <- to_int column ;; ret (annotate v field (VInt n))
  else if String.eqb field "q. start" then
      n <- to_int column ;; ret (set_query_start v (Some (n - 1)))
  else if String.eqb field "q. end" then
      n <- to_int column ;; ret (set_query_end v (Some n))
  else if String.eqb field "s. start" then
      n <- to_int column ;; ret (set_target_start v (Some (n - 1)))
  else if String.eqb field "s. end" then
      n <- to_int column ;; ret (set_target_end v (Some n))
  else if String.eqb field "evalue" then
      x <- to_float column ;; ret (annotate v "evalue" (VFloat x))
  else if String.eqb field "bit score" then
      x <- to_float column ;; ret (annotate v "bit score" (VFloat x))
  else if String.eqb field "BTOP" then
      ret (set_coordinates v (Some (parse_btop column)))
  else if String.eqb field "aln_code" then
      c <- parse_cigar column ;; ret (set_coordinates v (Some c))
  else if String.eqb field "query gi" then
      ret (annotate_query v "gi" (VStr column))
  else if String.eqb field "query acc." then
      ret (annotate_query v "acc." (VStr column))
  else if String.eqb field "query acc.ver" then
      ret (annotate_query v "acc.ver" (VStr column))
  else if String.eqb field "query length" then
      match query_size v with
      | None => n <- to_int column ;; ret (set_query_size v (Some n))
      | Some size => n <- to_int column ;; _ <- assert (size =? n) ;; ret v
      end
  else if String.eqb field "subject ids" then
      ret (annotate_target v "ids" (VStr column))
  else if String.eqb field "subject gi" then
      ret (annotate_target v "gi" (VStr column))
  else if String.eqb field "subject gis" then
      ret (annotate_target v "gis" (VStr column))
  else if String.eqb field "subject acc." then
      ret (annotate_target v "acc." (VStr column))
  else if String.eqb field "subject accs." then
      ret (annotate_target v "accs." (VStr column))
  else if String.eqb field "subject tax ids" then
      ret (annotate_target v "tax ids" (VStr column))
  else if String.eqb field "subject sci names" then
      ret (annotate_target v "sci names" (VStr column))
  else if String.eqb field "subject com names" then
      ret (annotate_target v "com names" (VStr column))
  else if String.eqb field "subject blast names" then
      ret (annotate_target v "blast names" (VStr column))
  else if String.eqb field "subject super kingdoms" then
      ret (annotate_target v "super kingdoms" (VStr column))
  else if String.eqb field "subject title" then
      ret (annotate_target v "title" (VStr column))
  else if String.eqb field "subject titles" then
      ret (annotate_target v "titles" (VStr column))
  else if String.eqb field "subject strand" then
      ret (annotate_target v "strand" (VStr column))
  else if String.eqb field "% subject coverage" then
      x <- to_float column ;; ret (annotate_target v "% coverage" (VFloat x))
  else if String.eqb field "subject acc.ver" then
      ret (annotate_target v "acc.ver" (VStr column))
  else if String.eqb field "subject length" then
      n <- to_int column ;; ret (set_target_length v (Some n))
  else if String.eqb field "query seq" then
      ret (set_query_sequence v (Some column))
  else if String.eqb field "subject seq" then
      ret (set_target_sequence v (Some column))
  else if String.eqb field "score" then
      n <- to_int column ;; ret (set_score v (Some n))
  else if String.eqb field "identical" then
      n <- to_int column ;;
      ret (annotate (set_identical v (Some n)) field (VInt n))
  else if String.eqb field "positives" then
      n <- to_int column ;; ret (annotate v field (VInt n))
  else if String.eqb field "gaps" then
      n <- to_int column ;; ret (annotate v field (VInt n))
  else if String.eqb field "% positives" then
      x <- to_float column ;; ret (annotate v field (VFloat x))
  else if String.eqb field "% hsp coverage" then
      x <- to_float column ;; ret (annotate v field (VFloat x))
  else if String.eqb field "query/sbjct frames" then
      ret (annotate v field (VStr column))
  else if String.eqb field "query frame" then
      ret (annotate_query v "frame" (VStr column))
  else if String.eqb field "sbjct frame" then
      ret (annotate_target v "frame" (VStr column))
  else raise ValueError.

(** [for column, field in zip(columns, self._fields)] *)
Fixpoint dispatch (pairs : list (string * string)) (v : locals)
  : result locals :=
  match pairs with
  | [] => ret v
  | (column, field) :: rest =>
      v' <- dispatch_field v column field ;; dispatch rest v'
  end.

(** [coordinates[1, :] += query_start], or on the reverse strand
    [coordinates[1, :] = query_start - coordinates[1, :] + 1]. *)
Definition rebase_query (query_start query_end : Z) (coordinates : ndarray)
  : result ndarray :=
  if query_start <? query_end
  then apply_operation coordinates (add_to_query query_start)
  else apply_operation coordinates (reverse_query query_start).

(** [coordinates[0, :] += target_start] *)
Definition rebase_target (target_start : Z) (coordinates : ndarray)
  : result ndarray :=
  apply_operation coordinates (add_to_target target_start).

(** Lines 236-249.  Comparing or adding [None] raises TypeError. *)
Definition resolve_coordinates (v : locals) : result locals :=
  match coordinates v with
  | None =>
      let v :=
        match alignment_length v with
        | Some n => annotate v "alignment length" (VInt n)
        | None => v
        end in
      let v :=
        match query_start v with
        | Some n => annotate_query v "start" (VInt n)
        | None => v
        end in
      let v :=
        match query_end v with
        | Some n => annotate_query v "end" (VInt n)
        | None => v
        end in
      ret v
  | Some c =>
      match query_start v, query_end v with
      | Some qs, Some qe =>
          c <- rebase_query qs qe c ;; ret (set_coordinates v (Some c))
      | _, _ => raise TypeError
      end
  end.

Definition len (s : string) : Z := Z.of_nat (String.length s).

(** Lines 250-266: the query sequence, and the locals as they are then. *)
Definition resolve_query (v : locals) : result (option Seq * locals) :=
  match query_sequence v with
  | None =>
      match query_size v with
      | None => ret (None, v)
      | Some size => ret (Some (SeqUndefined size), v)
      end
  | Some query_sequence =>
      let program := Program self in
      let query_sequence := remove_dashes query_sequence in
      if String.eqb program "TBLASTN" then
        match query_start v, query_end v with
        | Some qs, Some qe =>
            _ <- assert (len query_sequence =? qe - qs) ;;
            ret (Some (SeqPartial qs query_sequence (query_size v)), v)
        | _, _ => raise TypeError
        end
      else if String.eqb program "TBLASTX" then
        let v := annotate_query v "start" (VOptInt (query_start v)) in
        let v := annotate_query v "end" (VOptInt (query_end v)) in
        ret (Some (SeqDefined query_sequence), v)
      else raise Exception
  end.

(** Lines 272-293: the target sequence, and the locals as they are then. *)
Definition resolve_target (v : locals) : result (option Seq * locals) :=
  if String.eqb (Program self) "TBLASTN" || String.eqb (Program self) "TBLASTX"
  then
    let v := annotate_target v "start" (VOptInt (target_start v)) in
    let v := annotate_target v "end" (VOptInt (target_end v)) in
    let v := annotate_target v "length" (VOptInt (target_length v)) in
    match target_sequence v with
    | None => ret (None, v)
    | Some target_sequence =>
        ret (Some (SeqDefined (remove_dashes target_sequence)), v)
    end
  else
    v <- match coordinates v with
         | None => ret v
         | Some c =>
             match target_start v with
             | Some ts =>
                 c <- rebase_target ts c ;; ret (set_coordinates v (Some c))
             | None => raise TypeError
             end
         end ;;
    match target_sequence v with
    | None =>
        match target_end v with
        | None => ret (None, v)
        | Some te => ret (Some (SeqUndefined te), v)
        end
    | Some target_sequence =>
        let target_sequence := remove_dashes target_sequence in
        match target_start v, target_end v with
        | Some ts, Some te =>
            _ <- assert (len target_sequence =? te - ts) ;;
            ret (Some (SeqPartial ts target_sequence (Some te)), v)
        | _, _ =>
            (* [target_seq] is read at line 294 without having been assigned *)
            raise UnboundLocalError
        end
    end.

(** Lines 236-302, from the locals the loop over the fields has left. *)
Definition assemble (v : locals) : result Alignment :=
  v <- resolve_coordinates v ;;
  qv <- resolve_query v ;;
  let (query_seq, v) := qv in
  let query :=
    MkSeqRecord query_seq (query_id v) (_query_description self)
                (query_annotations v) in
  tv <- resolve_target v ;;
  let (target_seq, v) := tv in
  let target :=
    MkSeqRecord target_seq (target_id v) None (target_annotations v) in
  let records := [target; query] in
  ret (MkAlignment records (coordinates v) (annotations v) (score v)).

Definition _read_next_alignment (line : string) : result Alignment :=
  let line := rstrip line in
  let columns := split_tab line in
  _ <- assert (Nat.eqb (List.length columns) (List.length (_fields self))) ;;
  v <- dispatch (combine columns (_fields self)) initial_locals ;;
  assemble v.

End Assembler.

Arguments value : clear implicits.
Arguments dict : clear implicits.
Arguments SeqRecord : clear implicits.
Arguments Alignment : clear implicits.
Arguments locals : clear implicits.

(** ** The header and the stream: [_read_header], [_parse_header] and the
    loop of [_read_next_alignment]

    The stream is the list of the lines still to be read; [next(stream)] and
    [for line in stream] take them from its head.  A method returns what it
    has made of the attributes of [self] with the lines it has left.  The
    state in which an exception leaves [self] is not kept: no method of the
    class catches an exception of another. *)

(** The exceptions above, with the two that reading attributes and the
    stream can raise besides.  [OutOfTurns] is no exception of Python: it
    says that the bound given to the loop of [_read_next_alignment] was too
    small, which [read_next_alignment] never lets happen. *)
Inductive raised : Type :=
| Exn (e : exn)
| StopIteration
| AttributeError
| OutOfTurns.

Definition outcome (A : Type) : Type := (raised + A)%type.

Definition lift {A : Type} (m : result A) : outcome A :=
  match m with
  | inl e => inl (Exn e)
  | inr a => inr a
  end.

Definition bind_outcome {A B : Type} (m : outcome A) (k : A -> outcome B)
  : outcome B :=
  match m with
  | inl e => inl e
  | inr a => k a
  end.

Notation "x <-- m ;; k" := (bind_outcome m (fun x => k))
  (at level 61, m at next level, right associativity).

(** [s.startswith(prefix)] and [s.endswith(suffix)] *)
Fixpoint startswith (prefix s : string) : bool :=
  match prefix, s with
  | EmptyString, _ => true
  | String a p, String b r => Ascii.eqb a b && startswith p r
  | String _ _, EmptyString => false
  end.

Fixpoint endswith (suffix s : string) : bool :=
  String.eqb suffix s
  || match s with
     | EmptyString => false
     | String _ r => endswith suffix r
     end.

(** [s[n:]] and [s[:n]] *)
Fixpoint drop (n : nat) (s : string) : string :=
  match n, s with
  | S k, String _ r => drop k r
  | _, _ => s
  end.

Fixpoint take (n : nat) (s : string) : string :=
  match n, s with
  | S k, String c r => String c (take k r)
  | _, _ => EmptyString
  end.

(** [s[a:-b]], for [b] positive *)
Definition slice_between (a b : nat) (s : string) : string :=
  take (String.length s - b - a) (drop a s).

(** The first word of a text without leading white space, and what follows
    the word. *)
Fixpoint span_word (s : string) : string * string :=
  match s with
  | EmptyString => (EmptyString, EmptyString)
  | String c r =>
      if is_space c then (EmptyString, s)
      else let (w, rest) := span_word r in (String c w, rest)
  end.

(** [s.split(None, 1)] *)
Definition split_maxsplit1 (s : string) : list string :=
  match lstrip s with
  | EmptyString => []
  | s1 =>
      let (w, rest) := span_word s1 in
      match lstrip rest with
      | EmptyString => [w]
      | rest' => [w; rest']
      end
  end.

(** [s.split()]; [word] is the word being read. *)
Fixpoint split_words_from (word : string) (s : string) : list string :=
  match s with
  | EmptyString =>
      match word with
      | EmptyString => []
      | _ => [word]
      end
  | String c r =>
      if is_space c
      then match word with
           | EmptyString => split_words_from EmptyString r
           | _ => word :: split_words_from EmptyString r
           end
      else split_words_from (word ++ String c EmptyString) r
  end.

Definition split_words (s : string) : list string :=
  split_words_from EmptyString s.

(** [s.split(sep)] for a separator that is not empty; [part] is the part
    being read and [inside] counts the characters of the separator just
    found that are still to be passed. *)
Fixpoint split_sep_from (sep : string) (inside : nat) (part : string)
    (s : string) : list string :=
  match s with
  | EmptyString => [part]
  | String c r =>
      match inside with
      | S k => split_sep_from sep k part r
      | O =>
          if startswith sep s
          then part :: split_sep_from sep (Nat.pred (String.length sep))
                                      EmptyString r
          else split_sep_from sep 0 (part ++ String c EmptyString) r
      end
  end.

Definition split_sep (sep s : string) : list string :=
  split_sep_from sep 0 EmptyString s.

(** [s.rsplit(sep, 1)]: the text is cut at the last place where the
    separator stands. *)
Fixpoint rsplit_last (sep s : string) : option (string * string) :=
  match s with
  | EmptyString => None
  | String c r =>
      match rsplit_last sep r with
      | Some (a, b) => Some (String c a, b)
      | None =>
          if startswith sep s
          then Some (EmptyString, drop (String.length sep) s)
          else None
      end
  end.

Definition rsplit_maxsplit1 (sep s : string) : list string :=
  match rsplit_last sep s with
  | Some (a, b) => [a; b]
  | None => [s]
  end.

(** The dictionary [metadata]: the keys "Program" and "Version" are
    assigned by every header, "Command line", "Database" and "RID" by some. *)
Record Metadata : Type := MkMetadata {
  md_Program : string;
  md_Version : string;
  md_Command_line : option string;
  md_Database : option string;
  md_RID : option string
}.

(** The attributes [_query_size], [_query_id] and [_query_description],
    which a "Query" line assigns together. *)
Record QueryAttributes : Type := MkQueryAttributes {
  qa_query_size : option Z;
  qa_query_id : string;
  qa_query_description : option string
}.

(** The attributes of [self] once a header has been read; [None] stands
    for an attribute that is not there. *)
Record Attributes : Type := MkAttributes {
  _final_prefix : option string;
  query_attributes : option QueryAttributes;
  fields_attribute : option (list string);
  metadata : Metadata
}.

Definition set_Database (md : Metadata) (x : string) : Metadata :=
  MkMetadata (md_Program md) (md_Version md) (md_Command_line md) (Some x)
             (md_RID md).

Definition set_RID (md : Metadata) (x : string) : Metadata :=
  MkMetadata (md_Program md) (md_Version md) (md_Command_line md)
             (md_Database md) (Some x).

(** The branch [if prefix == "Query"] of lines 80-93. *)
Definition parse_query (md : Metadata) (value : string)
  : outcome QueryAttributes :=
  qs <-- (if String.eqb (md_Program md) "FASTA" then
            match rsplit_maxsplit1 " - " value with
            | [query_line; query_size] =>
                match split_words query_size with
                | [query_size; unit] =>
                    match int query_size with
                    | Some n =>
                        if String.eqb unit "nt" || String.eqb unit "aa"
                        then inr (query_line, Some n)
                        else inl (Exn AssertionError)
                    | None => inl (Exn ValueError)
                    end
                | _ => inl (Exn ValueError)
                end
            | _ => inl (Exn ValueError)
            end
          else inr (value, None)) ;;
  let (query_line, query_size) := (qs : string * option Z) in
  match split_maxsplit1 query_line with
  | [query_id; query_description] =>
      inr (MkQueryAttributes query_size query_id (Some query_description))
  | _ => inr (MkQueryAttributes query_size (strip query_line) None)
  end.

(** The loop [for line in stream] of lines 70-99 and the assignment of line
    100, with the attributes as they are when the loop is entered. *)
Fixpoint header_lines (stream : list string) (final_prefix : string)
    (md : Metadata) (query : option QueryAttributes)
    (fields : option (list string)) : outcome (Attributes * list string) :=
  match stream with
  | [] => inr (MkAttributes (Some final_prefix) query fields md, [])
  | line :: rest =>
      let line := strip line in
      if negb (startswith "# " line) then inl (Exn AssertionError)
      else
        match split_sep ": " (drop 2 line) with
        | [prefix; value] =>
            if String.eqb prefix "Query" then
              q <-- parse_query md value ;;
              header_lines rest final_prefix md (Some q) fields
            else if String.eqb prefix "Database" then
              header_lines rest final_prefix (set_Database md value) query fields
            else if String.eqb prefix "Fields" then
              header_lines rest final_prefix md query
                           (Some (split_sep ", " value))
            else if String.eqb prefix "RID" then
              header_lines rest final_prefix (set_RID md value) query fields
            else header_lines rest final_prefix md query fields
        | _ =>
            let suffix := " hits found" in
            if negb (endswith suffix line) then inl (Exn AssertionError)
            else
              match int (slice_between 2 (String.length suffix) line) with
              | Some hits =>
                  inr (MkAttributes (Some final_prefix) query fields md, rest)
              | None => inl (Exn ValueError)
              end
        end
  end.

(** [metadata["Program"], metadata["Version"] = text.split(None, 1)] *)
Definition program_and_version (text : string) : outcome (string * string) :=
  match split_maxsplit1 text with
  | [program; version] => inr (program, version)
  | _ => inl (Exn ValueError)
  end.

(** [_parse_header(stream, line)]; [query] and [fields] are the attributes
    of [self] that a header may leave as they are. *)
Definition _parse_header (query : option QueryAttributes)
    (fields : option (list string)) (stream : list string) (line : string)
  : outcome (Attributes * list string) :=
  if startswith "TBLASTN " (drop 2 line) || startswith "TBLASTX " (drop 2 line)
  then
    pv <-- program_and_version (drop 2 line) ;;
    header_lines stream "# BLAST processed "
                 (MkMetadata (fst pv) (snd pv) None None None) query fields
  else
    match stream with
    | [] => inl StopIteration
    | line2 :: stream =>
        if negb (startswith "# " line2) then inl (Exn AssertionError)
        else
          pv <-- program_and_version (rstrip (drop 2 line2)) ;;
          header_lines stream "# FASTA processed "
                       (MkMetadata (fst pv) (snd pv) (Some (drop 2 line))
                                   None None)
                       query fields
    end.

(** [_read_header(stream)], on an object that has no attribute yet. *)
Definition _read_header (stream : list string)
  : outcome (Attributes * list string) :=
  match stream with
  | [] => inl (Exn ValueError)
  | line :: stream =>
      if negb (startswith "# " line) then inl (Exn ValueError)
      else _parse_header None None stream (rstrip line)
  end.

Section Stream.

Context {float_value : Type}.
Variable float : string -> option float_value.
Context {numpy : Numpy}.

(** Lines 116-302 on the line the loop has left: the row, when [line] is
    bound and the attributes the lines 131 and 133 read are there. *)
Definition read_row (self : Attributes) (line : option string)
  : outcome (Alignment float_value) :=
  match query_attributes self with
  | None => inl AttributeError
  | Some q =>
      match line with
      | None => inl (Exn UnboundLocalError)
      | Some line =>
          match fields_attribute self with
          | None => inl AttributeError
          | Some fields =>
              lift (_read_next_alignment float
                      (MkAlignmentIterator fields (Some (qa_query_id q))
                                           (qa_query_description q)
                                           (qa_query_size q)
                                           (md_Program (metadata self)))
                      line)
          end
      end
  end.

(** The [del] statements of lines 107-111. *)
Definition delete_attributes (self : Attributes) : outcome Attributes :=
  match fields_attribute self, query_attributes self, _final_prefix self with
  | Some _, Some _, Some _ => inr (MkAttributes None None None (metadata self))
  | _, _, _ => inl AttributeError
  end.

(** The loop of lines 103-115 and what follows it.  [line] is the line the
    loop variable holds, as read from the stream; [turns] bounds the turns
    of the loop, each of which takes a line. *)
Fixpoint next_alignment_loop (turns : nat) (self : Attributes)
    (line : option string) (stream : list string)
  : outcome (option (Alignment float_value) * Attributes * list string) :=
  match stream with
  | [] => aln <-- read_row self line ;; inr (Some aln, self, [])
  | raw :: rest =>
      if startswith "# " (rstrip raw) then
        match _final_prefix self with
        | None => inl AttributeError
        | Some final_prefix =>
            if startswith final_prefix (rstrip raw)
               && endswith " queries" (rstrip raw)
            then self' <-- delete_attributes self ;; inr (None, self', rest)
            else
              match turns with
              | O => inl OutOfTurns
              | S turns =>
                  h <-- _parse_header (query_attributes self)
                                      (fields_attribute self) rest (rstrip raw) ;;
                  next_alignment_loop turns (fst h) (Some raw) (snd h)
              end
        end
      else aln <-- read_row self (Some raw) ;; inr (Some aln, self, rest)
  end.

(** [_read_next_alignment(stream)]: [None] for the alignment is the bare
    [return] of line 112. *)
Definition read_next_alignment (self : Attributes) (stream : list string)
  : outcome (option (Alignment float_value) * Attributes * list string) :=
  next_alignment_loop (List.length stream) self None stream.

End Stream.

(** * Vocabulary of the properties *)

(** ** Tokens *)

(** Every character is a digit. *)
Fixpoint all_digits (s : string) : bool :=
  match s with
  | EmptyString => true
  | String c r => is_digit c && all_digits r
  end.

(** The number a string of digits denotes, continuing from [acc]. *)
Fixpoint decimal (acc : Z) (s : string) : Z :=
  match s with
  | EmptyString => acc
  | String c r => decimal (10 * acc + digit_value c) r
  end.

(** What [btop_pattern] can match. *)
Definition is_btop_token (t : string) : Prop :=
  (exists a b, t = String a (String b EmptyString)
               /\ btop_class a = true /\ btop_class b = true)
  \/ (all_digits t = true /\ t <> EmptyString).

(** What [cigar_pattern] can match. *)
Definition is_cigar_token (t : string) : Prop :=
  t = "M" \/ t = "D" \/ t = "I" \/ (all_digits t = true /\ t <> EmptyString).

(** The kind of run a BTOP token stands for. *)
Definition token_kind (token : string) : State :=
  if startswith_dash token then QUERY_GAP
  else if endswith_dash token then TARGET_GAP
  else MATCH.

(** How many times the kind changes along [kinds], coming from [previous]. *)
Fixpoint kind_changes (previous : State) (kinds : list State) : nat :=
  match kinds with
  | [] => 0
  | k :: r =>
      ((if State_eqb previous k then 0 else 1) + kind_changes k r)%nat
  end.

(** The run length read off a token that is neither kind of gap. *)
Definition match_length (token : string) : Z :=
  match int token with
  | Some n => n
  | None => 1
  end.

(** [int s] returns. *)
Definition is_number (s : string) : bool :=
  match int s with
  | Some _ => true
  | None => false
  end.

(** Every token in a length position, the first of a pair, is a number. *)
Definition lengths_numeric (tokens : list string) : bool :=
  forallb (fun p => is_number (fst p)) (cigar_pairs tokens).

(** ** Matrices *)

(** [adjacent R l]: [R] holds between every item and the next one. *)
Fixpoint adjacent {A : Type} (R : A -> A -> Prop) (l : list A) : Prop :=
  match l with
  | x :: ((y :: _) as r) => R x y /\ adjacent R r
  | _ => True
  end.

Definition nondecreasing (l : list Z) : Prop := adjacent Z.le l.

Definition matrix_columns (m : matrix) : list (Z * Z) :=
  combine (target_row m) (query_row m).

Definition col_le (a b : Z * Z) : Prop := fst a <= fst b /\ snd a <= snd b.

(** As many query as target coordinates, the first column is (0, 0), and
    neither row ever decreases. *)
Definition well_formed (m : matrix) : Prop :=
  (exists r, matrix_columns m = (0, 0) :: r)
  /\ List.length (target_row m) = List.length (query_row m)
  /\ nondecreasing (target_row m)
  /\ nondecreasing (query_row m).

Definition last_column (m : matrix) : Z * Z := List.last (matrix_columns m) (0, 0).

(** The array numpy builds from the rows of [m]. *)
Definition array_of (m : matrix) : ndarray :=
  numpy_array (target_row m) (query_row m).

(** Every entry is in the range of a 64-bit integer. *)
Definition matrix_fits (m : matrix) : bool :=
  forallb fits_int64 (target_row m) && forallb fits_int64 (query_row m).

(** A column that a 64-bit array can hold: both coordinates are below
    2^63. *)
Definition within_int64 (c : Z * Z) : Prop :=
  fst c < int64_bound /\ snd c < int64_bound.

(** What a step from column [a] to the next column [b] is: both rows
    advance alike (a run of matches), only the target row advances (a gap in
    the query), only the query row advances (a gap in the target). *)
Definition step_kind (a b : Z * Z) : State :=
  let dt := fst b - fst a in
  let dq := snd b - snd a in
  if dt =? dq then MATCH
  else if dq =? 0 then QUERY_GAP
  else if dt =? 0 then TARGET_GAP
  else NONE.

Fixpoint step_kinds (cs : list (Z * Z)) : list State :=
  match cs with
  | a :: ((b :: _) as r) => step_kind a b :: step_kinds r
  | _ => []
  end.

(** No two neighbouring steps are of one kind, and each step is of a kind. *)
Definition runs_merged (cs : list (Z * Z)) : Prop :=
  Forall (fun k => k <> NONE) (step_kinds cs)
  /\ adjacent (fun j k => j <> k) (step_kinds cs).

(** ** The two loops *)

(** What holds of the variables of [parse_btop] each time round its loop,
    [cs] being the columns so far. *)
Record btop_inv (v : btop_vars) (cs : list (Z * Z)) : Prop := {
  inv_target : bt_target v = map fst cs;
  inv_query : bt_query v = map snd cs;
  inv_first : exists r, cs = (0, 0) :: r;
  inv_le : adjacent col_le cs;
  inv_merged : runs_merged cs;
  inv_state : List.last (step_kinds cs) NONE = bt_state v
}.

(** Where one (length, operation) pair moves the running coordinates. *)
Definition advance (c : Z * Z) (operation : string) (length : Z) : Z * Z :=
  if String.eqb operation "M" then (fst c + length, snd c + length)
  else if String.eqb operation "I" then (fst c + length, snd c)
  else if String.eqb operation "D" then (fst c, snd c + length)
  else c.

(** The columns the loop appends, starting from the running coordinates [c]. *)
Fixpoint trace (c : Z * Z) (pairs : list (string * string)) : list (Z * Z) :=
  match pairs with
  | [] => []
  | (length, operation) :: rest =>
      let c' := advance c operation (match int length with
                                     | Some n => n
                                     | None => 0
                                     end) in
      c' :: trace c' rest
  end.

(** The columns the pairs of tokens of a CIGAR string stand for, from the
    column (0, 0) on. *)
Definition cigar_columns (cigar : string) : list (Z * Z) :=
  (0, 0) :: trace (0, 0) (cigar_pairs (cigar_tokens cigar)).

(** ** Strings of the CIGAR grammar

    A string of the grammar is a sequence of items, each a run of one or
    more decimal digits followed by one of the letters M, I, D. *)

Inductive digit : Type := d0 | d1 | d2 | d3 | d4 | d5 | d6 | d7 | d8 | d9.

Inductive operation : Type := OpM | OpI | OpD.

Definition digit_char (d : digit) : ascii :=
  match d with
  | d0 => "0" | d1 => "1" | d2 => "2" | d3 => "3" | d4 => "4"
  | d5 => "5" | d6 => "6" | d7 => "7" | d8 => "8" | d9 => "9"
  end%char.

Definition digit_number (d : digit) : Z :=
  match d with
  | d0 => 0 | d1 => 1 | d2 => 2 | d3 => 3 | d4 => 4
  | d5 => 5 | d6 => 6 | d7 => 7 | d8 => 8 | d9 => 9
  end.

Definition operation_char (o : operation) : ascii :=
  match o with
  | OpM => "M" | OpI => "I" | OpD => "D"
  end%char.

(** First digit, further digits, operation. *)
Definition cigar_item : Type := (digit * list digit * operation)%type.

Definition item_digits (it : cigar_item) : list digit :=
  fst (fst it) :: snd (fst it).

Definition item_operation (it : cigar_item) : operation := snd it.

Fixpoint render_digits (ds : list digit) : string :=
  match ds with
  | [] => EmptyString
  | d :: r => String (digit_char d) (render_digits r)
  end.

(** The number written by a run of digits. *)
Definition number (ds : list digit) : Z :=
  fold_left (fun acc d => 10 * acc + digit_number d) ds 0.

Fixpoint render (items : list cigar_item) : string :=
  match items with
  | [] => EmptyString
  | it :: rest =>
      (render_digits (item_digits it)
       ++ String (operation_char (item_operation it)) (render rest))%string
  end.

Definition item_length (it : cigar_item) : Z := number (item_digits it).

(** Sum of the M and I lengths, and sum of the M and D lengths. *)
Fixpoint sum_M_I (items : list cigar_item) : Z :=
  match items with
  | [] => 0
  | it :: rest =>
      match item_operation it with
      | OpM | OpI => item_length it + sum_M_I rest
      | OpD => sum_M_I rest
      end
  end.

Fixpoint sum_M_D (items : list cigar_item) : Z :=
  match items with
  | [] => 0
  | it :: rest =>
      match item_operation it with
      | OpM | OpD => item_length it + sum_M_D rest
      | OpI => sum_M_D rest
      end
  end.

(** No length has more digits than [int] converts. *)
Definition short_lengths (items : list cigar_item) : Prop :=
  Forall (fun it => Z.of_nat (List.length (item_digits it)) <= 4300) items.

Definition item_tokens (it : cigar_item) : string * string :=
  (render_digits (item_digits it),
   String (operation_char (item_operation it)) EmptyString).

(** ** Rows *)

(** ["\t".join(values)], to write rows down. *)
Fixpoint join_tab (values : list string) : string :=
  match values with
  | [] => EmptyString
  | [x] => x
  | x :: r => (x ++ String "009" (join_tab r))%string
  end.

(** The program is one of the two whose target is translated. *)
Definition translated (self : AlignmentIterator) : bool :=
  String.eqb (Program self) "TBLASTN" || String.eqb (Program self) "TBLASTX".

(** The locals when the loop over the fields of a row is through. *)
Definition row_locals {float_value : Type}
    (float : string -> option float_value) (self : AlignmentIterator)
    (line : string) : result (locals float_value) :=
  dispatch float self (combine (split_tab (rstrip line)) (_fields self))
           (initial_locals self).

(** The row has as many values as there are field names. *)
Definition count_matches (self : AlignmentIterator) (line : string) : bool :=
  Nat.eqb (List.length (split_tab (rstrip line))) (List.length (_fields self)).

(** What [resolve_coordinates] and [resolve_query] leave as it was. *)
Definition same_target_side {float_value : Type}
    (v v' : locals float_value) : Prop :=
  target_start v' = target_start v /\ target_end v' = target_end v
  /\ target_sequence v' = target_sequence v.

(** A [float] that accepts what [int] accepts, to run the assembler on rows
    that have no field read with [float]. *)
Definition float_of_integer (s : string) : option Z := int s.

(** A numpy that raises OverflowError beyond the 64-bit integers, to run the
    assembler on rows that stay within them. *)
#[global] Instance numpy_refusing : Numpy :=
  {| beyond_int64 := fun _ _ => raise OverflowError |}.

(** The query rebasing of lines 245-249 and the target rebasing of line 283
    on 64-bit integers. *)
Definition query_rebased (query_start query_end : Z) (m : matrix) : matrix :=
  Matrix (target_row m)
         (map (fun x => wrap_int64 (if query_start <? query_end
                                    then x + query_start
                                    else query_start - x + 1))
              (query_row m)).

Definition target_rebased (target_start : Z) (m : matrix) : matrix :=
  Matrix (map (fun x => wrap_int64 (x + target_start)) (target_row m))
         (query_row m).

(** The query rebasing stays with the 64-bit integers: the row has no
    trace-back field, or the array decoded from it is of 64-bit integers
    and its query start, if it has one, is in their range. *)
Definition rebasing_within_int64 {float_value : Type}
    (v : locals float_value) : Prop :=
  match coordinates v with
  | None => True
  | Some (int64_array _) =>
      forall qs, query_start v = Some qs -> fits_int64 qs = true
  | Some (wide_array _) => False
  end.

(** Neither rebasing leaves the 64-bit integers: the query start is in
    their range and so is every value the rebasing of the query row of [m]
    computes and, unless the target is translated, every value of the
    target row of [m] moved by the target start. *)
Definition rebasing_exact {float_value : Type} (self : AlignmentIterator)
    (v : locals float_value) (m : matrix) : Prop :=
  (forall qs, query_start v = Some qs -> fits_int64 qs = true)
  /\ (forall qs qe,
         query_start v = Some qs -> query_end v = Some qe ->
         Forall (fun x => fits_int64 (if qs <? qe then x + qs else qs - x + 1)
                          = true) (query_row m))
  /\ (translated self = false ->
      forall ts, target_start v = Some ts ->
      Forall (fun x => fits_int64 (x + ts) = true) (target_row m)).

(** Sessions: FASTA with an operation code, the two BLAST programs with a
    query sequence, and TBLASTN with a BTOP field. *)
Definition fasta_session : AlignmentIterator :=
  MkAlignmentIterator ["q. start"; "q. end"; "s. start"; "s. end"; "aln_code"]
                      (Some "seq1") None (Some 50) "FASTA".

Definition tblastn_session : AlignmentIterator :=
  MkAlignmentIterator ["q. start"; "q. end"; "query seq"] None None None "TBLASTN".

Definition tblastx_session : AlignmentIterator :=
  MkAlignmentIterator ["q. start"; "q. end"; "query seq"] None None None "TBLASTX".

Definition btop_session : AlignmentIterator :=
  MkAlignmentIterator ["q. start"; "q. end"; "BTOP"] None None None "TBLASTN".

Definition offsets_session : AlignmentIterator :=
  MkAlignmentIterator ["q. start"; "q. end"] None None None "TBLASTN".

(** ** Further vocabulary: what a BTOP token adds to each row *)

(** The advance of the target and of the query row that a BTOP token
    stands for: one target residue for a gap in the query, one query
    residue for a gap in the target, the run length on both rows
    otherwise. *)
Definition token_advance (token : string) : Z * Z :=
  if startswith_dash token then (1, 0)
  else if endswith_dash token then (0, 1)
  else (match_length token, match_length token).

Fixpoint total_advance (tokens : list string) : Z * Z :=
  match tokens with
  | [] => (0, 0)
  | t :: r =>
      (fst (token_advance t) + fst (total_advance r),
       snd (token_advance t) + snd (total_advance r))
  end.

(** The column a string of the CIGAR grammar reaches after its first [k]
    items. *)
Definition cigar_column (items : list cigar_item) (k : nat) : Z * Z :=
  (sum_M_I (firstn k items), sum_M_D (firstn k items)).

(** ** Further vocabulary: the fields of a row *)

(** The field names the loop over the fields has a branch for. *)
Definition field_names : list string :=
  ["query id"; "subject id"; "% identity"; "alignment length"; "mismatches";
   "gap opens"; "q. start"; "q. end"; "s. start"; "s. end"; "evalue";
   "bit score"; "BTOP"; "aln_code"; "query gi"; "query acc.";
   "query acc.ver"; "query length"; "subject ids"; "subject gi";
   "subject gis"; "subject acc."; "subject accs."; "subject tax ids";
   "subject sci names"; "subject com names"; "subject blast names";
   "subject super kingdoms"; "subject title"; "subject titles";
   "subject strand"; "% subject coverage"; "subject acc.ver";
   "subject length"; "query seq"; "subject seq"; "score"; "identical";
   "positives"; "gaps"; "% positives"; "% hsp coverage";
   "query/sbjct frames"; "query frame"; "sbjct frame"].

(** The fields a row is read with, each value beside its field name. *)
Definition row_fields (self : AlignmentIterator) (line : string)
  : list (string * string) :=
  combine (split_tab (rstrip line)) (_fields self).

(** A list of numbers that never increases. *)
Definition nonincreasing (l : list Z) : Prop := adjacent Z.ge l.

(** ** Further vocabulary: sessions and streams *)

(** The session a row is read in, from the attributes of [self]. *)
Definition session (q : QueryAttributes) (fields : list string)
    (md : Metadata) : AlignmentIterator :=
  MkAlignmentIterator fields (Some (qa_query_id q)) (qa_query_description q)
                      (qa_query_size q) (md_Program md).

(** No attribute but [metadata] is there. *)
Definition cleared (self : Attributes) : Prop :=
  _final_prefix self = None /\ query_attributes self = None
  /\ fields_attribute self = None.

(** What holds of the locals once a trace-back field has been read: the
    coordinates were returned by one of the decoders. *)
Definition decoded {float_value : Type} (v : locals float_value) : Prop :=
  forall c, coordinates v = Some c -> exists m, c = array_of m /\ well_formed m.

(** ** Further vocabulary: the header of a BLAST output *)

Definition newline : string := String "010" EmptyString.

Fixpoint all_chars (p : ascii -> bool) (s : string) : bool :=
  match s with
  | EmptyString => true
  | String c r => p c && all_chars p r
  end.

(** A text that is not empty and has no white space. *)
Definition is_word (s : string) : bool :=
  negb (String.eqb s EmptyString) && all_chars (fun c => negb (is_space c)) s.

(** A text that is not empty and has no white space at either end. *)
Definition is_trimmed (s : string) : bool :=
  negb (String.eqb s EmptyString)
  && String.eqb (lstrip s) s && String.eqb (rstrip s) s.

Definition no_colon (s : string) : bool :=
  all_chars (fun c => negb (Ascii.eqb c ":")) s.

Definition no_comma (s : string) : bool :=
  all_chars (fun c => negb (Ascii.eqb c ",")) s.

(** [", ".join(fields)] *)
Fixpoint join_comma (fields : list string) : string :=
  match fields with
  | [] => EmptyString
  | f :: r =>
      match r with
      | [] => f
      | _ :: _ => (f ++ ", " ++ join_comma r)%string
      end
  end.

Inductive blast_program : Type := TBLASTN_program | TBLASTX_program.

Definition program_name (p : blast_program) : string :=
  match p with
  | TBLASTN_program => "TBLASTN"
  | TBLASTX_program => "TBLASTX"
  end.

(** What the header of one query says in the output of BLAST. *)
Record blast_header : Type := MkBlastHeader {
  bh_program : blast_program;
  bh_version : string;
  bh_query_id : string;
  bh_description : option string;
  bh_database : string;
  bh_fields : list string;
  bh_hits : digit * list digit
}.

(** The lines of the header, as the stream gives them. *)
Definition header_block (h : blast_header) : list string :=
  [("# " ++ program_name (bh_program h) ++ " " ++ bh_version h ++ newline)%string;
   ("# Query: " ++ (bh_query_id h
    ++ match bh_description h with
       | Some d => " " ++ d
       | None => EmptyString
       end) ++ newline)%string;
   ("# Database: " ++ bh_database h ++ newline)%string;
   ("# Fields: " ++ join_comma (bh_fields h) ++ newline)%string;
   ("# " ++ (render_digits (fst (bh_hits h) :: snd (bh_hits h))
    ++ " hits found") ++ newline)%string].

Definition field_text (f : string) : bool :=
  is_trimmed f && no_colon f && no_comma f.

(** The texts of the header are such that its lines can be taken apart
    again. *)
Definition header_texts (h : blast_header) : bool :=
  is_word (bh_version h)
  && is_word (bh_query_id h) && no_colon (bh_query_id h)
  && match bh_description h with
     | Some d => is_trimmed d && no_colon d
     | None => true
     end
  && is_trimmed (bh_database h) && no_colon (bh_database h)
  && negb (Nat.eqb (List.length (bh_fields h)) 0)
  && forallb field_text (bh_fields h).

(** The attributes the header stands for. *)
Definition header_attributes (h : blast_header) : Attributes :=
  MkAttributes (Some "# BLAST processed ")
               (Some (MkQueryAttributes None (bh_query_id h) (bh_description h)))
               (Some (bh_fields h))
               (MkMetadata (program_name (bh_program h)) (bh_version h) None
                           (Some (bh_database h)) None).

(** An output of BLAST with one query, one row and the closing line. *)
Definition example_header : blast_header :=
  MkBlastHeader TBLASTN_program "2.2.29+" "gi|296147483"
                (Some "Saccharomyces cerevisiae") "nr"
                ["query id"; "subject id"; "q. start"; "q. end"; "BTOP"]
                (d1, []).

Definition example_row : string :=
  (join_tab ["gi|296147483"; "gi|1"; "3"; "6"; "4"] ++ newline)%string.

Definition example_final_line : string :=
  ("# BLAST processed 1 queries" ++ newline)%string.

(** The attributes after the header of a query without hits, which has no
    "Fields" line. *)
Definition no_hit_attributes : Attributes :=
  MkAttributes (Some "# BLAST processed ")
               (Some (MkQueryAttributes None "gi|296147483" None))
               None
               (MkMetadata "TBLASTN" "2.2.29+" None (Some "nr") None).

(** A text of white space only. *)
Definition is_blank (s : string) : bool := all_chars is_space s.

Definition no_dash (s : string) : bool :=
  all_chars (fun c => negb (Ascii.eqb c "-")) s.

(** The value of a "Query" line in the output of FASTA: what names the
    query, then the size with its unit. *)
Definition fasta_query (query_line : string) (size : digit * list digit)
    (unit : string) : string :=
  (query_line ++ " - " ++ render_digits (fst size :: snd size) ++ " " ++ unit)%string.

(** The header of the output of FASTA for one query. *)
Definition example_fasta_header : list string :=
  [("# fasta36 -m 8CB seq/mgstm1.aa seq/gst.nlib" ++ newline)%string;
   ("# FASTA 36.3.8h May, 2020" ++ newline)%string;
   ("# Query: pGT875   - 657 nt" ++ newline)%string;
   ("# Database: seq/gst.nlib" ++ newline)%string;
   ("# Fields: query id, subject id, q. start, q. end, aln_code" ++ newline)%string;
   ("# 12 hits found" ++ newline)%string].

(** * Properties of the decoders *)

(** ** Characters *)

Ltac by_char c :=
  destruct c as [[] [] [] [] [] [] [] []]; vm_compute; intros;
  repeat split; congruence.

Lemma digit_not_space c : is_digit c = true -> is_space c = false.
Proof. by_char c. Qed.

Lemma digit_not_sign c :
  is_digit c = true -> Ascii.eqb c "-" = false /\ Ascii.eqb c "+" = false.
Proof. by_char c. Qed.

Lemma digit_not_operation c :
  is_digit c = true ->
  Ascii.eqb c "M" = false /\ Ascii.eqb c "D" = false /\ Ascii.eqb c "I" = false.
Proof. by_char c. Qed.

Lemma digit_value_nonneg c : is_digit c = true -> 0 <= digit_value c.
Proof. by_char c. Qed.

Lemma class_not_space c : btop_class c = true -> is_space c = false.
Proof. by_char c. Qed.

Lemma class_not_digit c : btop_class c = true -> is_digit c = false.
Proof. by_char c. Qed.

Lemma class_not_int_space c : btop_class c = true -> is_int_space c = false.
Proof. by_char c. Qed.

Lemma class_not_plus_underscore c :
  btop_class c = true -> Ascii.eqb c "+" = false /\ Ascii.eqb c "_" = false.
Proof. by_char c. Qed.

(** ** Strings of digits *)

Lemma decimal_nonneg s : forall acc,
  all_digits s = true -> 0 <= acc -> 0 <= decimal acc s.
Proof.
  induction s as [|c r IH]; intros acc Hd Hacc;
    cbn [decimal all_digits] in *; [assumption|].
  apply andb_true_iff in Hd as [Hc Hr].
  apply IH; [assumption|].
  pose proof (digit_value_nonneg c Hc). lia.
Qed.

Lemma int_digits_all s : forall acc after,
  all_digits s = true ->
  (s <> EmptyString \/ after = true) ->
  int_digits acc after s = Some (decimal acc s).
Proof.
  induction s as [|c r IH]; intros acc after Hd Hne;
    cbn [int_digits decimal all_digits] in *.
  - destruct Hne as [Hne | ->]; [congruence | reflexivity].
  - apply andb_true_iff in Hd as [Hc Hr]. rewrite Hc.
    apply IH; auto.
Qed.

Lemma lstrip_digits c r : is_digit c = true -> lstrip (String c r) = String c r.
Proof. intros Hc. simpl. now rewrite (digit_not_space c Hc). Qed.

Lemma digit_not_int_space c : is_digit c = true -> is_int_space c = false.
Proof. by_char c. Qed.

Lemma int_lstrip_digits c r :
  is_digit c = true -> int_lstrip (String c r) = String c r.
Proof. intros Hc. simpl. now rewrite (digit_not_int_space c Hc). Qed.

Lemma int_rstrip_digits s : all_digits s = true -> int_rstrip s = s.
Proof.
  induction s as [|c r IH]; intros Hd; simpl in *; [reflexivity|].
  apply andb_true_iff in Hd as [Hc Hr].
  rewrite (IH Hr). destruct r; [|reflexivity].
  now rewrite (digit_not_int_space c Hc).
Qed.

Lemma count_digits_all s :
  all_digits s = true -> count_digits s = Z.of_nat (String.length s).
Proof.
  induction s as [|c r IH]; intros Hd; [reflexivity|].
  cbn [all_digits] in Hd. apply andb_true_iff in Hd as [Hc Hr].
  cbn [count_digits String.length]. rewrite Hc, (IH Hr). lia.
Qed.

Lemma rstrip_digits s : all_digits s = true -> rstrip s = s.
Proof.
  induction s as [|c r IH]; intros Hd; simpl in *; [reflexivity|].
  apply andb_true_iff in Hd as [Hc Hr].
  rewrite (IH Hr). destruct r; [|reflexivity].
  now rewrite (digit_not_space c Hc).
Qed.

(** [int] on a non-empty run of digits is its decimal value, unless the
    digits are too many. *)
Lemma int_digits_string s :
  all_digits s = true -> s <> EmptyString ->
  int s = if max_str_digits <? Z.of_nat (String.length s) then None
          else Some (decimal 0 s).
Proof.
  intros Hd Hne. unfold int, int_strip. rewrite (int_rstrip_digits s Hd).
  destruct s as [|c r]; [congruence|].
  pose proof Hd as Hd'. cbn [all_digits] in Hd'.
  apply andb_true_iff in Hd' as [Hc Hr].
  rewrite (int_lstrip_digits c r Hc), (count_digits_all _ Hd).
  cbv zeta.
  destruct (max_str_digits <? Z.of_nat (String.length (String c r)));
    [reflexivity|].
  destruct (digit_not_sign c Hc) as [Hm Hp].
  assert (Hgen : int_digits 0 false (String c r) = Some (decimal 0 (String c r)))
    by (apply int_digits_all; auto; left; congruence).
  destruct c as [[] [] [] [] [] [] [] []]; try exact Hgen;
    vm_compute in Hm, Hp; congruence.
Qed.

Lemma int_short s :
  all_digits s = true -> s <> EmptyString ->
  Z.of_nat (String.length s) <= 4300 -> int s = Some (decimal 0 s).
Proof.
  intros Hd Hne Hlen. rewrite (int_digits_string s Hd Hne).
  replace (max_str_digits <? Z.of_nat (String.length s)) with false;
    [reflexivity|].
  symmetry. apply Z.ltb_ge. unfold max_str_digits. lia.
Qed.

(** What [int] returns for a run of digits is not negative. *)
Lemma int_digits_nonneg s n :
  all_digits s = true -> s <> EmptyString -> int s = Some n -> 0 <= n.
Proof.
  intros Hd Hne. rewrite (int_digits_string s Hd Hne).
  destruct (max_str_digits <? _); [discriminate|].
  intros H. inversion H. now apply decimal_nonneg.
Qed.

Lemma take_digits_all s : all_digits (take_digits s) = true.
Proof.
  induction s as [|c r IH]; simpl; [reflexivity|].
  destruct (is_digit c) eqn:Hc; simpl; [now rewrite Hc|reflexivity].
Qed.

Lemma take_digits_app d c rest :
  all_digits d = true -> is_digit c = false ->
  take_digits (d ++ String c rest) = d.
Proof.
  intros Hd Hc. induction d as [|x d IH]; simpl in *.
  - now rewrite Hc.
  - apply andb_true_iff in Hd as [Hx Hd]. rewrite Hx. now rewrite IH.
Qed.

Lemma take_digits_end d : all_digits d = true -> take_digits d = d.
Proof.
  induction d as [|x d IH]; simpl; intros Hd; [reflexivity|].
  apply andb_true_iff in Hd as [Hx Hd]. rewrite Hx. now rewrite IH.
Qed.

(** ** [findall] *)

Lemma findall_Forall (P : string -> Prop) pattern :
  (forall s t, pattern s = Some t -> P t) ->
  forall s k, Forall P (findall pattern k s).
Proof.
  intros HP. induction s as [|c r IH]; intros k; simpl; [constructor|].
  destruct k; [|apply IH].
  destruct (pattern (String c r)) eqn:Hp; [|apply IH].
  constructor; [eapply HP; eassumption | apply IH].
Qed.

Lemma findall_inside pattern t : forall rest,
  findall pattern (String.length t) (t ++ rest) = findall pattern 0 rest.
Proof.
  induction t as [|c t IH]; intros rest; simpl.
  - destruct rest; reflexivity.
  - apply IH.
Qed.

(** A match at the head of the text is the first token. *)
Lemma findall_match (pattern : string -> option string) t rest :
  t <> EmptyString -> pattern (t ++ rest)%string = Some t ->
  findall pattern 0 (t ++ rest) = t :: findall pattern 0 rest.
Proof.
  intros Hne Hp. destruct t as [|c t]; [congruence|].
  change (String c t ++ rest)%string with (String c (t ++ rest)) in *.
  cbn [findall]. rewrite Hp. cbn [String.length Nat.pred].
  now rewrite findall_inside.
Qed.

Lemma findall_miss pattern c rest :
  pattern (String c rest) = None ->
  findall pattern 0 (String c rest) = findall pattern 0 rest.
Proof. intros Hp. cbn [findall]. now rewrite Hp. Qed.

Lemma digits_pattern_token s t :
  digits_pattern s = Some t -> all_digits t = true /\ t <> EmptyString.
Proof.
  unfold digits_pattern. pose proof (take_digits_all s) as Hd.
  destruct (take_digits s); intros H; inversion H; subst.
  split; [assumption | congruence].
Qed.

Lemma btop_pattern_token s t : btop_pattern s = Some t -> is_btop_token t.
Proof.
  unfold btop_pattern. intros H.
  destruct s as [|a [|b r]];
    try (right; eapply digits_pattern_token; eassumption).
  destruct (btop_class a && btop_class b) eqn:Hc.
  - inversion H; subst. apply andb_true_iff in Hc as [Ha Hb].
    left. now exists a, b.
  - right; eapply digits_pattern_token; eassumption.
Qed.

Lemma cigar_pattern_token s t : cigar_pattern s = Some t -> is_cigar_token t.
Proof.
  unfold cigar_pattern, is_cigar_token. intros H. destruct s as [|c r]; [discriminate|].
  destruct (Ascii.eqb c "M"); [inversion H; auto|].
  destruct (Ascii.eqb c "D"); [inversion H; auto|].
  destruct (Ascii.eqb c "I"); [inversion H; auto|].
  do 3 right. eapply digits_pattern_token; eassumption.
Qed.

Lemma btop_tokens_ok s : Forall is_btop_token (btop_tokens s).
Proof. apply findall_Forall, btop_pattern_token. Qed.

Lemma cigar_tokens_ok s : Forall is_cigar_token (cigar_tokens s).
Proof. apply findall_Forall, cigar_pattern_token. Qed.

(** ** Lists that grow at the end *)

Lemma adjacent_snoc {A} (R : A -> A -> Prop) l a b :
  adjacent R (l ++ [a; b]) <-> adjacent R (l ++ [a]) /\ R a b.
Proof.
  induction l as [|x l IH]; simpl.
  - tauto.
  - destruct l as [|y l]; simpl in *; tauto.
Qed.

Lemma adjacent_last {A} (R : A -> A -> Prop) d l k :
  adjacent R l -> (l = [] \/ R (List.last l d) k) -> adjacent R (l ++ [k]).
Proof.
  induction l as [|x l IH]; intros Hl Hk; simpl; [exact I|].
  destruct l as [|y l].
  - simpl in *. destruct Hk as [Hk | Hk]; [discriminate | tauto].
  - destruct Hl as [Hxy Hl]. split; [assumption|].
    apply IH; [assumption|]. right. destruct Hk as [Hk | Hk]; [discriminate|].
    exact Hk.
Qed.

Lemma adjacent_map {A B} (f : A -> B) (R : A -> A -> Prop) (Q : B -> B -> Prop) l :
  (forall x y, R x y -> Q (f x) (f y)) -> adjacent R l -> adjacent Q (map f l).
Proof.
  intros HRQ. induction l as [|x l IH]; [simpl; trivial|].
  destruct l as [|y l]; [simpl; trivial|].
  intros [Hxy Hl]. split; [apply HRQ, Hxy | apply IH, Hl].
Qed.

Lemma last_item_snoc l x : last_item (l ++ [x]) = x.
Proof. unfold last_item. apply last_last. Qed.

Lemma add_to_last_snoc l x n : add_to_last (l ++ [x]) n = l ++ [x + n].
Proof.
  induction l as [|y l IH]; simpl; [reflexivity|].
  rewrite IH. destruct l; reflexivity.
Qed.

Lemma combine_fst_snd {A B} (l : list (A * B)) :
  combine (map fst l) (map snd l) = l.
Proof. induction l as [|[a b] l IH]; simpl; congruence. Qed.

Lemma snoc_cases {A} (l : list A) : l = [] \/ exists l' x, l = l' ++ [x].
Proof.
  destruct l as [|x l]; [now left|right].
  destruct (exists_last (l := x :: l)) as (l' & y & ->); [discriminate|eauto].
Qed.

(** ** The columns of a matrix and the kinds of their steps *)

Lemma step_kinds_snoc l a b :
  step_kinds (l ++ [a; b]) = step_kinds (l ++ [a]) ++ [step_kind a b].
Proof.
  induction l as [|x l IH]; simpl; [reflexivity|].
  destruct l as [|y l]; simpl in *; [reflexivity|].
  now rewrite IH.
Qed.

Lemma step_kinds_nonempty cs :
  step_kinds cs <> [] -> exists l a b, cs = l ++ [a; b].
Proof.
  intros Hk. destruct (snoc_cases cs) as [-> | (l & b & ->)]; [now simpl in Hk|].
  destruct (snoc_cases l) as [-> | (l' & a & ->)]; [now simpl in Hk|].
  exists l', a, b. now rewrite <- app_assoc.
Qed.

(** ** The loop of [btop_lists] *)

Lemma match_length_token t :
  is_btop_token t -> startswith_dash t = false -> 0 <= match_length t.
Proof.
  unfold match_length. intros [(a & b & -> & Ha & Hb) | [Hd Hne]] Hdash.
  - simpl in Hdash.
    assert (Hint : int (String a (String b EmptyString)) = None).
    { unfold int, int_strip. cbn [int_rstrip].
      rewrite (class_not_int_space b Hb). cbn [int_lstrip].
      rewrite (class_not_int_space a Ha).
      destruct (class_not_plus_underscore a Ha) as [Hp Hu].
      pose proof (class_not_digit a Ha) as Hda.
      cbv zeta. cbn [count_digits]. rewrite Hda, (class_not_digit b Hb).
      change (max_str_digits <? 0 + (0 + 0)) with false. cbv iota.
      assert (Hgen : int_digits 0 false (String a (String b EmptyString)) = None).
      { cbn [int_digits]. rewrite Hda, Hu. reflexivity. }
      destruct a as [[] [] [] [] [] [] [] []]; try exact Hgen;
        vm_compute in Hdash, Hp; congruence. }
    rewrite Hint. lia.
  - rewrite (int_digits_string t Hd Hne).
    destruct (max_str_digits <? _); [lia|].
    apply decimal_nonneg; [assumption|lia].
Qed.

(** A new column after the last one, for a step of another kind. *)
Lemma btop_inv_extend v l c c' :
  btop_inv v (l ++ [c]) ->
  col_le c c' -> step_kind c c' <> NONE -> step_kind c c' <> bt_state v ->
  btop_inv (BtopVars (append (bt_target v) (fst c'))
                     (append (bt_query v) (snd c'))
                     (step_kind c c'))
           (l ++ [c; c']).
Proof.
  intros [Ht Hq [r Hr] Hle [Hvalid Halt] Hst] Hc Hk Hne.
  assert (Hks : step_kinds (l ++ [c; c'])
                = step_kinds (l ++ [c]) ++ [step_kind c c'])
    by apply step_kinds_snoc.
  assert (Happ : l ++ [c; c'] = (l ++ [c]) ++ [c'])
    by now rewrite <- app_assoc.
  constructor; cbn [bt_target bt_query bt_state]; unfold append.
  - rewrite Ht, Happ, !map_app. reflexivity.
  - rewrite Hq, Happ, !map_app. reflexivity.
  - exists (r ++ [c']). rewrite Happ, Hr. reflexivity.
  - apply adjacent_snoc. split; assumption.
  - split; rewrite Hks.
    + apply Forall_app. split; [assumption|]. constructor; [assumption|constructor].
    + apply adjacent_last with (d := NONE); [assumption|].
      right. rewrite Hst. congruence.
  - rewrite Hks. apply last_last.
Qed.

(** The last column moved, for a step of the same kind. *)
Lemma btop_inv_replace v l a b b' :
  btop_inv v (l ++ [a; b]) ->
  col_le a b' -> step_kind a b' = step_kind a b ->
  btop_inv (BtopVars (map fst (l ++ [a]) ++ [fst b'])
                     (map snd (l ++ [a]) ++ [snd b'])
                     (bt_state v))
           (l ++ [a; b']).
Proof.
  intros [Ht Hq [r Hr] Hle [Hvalid Halt] Hst] Hc Hk.
  assert (Hks : step_kinds (l ++ [a; b']) = step_kinds (l ++ [a; b]))
    by (rewrite !step_kinds_snoc; congruence).
  assert (Happ : forall x, l ++ [a; x] = (l ++ [a]) ++ [x])
    by (intros; now rewrite <- app_assoc).
  constructor; cbn [bt_target bt_query bt_state].
  - rewrite Happ, !map_app. reflexivity.
  - rewrite Happ, !map_app. reflexivity.
  - destruct l as [|x l]; simpl in *.
    + inversion Hr; subst. eauto.
    + inversion Hr; subst. eauto.
  - apply adjacent_snoc. apply adjacent_snoc in Hle. tauto.
  - split; rewrite Hks; assumption.
  - rewrite Hks. assumption.
Qed.

Lemma btop_inv_last2 v cs :
  btop_inv v cs -> bt_state v <> NONE ->
  exists l a b, cs = l ++ [a; b] /\ step_kind a b = bt_state v /\ col_le a b.
Proof.
  intros Hinv Hs. pose proof Hinv as [_ _ _ Hle _ Hst].
  assert (Hk : step_kinds cs <> []).
  { intros He. rewrite He in Hst. simpl in Hst. congruence. }
  destruct (step_kinds_nonempty cs Hk) as (l & a & b & ->).
  exists l, a, b. split; [reflexivity|]. split.
  - rewrite step_kinds_snoc, last_last in Hst. exact Hst.
  - apply adjacent_snoc in Hle. tauto.
Qed.

Lemma btop_inv_last1 v cs :
  btop_inv v cs -> exists l c, cs = l ++ [c].
Proof.
  intros [_ _ [r Hr] _ _ _].
  destruct (snoc_cases cs) as [-> | H]; [discriminate | exact H].
Qed.

Ltac kind_cases :=
  unfold step_kind, col_le in *; cbn [fst snd] in *;
  repeat match goal with
         | |- context [Z.eqb ?x ?y] => destruct (Z.eqb_spec x y)
         | H : context [Z.eqb ?x ?y] |- _ => destruct (Z.eqb_spec x y)
         end;
  try congruence; try lia.

Lemma btop_step_inv v cs t :
  btop_inv v cs ->
  (startswith_dash t = false -> 0 <= match_length t) ->
  exists cs', btop_inv (btop_step v t) cs'.
Proof.
  intros Hinv Hlen. unfold btop_step. fold (match_length t).
  destruct (startswith_dash t) eqn:Hsw; [|destruct (endswith_dash t) eqn:Hew].
  - (* a gap in the query *)
    destruct (State_eqb (bt_state v) QUERY_GAP) eqn:Hs; cbn [negb].
    + assert (Hq : bt_state v = QUERY_GAP) by (destruct (bt_state v); now inversion Hs).
      destruct (btop_inv_last2 v cs Hinv) as (l & a & b & -> & Hk & Hab);
        [congruence|].
      exists (l ++ [a; (fst b + 1, snd b)]).
      pose proof (btop_inv_replace v l a b (fst b + 1, snd b) Hinv) as Hrep.
      destruct Hinv as [Ht Hqy _ _ _ _].
      rewrite Ht, Hqy. replace (l ++ [a; b]) with ((l ++ [a]) ++ [b])
        by now rewrite <- app_assoc.
      rewrite !map_app. cbn [map]. rewrite add_to_last_snoc.
      rewrite !map_app in Hrep. apply Hrep.
      * rewrite Hq in Hk. kind_cases.
      * rewrite Hq in Hk. kind_cases.
    + destruct (btop_inv_last1 v cs Hinv) as (l & c & ->).
      exists (l ++ [c; (fst c + 1, snd c)]).
      pose proof (btop_inv_extend v l c (fst c + 1, snd c) Hinv) as Hext.
      assert (Hk : step_kind c (fst c + 1, snd c) = QUERY_GAP) by kind_cases.
      rewrite Hk in Hext. cbn [bt_target bt_query bt_state].
      destruct Hinv as [Ht Hqy _ _ _ _].
      unfold append in *. rewrite Ht, Hqy in *. rewrite !map_app in *.
      cbn [map] in *. rewrite !last_item_snoc.
      rewrite add_to_last_snoc. cbn [fst snd] in Hext. apply Hext.
      * unfold col_le; cbn [fst snd]; lia.
      * congruence.
      * intros He. rewrite <- He in Hs. discriminate.
  - (* a gap in the target *)
    destruct (State_eqb (bt_state v) TARGET_GAP) eqn:Hs; cbn [negb].
    + assert (Hq : bt_state v = TARGET_GAP) by (destruct (bt_state v); now inversion Hs).
      destruct (btop_inv_last2 v cs Hinv) as (l & a & b & -> & Hk & Hab);
        [congruence|].
      exists (l ++ [a; (fst b, snd b + 1)]).
      pose proof (btop_inv_replace v l a b (fst b, snd b + 1) Hinv) as Hrep.
      destruct Hinv as [Ht Hqy _ _ _ _].
      rewrite Ht, Hqy. replace (l ++ [a; b]) with ((l ++ [a]) ++ [b])
        by now rewrite <- app_assoc.
      rewrite !map_app. cbn [map]. rewrite add_to_last_snoc.
      rewrite !map_app in Hrep. apply Hrep.
      * rewrite Hq in Hk. kind_cases.
      * rewrite Hq in Hk. kind_cases.
    + destruct (btop_inv_last1 v cs Hinv) as (l & c & ->).
      exists (l ++ [c; (fst c, snd c + 1)]).
      pose proof (btop_inv_extend v l c (fst c, snd c + 1) Hinv) as Hext.
      assert (Hk : step_kind c (fst c, snd c + 1) = TARGET_GAP) by kind_cases.
      rewrite Hk in Hext. cbn [bt_target bt_query bt_state].
      destruct Hinv as [Ht Hqy _ _ _ _].
      unfold append in *. rewrite Ht, Hqy in *. rewrite !map_app in *.
      cbn [map] in *. rewrite !last_item_snoc.
      rewrite add_to_last_snoc. cbn [fst snd] in Hext. apply Hext.
      * unfold col_le; cbn [fst snd]; lia.
      * congruence.
      * intros He. rewrite <- He in Hs. discriminate.
  - (* a run of matches, or one pair of mismatched letters *)
    specialize (Hlen eq_refl). set (n := match_length t) in *.
    destruct (State_eqb (bt_state v) MATCH) eqn:Hs.
    + assert (Hq : bt_state v = MATCH) by (destruct (bt_state v); now inversion Hs).
      destruct (btop_inv_last2 v cs Hinv) as (l & a & b & -> & Hk & Hab);
        [congruence|].
      exists (l ++ [a; (fst b + n, snd b + n)]).
      pose proof (btop_inv_replace v l a b (fst b + n, snd b + n) Hinv) as Hrep.
      destruct Hinv as [Ht Hqy _ _ _ _].
      rewrite Ht, Hqy. replace (l ++ [a; b]) with ((l ++ [a]) ++ [b])
        by now rewrite <- app_assoc.
      rewrite !map_app. cbn [map]. rewrite !add_to_last_snoc.
      rewrite !map_app in Hrep. apply Hrep.
      * rewrite Hq in Hk. kind_cases.
      * rewrite Hq in Hk. kind_cases.
    + destruct (btop_inv_last1 v cs Hinv) as (l & c & ->).
      exists (l ++ [c; (fst c + n, snd c + n)]).
      pose proof (btop_inv_extend v l c (fst c + n, snd c + n) Hinv) as Hext.
      assert (Hk : step_kind c (fst c + n, snd c + n) = MATCH) by kind_cases.
      rewrite Hk in Hext.
      destruct Hinv as [Ht Hqy _ _ _ _].
      unfold append in *. rewrite Ht, Hqy in *. rewrite !map_app in *.
      cbn [map] in *. rewrite !last_item_snoc.
      cbn [fst snd] in Hext. apply Hext.
      * unfold col_le; cbn [fst snd]; lia.
      * congruence.
      * intros He. rewrite <- He in Hs. discriminate.
Qed.

Lemma add_to_last_length l n :
  List.length (add_to_last l n) = List.length l.
Proof.
  induction l as [|x l IH]; [reflexivity|].
  destruct l as [|y l]; [reflexivity|].
  change (add_to_last (x :: y :: l) n) with (x :: add_to_last (y :: l) n).
  cbn [List.length]. now rewrite IH.
Qed.

(** A column is added each time the kind of the token is not the state. *)
Lemma btop_step_length v t :
  let v' := btop_step v t in
  bt_state v' = token_kind t
  /\ List.length (bt_target v')
     = (List.length (bt_target v)
        + if State_eqb (bt_state v) (token_kind t) then 0 else 1)%nat
  /\ List.length (bt_query v')
     = (List.length (bt_query v)
        + if State_eqb (bt_state v) (token_kind t) then 0 else 1)%nat.
Proof.
  unfold btop_step, token_kind.
  destruct (startswith_dash t); [|destruct (endswith_dash t)];
    destruct (bt_state v) eqn:Hs;
    cbn [State_eqb negb bt_target bt_query bt_state]; unfold append;
    rewrite ?add_to_last_length, ?length_app; cbn [List.length];
    repeat split; try assumption; lia.
Qed.

Lemma btop_loop_length tokens : forall v,
  List.length (bt_target (btop_loop tokens v))
  = (List.length (bt_target v)
     + kind_changes (bt_state v) (map token_kind tokens))%nat
  /\ List.length (bt_query (btop_loop tokens v))
     = (List.length (bt_query v)
        + kind_changes (bt_state v) (map token_kind tokens))%nat.
Proof.
  induction tokens as [|t tokens IH]; intros v.
  - cbn. split; lia.
  - cbn [btop_loop fold_left map kind_changes].
    change (fold_left btop_step tokens (btop_step v t))
      with (btop_loop tokens (btop_step v t)).
    destruct (IH (btop_step v t)) as [Ht Hq].
    destruct (btop_step_length v t) as (Hs & Ht1 & Hq1).
    rewrite Ht, Hq, Hs, Ht1, Hq1. split; lia.
Qed.

Lemma btop_lists_length btop :
  List.length (matrix_columns (btop_lists btop))
  = S (kind_changes NONE (map token_kind (btop_tokens btop))).
Proof.
  unfold matrix_columns, btop_lists. cbn [target_row query_row].
  rewrite length_combine.
  destruct (btop_loop_length (btop_tokens btop) btop_init) as [-> ->].
  cbn [btop_init bt_target bt_query bt_state List.length]. lia.
Qed.

Lemma btop_init_inv : btop_inv btop_init [(0, 0)].
Proof.
  constructor; simpl; try reflexivity; try exact I.
  - now exists [].
  - split; [constructor | exact I].
Qed.

Lemma btop_loop_inv tokens : forall v cs,
  Forall is_btop_token tokens -> btop_inv v cs ->
  exists cs', btop_inv (btop_loop tokens v) cs'.
Proof.
  induction tokens as [|t tokens IH]; intros v cs Htok Hinv; simpl.
  - now exists cs.
  - inversion Htok as [|? ? Ht Hrest]; subst.
    destruct (btop_step_inv v cs t Hinv) as [cs1 H1].
    + intros Hd. now apply match_length_token.
    + now apply (IH _ cs1).
Qed.

Lemma columns_of_pairs cs :
  matrix_columns (Matrix (map fst cs) (map snd cs)) = cs.
Proof. apply combine_fst_snd. Qed.

Lemma well_formed_of_pairs cs r :
  cs = (0, 0) :: r -> adjacent col_le cs ->
  well_formed (Matrix (map fst cs) (map snd cs)).
Proof.
  intros Hr Hle. unfold well_formed. rewrite columns_of_pairs.
  cbn [target_row query_row]. repeat split.
  - now exists r.
  - now rewrite !length_map.
  - apply (adjacent_map fst col_le); [|assumption]. now intros x y [H _].
  - apply (adjacent_map snd col_le); [|assumption]. now intros x y [_ H].
Qed.

Lemma btop_lists_inv btop :
  exists cs, btop_inv (btop_loop (btop_tokens btop) btop_init) cs.
Proof.
  apply (btop_loop_inv _ _ [(0, 0)]); [apply btop_tokens_ok | apply btop_init_inv].
Qed.

Lemma btop_lists_well_formed btop : well_formed (btop_lists btop).
Proof.
  destruct (btop_lists_inv btop) as [cs [Ht Hq [r Hr] Hle _ _]].
  unfold btop_lists. rewrite Ht, Hq. now apply (well_formed_of_pairs cs r).
Qed.

Lemma btop_lists_runs_merged btop : runs_merged (matrix_columns (btop_lists btop)).
Proof.
  destruct (btop_lists_inv btop) as [cs [Ht Hq _ _ Hm _]].
  unfold btop_lists. rewrite Ht, Hq, columns_of_pairs. exact Hm.
Qed.

(** ** The loop of [cigar_lists] *)

Lemma cigar_pairs_cons2 a b (r : list string) :
  cigar_pairs (a :: b :: r) = (a, b) :: cigar_pairs r.
Proof. unfold cigar_pairs. destruct r; reflexivity. Qed.

Lemma pairs_ind (P : list string -> Prop) :
  P [] -> (forall a, P [a]) -> (forall a b r, P r -> P (a :: b :: r)) ->
  forall l, P l.
Proof.
  intros H0 H1 H2.
  assert (H : forall l, P l /\ forall a, P (a :: l)).
  { induction l as [|x l [IH1 IH2]]; split; auto. }
  intros l. apply H.
Qed.

Lemma cigar_pairs_tokens tokens :
  Forall is_cigar_token tokens ->
  Forall (fun p => is_cigar_token (fst p) /\ is_cigar_token (snd p))
         (cigar_pairs tokens).
Proof.
  induction tokens as [| a | a b r IH] using pairs_ind; intros H.
  - constructor.
  - constructor.
  - rewrite cigar_pairs_cons2. inversion H as [|? ? Ha H']; subst.
    inversion H' as [|? ? Hb Hr]; subst. constructor; auto.
Qed.

Lemma cigar_pairs_length tokens :
  List.length (cigar_pairs tokens) = Nat.div2 (List.length tokens).
Proof.
  induction tokens as [| a | a b r IH] using pairs_ind; try reflexivity.
  rewrite cigar_pairs_cons2. simpl. now rewrite IH.
Qed.

Lemma cigar_loop_trace pairs : forall v,
  forallb (fun p => is_number (fst p)) pairs = true ->
  exists v',
    cigar_loop pairs v = inr v'
    /\ cg_target v' = cg_target v
         ++ map fst (trace (target_coordinate v, query_coordinate v) pairs)
    /\ cg_query v' = cg_query v
         ++ map snd (trace (target_coordinate v, query_coordinate v) pairs).
Proof.
  induction pairs as [|[len op] pairs IH]; intros v Hnum.
  - exists v. simpl. now rewrite !app_nil_r.
  - cbn [forallb fst] in Hnum. apply andb_true_iff in Hnum as [Hn Hrest].
    unfold is_number in Hn. destruct (int len) as [n|] eqn:Hint; [|discriminate].
    cbn [cigar_loop cigar_step trace]. rewrite Hint. cbn [bind ret].
    unfold advance. cbn [fst snd].
    destruct (String.eqb op "M"); [|destruct (String.eqb op "I");
                                     [|destruct (String.eqb op "D")]];
      cbn [bind ret];
      match goal with
      | |- context [cigar_loop pairs ?w] =>
          destruct (IH w Hrest) as (v' & Hloop & Ht & Hq)
      end;
      exists v'; cbn [cg_target cg_query target_coordinate query_coordinate] in *;
      unfold append in *; rewrite Hloop, Ht, Hq, <- !app_assoc; auto.
Qed.

Lemma cigar_loop_error pairs : forall v,
  forallb (fun p => is_number (fst p)) pairs = false ->
  cigar_loop pairs v = inl ValueError.
Proof.
  induction pairs as [|[len op] pairs IH]; intros v Hnum; [discriminate|].
  cbn [forallb fst] in Hnum. cbn [cigar_loop cigar_step].
  unfold is_number in Hnum. destruct (int len) as [n|] eqn:Hint.
  - cbn [bind ret].
    destruct (String.eqb op "M"); [|destruct (String.eqb op "I");
                                     [|destruct (String.eqb op "D")]];
      cbn [bind ret]; apply IH; exact Hnum.
  - reflexivity.
Qed.

Lemma trace_length pairs : forall c, List.length (trace c pairs) = List.length pairs.
Proof.
  induction pairs as [|[len op] pairs IH]; intros c; simpl; [reflexivity|].
  now rewrite IH.
Qed.

Lemma int_cigar_token_nonneg t n : is_cigar_token t -> int t = Some n -> 0 <= n.
Proof.
  intros [-> | [-> | [-> | [Hd Hne]]]] Hint; try discriminate.
  now apply (int_digits_nonneg t n Hd Hne).
Qed.

Lemma trace_le pairs : forall c,
  Forall (fun p => is_cigar_token (fst p) /\ is_cigar_token (snd p)) pairs ->
  adjacent col_le (c :: trace c pairs).
Proof.
  induction pairs as [|[len op] pairs IH]; intros c Hp; [exact I|].
  inversion Hp as [|? ? [Hlen _] Hrest]; subst. cbn [trace].
  split; [|apply IH; assumption].
  cbn [fst] in Hlen.
  assert (Hn : 0 <= match int len with Some n => n | None => 0 end).
  { destruct (int len) eqn:Hint; [|lia]. eapply int_cigar_token_nonneg; eassumption. }
  unfold advance, col_le.
  destruct (String.eqb op "M"); [|destruct (String.eqb op "I");
                                   [|destruct (String.eqb op "D")]];
    cbn [fst snd]; lia.
Qed.

(** A pair whose operation is none of M, I, D repeats the column before it. *)
Lemma trace_unknown_operation pairs : forall c i len op,
  nth_error pairs i = Some (len, op) ->
  op <> "M" -> op <> "I" -> op <> "D" ->
  nth_error (c :: trace c pairs) (S i) = nth_error (c :: trace c pairs) i.
Proof.
  induction pairs as [|[len0 op0] pairs IH]; intros c i len op Hnth HM HI HD.
  - destruct i; discriminate.
  - destruct i as [|i].
    + inversion Hnth; subst. cbn [trace nth_error]. unfold advance.
      apply String.eqb_neq in HM, HI, HD. now rewrite HM, HI, HD.
    + cbn [trace]. cbn [nth_error] in Hnth.
      change (nth_error (c :: ?x :: ?l) (S (S i))) with (nth_error (x :: l) (S i)).
      change (nth_error (c :: ?x :: ?l) (S i)) with (nth_error (x :: l) i).
      eapply IH; eassumption.
Qed.

(** What [cigar_lists] returns, from the tokens of its input. *)
Lemma cigar_lists_numeric cigar :
  lengths_numeric (cigar_tokens cigar) = true ->
  cigar_lists cigar
  = inr (Matrix (map fst ((0, 0) :: trace (0, 0) (cigar_pairs (cigar_tokens cigar))))
                (map snd ((0, 0) :: trace (0, 0) (cigar_pairs (cigar_tokens cigar))))).
Proof.
  intros Hnum. unfold cigar_lists.
  destruct (cigar_loop_trace _ cigar_init Hnum) as (v & Hloop & Ht & Hq).
  rewrite Hloop. cbn [bind ret]. rewrite Ht, Hq. reflexivity.
Qed.

Lemma cigar_lists_not_numeric cigar :
  lengths_numeric (cigar_tokens cigar) = false ->
  cigar_lists cigar = inl ValueError.
Proof.
  intros Hnum. unfold cigar_lists.
  now rewrite (cigar_loop_error _ cigar_init Hnum).
Qed.

(** ** Characters the CIGAR pattern passes over *)

Lemma take_digits_before s c rest :
  is_digit c = false -> take_digits (s ++ String c rest) = take_digits s.
Proof.
  intros Hc. induction s as [|x s IH]; simpl.
  - now rewrite Hc.
  - destruct (is_digit x); [now rewrite IH | reflexivity].
Qed.

Lemma cigar_pattern_before x s c rest :
  is_digit c = false ->
  cigar_pattern (String x (s ++ String c rest)) = cigar_pattern (String x s).
Proof.
  intros Hc. unfold cigar_pattern, digits_pattern.
  change (String x (s ++ String c rest)) with (String x s ++ String c rest)%string.
  now rewrite take_digits_before.
Qed.

Lemma take_digits_length s : (String.length (take_digits s) <= String.length s)%nat.
Proof.
  induction s as [|x s IH]; simpl; [lia|].
  destruct (is_digit x); simpl; lia.
Qed.

Lemma cigar_pattern_length s t :
  cigar_pattern s = Some t -> (1 <= String.length t <= String.length s)%nat.
Proof.
  unfold cigar_pattern, digits_pattern. destruct s as [|x s]; [discriminate|].
  pose proof (take_digits_length (String x s)) as Hlen.
  destruct (Ascii.eqb x "M"); [intros H; inversion H; simpl; lia|].
  destruct (Ascii.eqb x "D"); [intros H; inversion H; simpl; lia|].
  destruct (Ascii.eqb x "I"); [intros H; inversion H; simpl; lia|].
  destruct (take_digits (String x s)); intros H; inversion H; subst.
  simpl in *. lia.
Qed.

Lemma findall_cigar_before c rest : forall s k,
  is_digit c = false -> (k <= String.length s)%nat ->
  findall cigar_pattern k (s ++ String c rest)
  = findall cigar_pattern k s ++ findall cigar_pattern 0 (String c rest).
Proof.
  intros s k Hc. revert k.
  induction s as [|x s IH]; intros k Hk.
  - simpl in Hk. assert (k = 0)%nat as -> by lia. reflexivity.
  - change (String x s ++ String c rest)%string
      with (String x (s ++ String c rest)).
    cbn [findall]. destruct k as [|k].
    + rewrite (cigar_pattern_before x s c rest Hc).
      destruct (cigar_pattern (String x s)) as [t|] eqn:Hp.
      * apply cigar_pattern_length in Hp. cbn [String.length] in Hp.
        rewrite IH by lia. reflexivity.
      * apply IH. lia.
    + apply IH. cbn [String.length] in Hk. lia.
Qed.

Lemma cigar_tokens_skip s c rest :
  is_digit c = false -> c <> "M"%char -> c <> "D"%char -> c <> "I"%char ->
  cigar_tokens (s ++ String c rest) = cigar_tokens s ++ cigar_tokens rest.
Proof.
  intros Hc HM HD HI. unfold cigar_tokens.
  rewrite findall_cigar_before by (auto; lia). f_equal.
  apply findall_miss. unfold cigar_pattern, digits_pattern.
  apply Ascii.eqb_neq in HM, HD, HI. rewrite HM, HD, HI.
  cbn [take_digits]. now rewrite Hc.
Qed.

Lemma cigar_pairs_unpaired tokens t :
  Nat.even (List.length tokens) = true ->
  cigar_pairs (tokens ++ [t]) = cigar_pairs tokens.
Proof.
  induction tokens as [| a | a b r IH] using pairs_ind; intros Hev.
  - reflexivity.
  - discriminate.
  - cbn [List.app]. rewrite !cigar_pairs_cons2. f_equal. apply IH. exact Hev.
Qed.

(** ** Strings of the CIGAR grammar *)

Lemma render_digits_all ds : all_digits (render_digits ds) = true.
Proof. induction ds as [|[] ds IH]; simpl; auto. Qed.

Lemma decimal_render ds : forall acc,
  decimal acc (render_digits ds)
  = fold_left (fun acc d => 10 * acc + digit_number d) ds acc.
Proof.
  induction ds as [|d ds IH]; intros acc; [reflexivity|].
  cbn [render_digits decimal fold_left]. rewrite IH. f_equal.
  destruct d; reflexivity.
Qed.

Lemma render_digits_length ds :
  String.length (render_digits ds) = List.length ds.
Proof. induction ds as [|d ds IH]; simpl; congruence. Qed.

Lemma int_render ds :
  ds <> [] -> Z.of_nat (List.length ds) <= 4300 ->
  int (render_digits ds) = Some (number ds).
Proof.
  intros Hne Hlen. rewrite int_short.
  - now rewrite decimal_render.
  - apply render_digits_all.
  - destruct ds; [contradiction | discriminate].
  - now rewrite render_digits_length.
Qed.

Lemma int_render_digits it :
  Z.of_nat (List.length (item_digits it)) <= 4300 ->
  int (render_digits (item_digits it)) = Some (item_length it).
Proof. intros Hlen. apply int_render; [discriminate | assumption]. Qed.

Lemma cigar_tokens_render items :
  cigar_tokens (render items)
  = flat_map (fun it => [fst (item_tokens it); snd (item_tokens it)]) items.
Proof.
  unfold cigar_tokens.
  induction items as [|it items IH]; [reflexivity|].
  cbn [render flat_map List.app item_tokens fst snd].
  set (ds := render_digits (item_digits it)).
  set (o := operation_char (item_operation it)).
  assert (Hds : all_digits ds = true) by apply render_digits_all.
  assert (Hne : ds <> EmptyString) by (unfold ds, item_digits; simpl; congruence).
  assert (Ho : is_digit o = false) by (unfold o; destruct (item_operation it); reflexivity).
  rewrite findall_match; [f_equal| assumption |].
  - change (String o (render items)) with (String o EmptyString ++ render items)%string.
    rewrite findall_match; [now rewrite IH | congruence |].
    unfold o; destruct (item_operation it); reflexivity.
  - destruct ds as [|c r] eqn:Eds; [congruence|].
    change (String c r ++ String o (render items))%string
      with (String c (r ++ String o (render items))).
    unfold cigar_pattern.
    pose proof Hds as Hc. cbn [all_digits] in Hc.
    apply andb_true_iff in Hc as [Hc _].
    destruct (digit_not_operation c Hc) as (-> & -> & ->).
    unfold digits_pattern.
    change (String c (r ++ String o (render items)))
      with (String c r ++ String o (render items))%string.
    now rewrite (take_digits_app (String c r) o (render items) Hds Ho).
Qed.

Lemma cigar_pairs_render items :
  cigar_pairs (cigar_tokens (render items)) = map item_tokens items.
Proof.
  rewrite cigar_tokens_render.
  induction items as [|it items IH]; [reflexivity|].
  cbn [flat_map List.app map]. rewrite cigar_pairs_cons2, IH.
  now destruct (item_tokens it).
Qed.

Lemma lengths_numeric_render items :
  short_lengths items ->
  lengths_numeric (cigar_tokens (render items)) = true.
Proof.
  unfold lengths_numeric. rewrite cigar_pairs_render.
  induction 1 as [|it items Hit Hitems IH]; [reflexivity|].
  cbn [map forallb item_tokens fst]. rewrite IH.
  unfold is_number. now rewrite int_render_digits.
Qed.

Lemma trace_render items : short_lengths items -> forall c,
  List.last (c :: trace c (map item_tokens items)) (0, 0)
  = (fst c + sum_M_I items, snd c + sum_M_D items).
Proof.
  induction 1 as [|it items Hit Hitems IH]; intros c.
  - simpl. destruct c; simpl. f_equal; lia.
  - cbn [map trace item_tokens sum_M_I sum_M_D].
    rewrite int_render_digits by assumption.
    change (List.last (c :: ?x :: ?l) (0, 0)) with (List.last (x :: l) (0, 0)).
    rewrite IH. unfold advance.
    destruct (item_operation it); cbn [operation_char String.eqb Ascii.eqb fst snd];
      simpl; f_equal; lia.
Qed.

(** ** The arrays the decoders return *)

Lemma fits_int64_spec n :
  fits_int64 n = true <-> - int64_bound <= n < int64_bound.
Proof. unfold fits_int64. rewrite andb_true_iff, Z.leb_le, Z.ltb_lt. tauto. Qed.

Lemma wrap_int64_fits n : fits_int64 n = true -> wrap_int64 n = n.
Proof.
  intros H. apply fits_int64_spec in H. unfold wrap_int64, int64_bound in *.
  rewrite Z.mod_small; lia.
Qed.

Lemma wrap_int64_add_1 n : wrap_int64 (wrap_int64 n + 1) = wrap_int64 (n + 1).
Proof.
  unfold wrap_int64. f_equal.
  replace ((n + int64_bound) mod (2 * int64_bound) - int64_bound + 1
           + int64_bound)
    with ((n + int64_bound) mod (2 * int64_bound) + 1) by lia.
  replace (n + 1 + int64_bound) with (n + int64_bound + 1) by lia.
  rewrite (Z.add_mod (n + int64_bound) 1) by (unfold int64_bound; lia).
  rewrite (Z.add_mod ((n + int64_bound) mod (2 * int64_bound)) 1)
    by (unfold int64_bound; lia).
  now rewrite Z.mod_mod by (unfold int64_bound; lia).
Qed.

Lemma array_of_fits m : matrix_fits m = true -> array_of m = int64_array m.
Proof.
  unfold array_of, numpy_array, matrix_fits. intros ->. now destruct m.
Qed.

Lemma array_of_int64 m rows :
  array_of m = int64_array rows -> rows = m /\ matrix_fits m = true.
Proof.
  unfold array_of, numpy_array, matrix_fits.
  destruct (forallb fits_int64 (target_row m)
            && forallb fits_int64 (query_row m)); [|discriminate].
  intros H. inversion H. now destruct m.
Qed.

Lemma array_of_wide m lists : array_of m = wide_array lists -> lists = m.
Proof.
  unfold array_of, numpy_array.
  destruct (forallb fits_int64 (target_row m)
            && forallb fits_int64 (query_row m)); [discriminate|].
  intros H. inversion H. now destruct m.
Qed.

Lemma nondecreasing_bounds l : forall a,
  nondecreasing (a :: l) ->
  Forall (fun x => a <= x <= List.last (a :: l) 0) (a :: l).
Proof.
  induction l as [|b l IH]; intros a H.
  - constructor; [cbn; lia | constructor].
  - destruct H as [Hab H]. specialize (IH b H).
    change (List.last (a :: b :: l) 0) with (List.last (b :: l) 0).
    constructor.
    + inversion IH; subst. lia.
    + eapply Forall_impl; [|exact IH]. cbn beta. intros x Hx. lia.
Qed.

Lemma last_combine (lt lq : list Z) a b :
  List.length lt = List.length lq ->
  List.last (combine lt lq) (a, b) = (List.last lt a, List.last lq b).
Proof.
  revert lq. induction lt as [|x lt IH]; intros [|y lq] Hlen;
    try discriminate; [reflexivity|].
  injection Hlen as Hlen. specialize (IH lq Hlen).
  destruct lt, lq; try discriminate; [reflexivity|].
  exact IH.
Qed.

(** The rows of a well formed matrix lie between 0 and its last column. *)
Lemma well_formed_fits m :
  well_formed m -> within_int64 (last_column m) -> matrix_fits m = true.
Proof.
  intros ([r Hr] & Hlen & Ht & Hq) [Hlt Hlq].
  unfold last_column, matrix_columns in *.
  rewrite (last_combine _ _ 0 0 Hlen) in Hlt, Hlq. cbn [fst snd] in Hlt, Hlq.
  destruct (target_row m) as [|t0 lt] eqn:Et; [discriminate|].
  destruct (query_row m) as [|q0 lq] eqn:Eq; [discriminate|].
  cbn [combine] in Hr. inversion Hr; subst t0 q0.
  unfold matrix_fits. rewrite Et, Eq.
  apply andb_true_iff. split; apply forallb_forall; intros x Hx.
  - pose proof (nondecreasing_bounds lt 0 Ht) as Hb.
    rewrite Forall_forall in Hb. specialize (Hb x Hx).
    apply fits_int64_spec. unfold int64_bound in *. lia.
  - pose proof (nondecreasing_bounds lq 0 Hq) as Hb.
    rewrite Forall_forall in Hb. specialize (Hb x Hx).
    apply fits_int64_spec. unfold int64_bound in *. lia.
Qed.

Lemma btop_step_last v t lt xt lq xq :
  bt_target v = lt ++ [xt] -> bt_query v = lq ++ [xq] ->
  exists lt' lq',
    bt_target (btop_step v t) = lt' ++ [xt + fst (token_advance t)]
    /\ bt_query (btop_step v t) = lq' ++ [xq + snd (token_advance t)].
Proof.
  intros Ht Hq. unfold btop_step, token_advance. fold (match_length t).
  destruct (startswith_dash t); [|destruct (endswith_dash t)];
    destruct (bt_state v);
    cbn [State_eqb negb bt_target bt_query bt_state fst snd]; unfold append;
    rewrite ?Ht, ?Hq, ?last_item_snoc, ?add_to_last_snoc;
    try (exists lt, lq; split; f_equal; f_equal; lia);
    try (exists (lt ++ [xt]), (lq ++ [xq]); split; f_equal; f_equal; lia).
Qed.

Lemma btop_loop_last tokens : forall v lt xt lq xq,
  bt_target v = lt ++ [xt] -> bt_query v = lq ++ [xq] ->
  exists lt' lq',
    bt_target (btop_loop tokens v) = lt' ++ [xt + fst (total_advance tokens)]
    /\ bt_query (btop_loop tokens v) = lq' ++ [xq + snd (total_advance tokens)].
Proof.
  induction tokens as [|t tokens IH]; intros v lt xt lq xq Ht Hq.
  - exists lt, lq. cbn. now rewrite !Z.add_0_r.
  - destruct (btop_step_last v t lt xt lq xq Ht Hq) as (lt1 & lq1 & Ht1 & Hq1).
    destruct (IH (btop_step v t) _ _ _ _ Ht1 Hq1) as (lt2 & lq2 & Ht2 & Hq2).
    exists lt2, lq2. cbn [btop_loop fold_left total_advance fst snd].
    change (fold_left btop_step tokens (btop_step v t))
      with (btop_loop tokens (btop_step v t)).
    rewrite Ht2, Hq2. split; f_equal; f_equal; lia.
Qed.

Lemma last_combine_snoc (lt lq : list Z) xt xq :
  List.length lt = List.length lq ->
  List.last (combine (lt ++ [xt]) (lq ++ [xq])) (0, 0) = (xt, xq).
Proof.
  revert lq. induction lt as [|a lt IH]; intros [|b lq] Hlen;
    try discriminate; [reflexivity|].
  cbn [List.app combine]. injection Hlen as Hlen. specialize (IH lq Hlen).
  destruct lt, lq; try discriminate; cbn in *; auto.
Qed.

(** The last column of the lists of [parse_btop] is what the tokens add up
    to. *)
Lemma btop_lists_last_column btop :
  last_column (btop_lists btop) = total_advance (btop_tokens btop).
Proof.
  unfold last_column, matrix_columns, btop_lists. cbn [target_row query_row].
  destruct (btop_loop_last (btop_tokens btop) btop_init [] 0 [] 0 eq_refl eq_refl)
    as (lt & lq & Ht & Hq).
  destruct (btop_loop_length (btop_tokens btop) btop_init) as [Hlt Hlq].
  rewrite Ht, Hq in *. rewrite last_combine_snoc.
  - destruct (total_advance (btop_tokens btop)); reflexivity.
  - rewrite !length_app in Hlt, Hlq. cbn [List.length btop_init bt_target bt_query] in *.
    lia.
Qed.

(** [parse_btop] returns the array of 64-bit integers that holds its lists
    when what the tokens add up to is below 2^63. *)
Lemma parse_btop_int64 btop :
  within_int64 (total_advance (btop_tokens btop)) ->
  parse_btop btop = int64_array (btop_lists btop).
Proof.
  intros H. change (parse_btop btop) with (array_of (btop_lists btop)).
  apply array_of_fits, well_formed_fits; [apply btop_lists_well_formed|].
  now rewrite btop_lists_last_column.
Qed.

Lemma cigar_lists_well_formed cigar :
  well_formed (Matrix (map fst (cigar_columns cigar))
                      (map snd (cigar_columns cigar))).
Proof.
  eapply well_formed_of_pairs; [reflexivity|].
  apply trace_le, cigar_pairs_tokens, cigar_tokens_ok.
Qed.

(** What [parse_cigar] returns, from the tokens of its input. *)
Lemma parse_cigar_numeric cigar :
  lengths_numeric (cigar_tokens cigar) = true ->
  parse_cigar cigar
  = inr (array_of (Matrix (map fst (cigar_columns cigar))
                          (map snd (cigar_columns cigar)))).
Proof.
  intros Hnum. unfold parse_cigar.
  now rewrite (cigar_lists_numeric cigar Hnum).
Qed.

Lemma parse_cigar_not_numeric cigar :
  lengths_numeric (cigar_tokens cigar) = false ->
  parse_cigar cigar = inl ValueError.
Proof.
  intros Hnum. unfold parse_cigar.
  now rewrite (cigar_lists_not_numeric cigar Hnum).
Qed.

Lemma parse_cigar_int64 cigar :
  lengths_numeric (cigar_tokens cigar) = true ->
  within_int64 (List.last (cigar_columns cigar) (0, 0)) ->
  parse_cigar cigar
  = inr (int64_array (Matrix (map fst (cigar_columns cigar))
                             (map snd (cigar_columns cigar)))).
Proof.
  intros Hnum Hfit. rewrite (parse_cigar_numeric cigar Hnum). f_equal.
  apply array_of_fits, well_formed_fits; [apply cigar_lists_well_formed|].
  unfold last_column. now rewrite columns_of_pairs.
Qed.

(** The columns of a string of the grammar. *)
Lemma cigar_columns_render items :
  cigar_columns (render items) = (0, 0) :: trace (0, 0) (map item_tokens items).
Proof. unfold cigar_columns. now rewrite cigar_pairs_render. Qed.

Lemma parse_cigar_render items :
  short_lengths items ->
  within_int64 (sum_M_I items, sum_M_D items) ->
  parse_cigar (render items)
  = inr (int64_array
           (Matrix (map fst ((0, 0) :: trace (0, 0) (map item_tokens items)))
                   (map snd ((0, 0) :: trace (0, 0) (map item_tokens items))))).
Proof.
  intros Hs Hfit. rewrite <- cigar_columns_render.
  apply parse_cigar_int64; [now apply lengths_numeric_render|].
  rewrite cigar_columns_render, (trace_render items Hs (0, 0)). exact Hfit.
Qed.

(** When [int] refuses a token of [cigar_pattern]. *)
Lemma is_number_token t :
  is_cigar_token t ->
  is_number t = false
  <-> (t = "M" \/ t = "D" \/ t = "I" \/ 4300 < Z.of_nat (String.length t)).
Proof.
  unfold is_number. intros [-> | [-> | [-> | [Hd Hne]]]].
  1-3: split; [auto | reflexivity].
  rewrite (int_digits_string t Hd Hne).
  destruct (max_str_digits <? Z.of_nat (String.length t)) eqn:E.
  - apply Z.ltb_lt in E. unfold max_str_digits in E. split; [|reflexivity].
    intros _. do 3 right. lia.
  - apply Z.ltb_ge in E. unfold max_str_digits in E. split; [discriminate|].
    intros [-> | [-> | [-> | H]]]; try discriminate. lia.
Qed.

Lemma lengths_not_numeric tokens :
  Forall is_cigar_token tokens ->
  lengths_numeric tokens = false
  <-> exists length operation,
        In (length, operation) (cigar_pairs tokens)
        /\ (length = "M" \/ length = "D" \/ length = "I"
            \/ 4300 < Z.of_nat (String.length length)).
Proof.
  intros Htok. apply cigar_pairs_tokens in Htok. unfold lengths_numeric.
  induction (cigar_pairs tokens) as [|[len op] pairs IH].
  - split; [discriminate | intros (l & o & [] & _)].
  - inversion Htok as [|? ? [Hlen _] Hrest]; subst. cbn [fst] in Hlen.
    cbn [forallb fst]. rewrite andb_false_iff, (is_number_token len Hlen).
    rewrite (IH Hrest). split.
    + intros [H | (l & o & Hin & H)].
      * exists len, op. split; [now left | assumption].
      * exists l, o. split; [now right | assumption].
    + intros (l & o & [Heq | Hin] & H).
      * inversion Heq; subst. now left.
      * right. now exists l, o.
Qed.

(** * The claims about the decoders *)

(** C1, as stated, fails: the BTOP string "5AA3" does not decode to the four
    columns [[0,5,6,9],[0,5,6,9]]. *)
Lemma C1_btop_5AA3_not_four_columns :
  parse_btop "5AA3" <> int64_array (Matrix [0; 5; 6; 9] [0; 5; 6; 9]).
Proof. vm_compute. discriminate. Qed.

(** C1, amended: "5AA3" is read as the tokens 5, AA, 3; the first opens a
    match run and the other two extend it in place, so the matrix is
    [[0,9],[0,9]]. *)
Theorem C1_btop_5AA3_one_run :
  btop_tokens "5AA3" = ["5"; "AA"; "3"]
  /\ parse_btop "5AA3" = int64_array (Matrix [0; 9] [0; 9]).
Proof. split; vm_compute; reflexivity. Qed.

(** C2, as stated, fails for [parse_cigar]: "2M3M" and "5M" decode to
    different matrices. *)
Lemma C2_cigar_2M3M_differs_from_5M :
  parse_cigar "2M3M" <> parse_cigar "5M".
Proof. vm_compute. discriminate. Qed.

(** C2, amended: [parse_btop] merges runs of one kind.  For every input
    whose tokens add up to less than 2^63 on either row, it returns an array
    of 64-bit integers with one column, the first, and one more for each
    token whose kind (query gap, target gap, match) is not that of the token
    before it; every step between neighbouring columns is a match run, a
    query gap or a target gap, and no two neighbouring steps are of the same
    kind.  [parse_cigar] merges nothing: for every string of the grammar
    whose lengths have at most 4300 digits and add up to less than 2^63 on
    either row, it returns an array with one column for each item after the
    first column, so "2M3M" gives the columns (0,0),(2,2),(5,5) and "5M"
    gives (0,0),(5,5). *)
Theorem C2_btop_merges_cigar_does_not :
  (forall btop,
      within_int64 (total_advance (btop_tokens btop)) ->
      exists m,
        parse_btop btop = int64_array m
        /\ List.length (matrix_columns m)
           = S (kind_changes NONE (map token_kind (btop_tokens btop)))
        /\ runs_merged (matrix_columns m))
  /\ (forall items,
         short_lengths items ->
         within_int64 (sum_M_I items, sum_M_D items) ->
         exists m,
           parse_cigar (render items) = inr (int64_array m)
           /\ List.length (matrix_columns m) = S (List.length items))
  /\ parse_cigar "2M3M" = inr (int64_array (Matrix [0; 2; 5] [0; 2; 5]))
  /\ parse_cigar "5M" = inr (int64_array (Matrix [0; 5] [0; 5])).
Proof.
  split; [|split; [|split; vm_compute; reflexivity]].
  - intros btop Hfit. exists (btop_lists btop).
    split; [now apply parse_btop_int64|].
    split; [apply btop_lists_length | apply btop_lists_runs_merged].
  - intros items Hs Hfit. eexists.
    split; [now apply parse_cigar_render|].
    rewrite columns_of_pairs. cbn [List.length].
    now rewrite trace_length, length_map.
Qed.

(** The theorem at the BTOP string "3-A-C2" and at the items 2M, 3M. *)
Lemma C2_runs_of_3AC2_and_2M3M :
  (exists m,
      parse_btop "3-A-C2" = int64_array m
      /\ List.length (matrix_columns m)
         = S (kind_changes NONE (map token_kind (btop_tokens "3-A-C2")))
      /\ runs_merged (matrix_columns m))
  /\ exists m,
       parse_cigar (render [((d2, []), OpM); ((d3, []), OpM)])
       = inr (int64_array m)
       /\ List.length (matrix_columns m) = 3%nat.
Proof.
  split.
  - apply (proj1 C2_btop_merges_cigar_does_not "3-A-C2").
    vm_compute. split; reflexivity.
  - apply (proj1 (proj2 C2_btop_merges_cigar_does_not)
             [((d2, []), OpM); ((d3, []), OpM)]).
    + repeat constructor; vm_compute; discriminate.
    + vm_compute. split; reflexivity.
Defined.

(** C4, as stated, fails: "4X3M" has the two pairs 4X and 3M, and the
    matrix returned is [[0,0],[0,0]]: it has gained one column, not one for
    each pair, and the advance of 3M is in none. *)
Lemma C4_cigar_4X3M_not_three_columns :
  parse_cigar "4X3M" = inr (int64_array (Matrix [0; 0] [0; 0]))
  /\ ~ (exists m, parse_cigar "4X3M" = inr (int64_array m)
                  /\ List.length (matrix_columns m) = (1 + 2)%nat).
Proof.
  split; [vm_compute; reflexivity|].
  intros (m & Hm & Hlen). vm_compute in Hm. inversion Hm; subst.
  vm_compute in Hlen. discriminate.
Qed.

(** C4, amended: the pairs [parse_cigar] works on are the consecutive pairs
    of tokens that [(M|D|I|\d+)] finds, a character such as X being no token.
    When [int] converts every token in a length position (a run of at most
    4300 digits) and the pairs lead to columns below 2^63, the array
    returned has one column more than there are such pairs, and a pair
    whose operation token is none of M, I, D (a number, then) repeats the
    column before it. *)
Theorem C4_cigar_unknown_operation (cigar : string) :
  lengths_numeric (cigar_tokens cigar) = true ->
  within_int64 (List.last (cigar_columns cigar) (0, 0)) ->
  exists m,
    parse_cigar cigar = inr (int64_array m)
    /\ List.length (matrix_columns m) = S (List.length (cigar_pairs (cigar_tokens cigar)))
    /\ forall i length operation,
         nth_error (cigar_pairs (cigar_tokens cigar)) i = Some (length, operation) ->
         operation <> "M" -> operation <> "I" -> operation <> "D" ->
         nth_error (matrix_columns m) (S i) = nth_error (matrix_columns m) i.
Proof.
  intros Hnum Hfit. eexists. split; [now apply parse_cigar_int64|].
  rewrite columns_of_pairs. unfold cigar_columns. split.
  - cbn [List.length]. now rewrite trace_length.
  - intros i len op Hnth HM HI HD. eapply trace_unknown_operation; eassumption.
Qed.

(** The theorem at "4X3M", whose tokens are 4, 3, M. *)
Lemma C4_cigar_4X3M :
  cigar_tokens "4X3M" = ["4"; "3"; "M"]
  /\ exists m,
       parse_cigar "4X3M" = inr (int64_array m)
       /\ List.length (matrix_columns m) = S (List.length (cigar_pairs (cigar_tokens "4X3M")))
       /\ forall i length operation,
            nth_error (cigar_pairs (cigar_tokens "4X3M")) i = Some (length, operation) ->
            operation <> "M" -> operation <> "I" -> operation <> "D" ->
            nth_error (matrix_columns m) (S i) = nth_error (matrix_columns m) i.
Proof.
  split; [reflexivity|].
  apply (C4_cigar_unknown_operation "4X3M"); [reflexivity|].
  vm_compute. split; reflexivity.
Defined.

(** C5, as stated, fails: the item of 4301 digits 1 followed by M is a
    string of the grammar, and [parse_cigar] returns no matrix for it:
    [int] refuses its length. *)
Lemma C5_cigar_long_length_raises :
  parse_cigar (render [((d1, repeat d1 4300), OpM)]) = inl ValueError.
Proof. vm_compute. reflexivity. Qed.

(** C5, amended: for every string of the CIGAR grammar whose lengths have at
    most 4300 digits and whose sums are below 2^63, [parse_cigar] returns an
    array of 64-bit integers whose last column is (sum of the M and I
    lengths, sum of the M and D lengths); "4M2I3M" decodes to the columns
    (0,0),(4,4),(6,4),(9,7). *)
Theorem C5_cigar_final_column :
  (forall items,
      short_lengths items ->
      within_int64 (sum_M_I items, sum_M_D items) ->
      exists m,
        parse_cigar (render items) = inr (int64_array m)
        /\ last_column m = (sum_M_I items, sum_M_D items))
  /\ exists m,
       parse_cigar "4M2I3M" = inr (int64_array m)
       /\ matrix_columns m = [(0, 0); (4, 4); (6, 4); (9, 7)].
Proof.
  split.
  - intros items Hs Hfit. eexists.
    split; [now apply parse_cigar_render|].
    unfold last_column. rewrite columns_of_pairs.
    now rewrite (trace_render items Hs (0, 0)).
  - eexists. split; vm_compute; reflexivity.
Qed.

(** The theorem at the items 12M, 7D, 30I. *)
Lemma C5_cigar_12M7D30I :
  exists m,
    parse_cigar (render [((d1, [d2]), OpM); ((d7, []), OpD); ((d3, [d0]), OpI)])
    = inr (int64_array m)
    /\ last_column m = (42, 19).
Proof.
  apply (proj1 C5_cigar_final_column
           [((d1, [d2]), OpM); ((d7, []), OpD); ((d3, [d0]), OpI)]).
  - repeat constructor; vm_compute; discriminate.
  - vm_compute. split; reflexivity.
Defined.

(** C7, as stated, fails for [parse_cigar]: on "DD" it returns no matrix. *)
Lemma C7_cigar_DD_no_matrix : ~ (exists m, parse_cigar "DD" = inr m).
Proof. intros [m Hm]. vm_compute in Hm. discriminate. Qed.

(** C7, amended: for every input, [parse_btop] hands numpy two lists of
    equal length that start with 0 and never decrease, and the empty string
    gives the single column (0,0); when the tokens add up to less than 2^63
    on either row, the array returned is one of 64-bit integers and holds
    these lists as they are.  [parse_cigar] does the same for every input in
    which [int] converts every token in a length position, with the bound
    2^63 on the columns its pairs lead to; this holds of the empty string,
    and of every string of the grammar whose lengths have at most 4300
    digits and whose sums are below 2^63.  For an input with a token in a
    length position that [int] refuses it raises ValueError. *)
Theorem C7_decoders_well_formed :
  (forall btop,
      exists m,
        parse_btop btop = array_of m /\ well_formed m
        /\ (within_int64 (total_advance (btop_tokens btop)) ->
            parse_btop btop = int64_array m))
  /\ parse_btop "" = int64_array (Matrix [0] [0])
  /\ (forall cigar,
         lengths_numeric (cigar_tokens cigar) = true ->
         exists m,
           parse_cigar cigar = inr (array_of m) /\ well_formed m
           /\ (within_int64 (List.last (cigar_columns cigar) (0, 0)) ->
               parse_cigar cigar = inr (int64_array m)))
  /\ (forall cigar,
         lengths_numeric (cigar_tokens cigar) = false ->
         parse_cigar cigar = inl ValueError)
  /\ (forall items,
         short_lengths items ->
         within_int64 (sum_M_I items, sum_M_D items) ->
         lengths_numeric (cigar_tokens (render items)) = true
         /\ within_int64 (List.last (cigar_columns (render items)) (0, 0)))
  /\ parse_cigar "" = inr (int64_array (Matrix [0] [0])).
Proof.
  split.
  { intros btop. exists (btop_lists btop).
    split; [reflexivity|].
    split; [apply btop_lists_well_formed | apply parse_btop_int64]. }
  split; [vm_compute; reflexivity|].
  split.
  { intros cigar Hnum. eexists.
    split; [now apply parse_cigar_numeric|].
    split; [apply cigar_lists_well_formed | now apply parse_cigar_int64]. }
  split; [exact parse_cigar_not_numeric|].
  split; [|vm_compute; reflexivity].
  intros items Hs Hfit. split; [now apply lengths_numeric_render|].
  now rewrite cigar_columns_render, (trace_render items Hs (0, 0)).
Qed.

(** The theorem at "3M1X2D", which is decoded, and at "3MD4", which is not. *)
Lemma C7_cigar_3M1X2D_well_formed :
  (exists m, parse_cigar "3M1X2D" = inr (int64_array m) /\ well_formed m)
  /\ parse_cigar "3MD4" = inl ValueError.
Proof.
  split.
  - destruct (proj1 (proj2 (proj2 C7_decoders_well_formed)) "3M1X2D" eq_refl)
      as (m & _ & Hwf & Hm).
    exists m. split; [|exact Hwf].
    apply Hm. vm_compute. split; reflexivity.
  - apply (proj1 (proj2 (proj2 (proj2 C7_decoders_well_formed))) "3MD4"). reflexivity.
Defined.

(** C10, as stated, fails: [parse_cigar] does raise on malformed input;
    "M4" gives ValueError. *)
Lemma C10_cigar_M4_raises : parse_cigar "M4" = inl ValueError.
Proof. vm_compute. reflexivity. Qed.

(** C10, amended: a character that is neither a digit nor one of M, I, D
    yields no token, so the tokens on either side of it are those of the
    two parts; a last token without a partner takes no part in the pairs;
    "4M3" and "4M" decode to the same matrix.  [parse_cigar] raises
    ValueError exactly when [int] refuses a token in a length position,
    which is then one of the letters M, I, D or a run of more than 4300
    digits, and returns an array otherwise. *)
Theorem C10_cigar_malformed_input :
  (forall s c rest,
      is_digit c = false -> c <> "M"%char -> c <> "D"%char -> c <> "I"%char ->
      cigar_tokens (s ++ String c rest) = cigar_tokens s ++ cigar_tokens rest)
  /\ (forall tokens t,
         Nat.even (List.length tokens) = true ->
         cigar_pairs (tokens ++ [t]) = cigar_pairs tokens)
  /\ parse_cigar "4M3" = parse_cigar "4M"
  /\ (forall cigar,
         if lengths_numeric (cigar_tokens cigar)
         then exists a, parse_cigar cigar = inr a
         else parse_cigar cigar = inl ValueError)
  /\ (forall cigar,
         lengths_numeric (cigar_tokens cigar) = false
         <-> exists length operation,
               In (length, operation) (cigar_pairs (cigar_tokens cigar))
               /\ (length = "M" \/ length = "D" \/ length = "I"
                   \/ 4300 < Z.of_nat (String.length length)))
  /\ (forall cigar, Forall is_cigar_token (cigar_tokens cigar)).
Proof.
  split; [exact cigar_tokens_skip|].
  split; [exact cigar_pairs_unpaired|].
  split; [vm_compute; reflexivity|].
  split; [|split; [|exact cigar_tokens_ok]].
  - intros cigar. destruct (lengths_numeric (cigar_tokens cigar)) eqn:Hnum.
    + eexists. apply parse_cigar_numeric, Hnum.
    + apply parse_cigar_not_numeric, Hnum.
  - intros cigar. apply lengths_not_numeric, cigar_tokens_ok.
Qed.

(** The theorem at a blank between two items and at a last lone token. *)
Lemma C10_cigar_skips_and_drops :
  cigar_tokens "4M 3=2I" = cigar_tokens "4M" ++ cigar_tokens "3=2I"
  /\ cigar_pairs (["4"; "M"] ++ ["3"]) = cigar_pairs ["4"; "M"].
Proof.
  split.
  - apply (proj1 C10_cigar_malformed_input "4M" " "%char "3=2I");
      [reflexivity | | |]; discriminate.
  - apply (proj1 (proj2 C10_cigar_malformed_input) ["4"; "M"] "3"). reflexivity.
Defined.

(** * Properties of the row assembler *)

Lemma bind_inr {A B} (m : result A) (k : A -> result B) b :
  bind m k = inr b -> exists a, m = inr a /\ k a = inr b.
Proof. destruct m as [e|a]; simpl; [discriminate | eauto]. Qed.

Lemma rstrip_blank x b : is_blank b = true -> rstrip (x ++ b) = rstrip x.
Proof.
  intros H. induction x as [|c x IH].
  - cbn [String.append rstrip]. induction b as [|c b IH]; [reflexivity|].
    cbn [is_blank all_chars] in H. apply andb_true_iff in H as [Hc H].
    cbn [rstrip]. now rewrite (IH H), Hc.
  - cbn [String.append rstrip]. now rewrite IH.
Qed.

Section RebasingProperties.

Context {numpy : Numpy}.

Lemma rebase_query_int64 qs qe m :
  fits_int64 qs = true ->
  rebase_query qs qe (int64_array m) = inr (int64_array (query_rebased qs qe m)).
Proof.
  intros Hfit. unfold rebase_query, apply_operation, query_rebased.
  destruct (qs <? qe); cbn [operand]; rewrite Hfit; cbn [ret int64_operation];
    [reflexivity|].
  unfold ret. do 3 f_equal. apply map_ext. intros x. apply wrap_int64_add_1.
Qed.

Lemma rebase_target_int64 ts m :
  fits_int64 ts = true ->
  rebase_target ts (int64_array m) = inr (int64_array (target_rebased ts m)).
Proof.
  intros Hfit. unfold rebase_target, apply_operation, target_rebased.
  cbn [operand]. now rewrite Hfit.
Qed.

End RebasingProperties.

Lemma map_wrap_fits (f : Z -> Z) (l : list Z) :
  Forall (fun x => fits_int64 (f x) = true) l ->
  map (fun x => wrap_int64 (f x)) l = map f l.
Proof.
  induction 1 as [|x l Hx Hl IH]; [reflexivity|].
  cbn [map]. now rewrite IH, (wrap_int64_fits _ Hx).
Qed.

Section AssemblerProperties.

Context {float_value : Type}.
Variable float : string -> option float_value.
Context {numpy : Numpy}.
Variable self : AlignmentIterator.

Lemma read_next_alignment_eq line :
  _read_next_alignment float self line
  = (_ <- assert (count_matches self line) ;;
     v <- row_locals float self line ;; assemble self v).
Proof. reflexivity. Qed.

Lemma read_next_alignment_counted line v :
  count_matches self line = true -> row_locals float self line = inr v ->
  _read_next_alignment float self line = assemble self v.
Proof.
  intros Hc Hv. rewrite read_next_alignment_eq, Hc, Hv. reflexivity.
Qed.

Lemma read_next_alignment_inr line aln :
  _read_next_alignment float self line = inr aln ->
  count_matches self line = true
  /\ exists v, row_locals float self line = inr v /\ assemble self v = inr aln.
Proof.
  rewrite read_next_alignment_eq. intros H.
  destruct (count_matches self line); [|discriminate]. split; [reflexivity|].
  cbn [assert bind ret] in H. now apply bind_inr in H.
Qed.

Lemma resolve_coordinates_some (v : locals float_value) c qs qe :
  coordinates v = Some c -> query_start v = Some qs -> query_end v = Some qe ->
  resolve_coordinates v
  = (c' <- rebase_query qs qe c ;; ret (set_coordinates v (Some c'))).
Proof. intros Hc Hs He. unfold resolve_coordinates. now rewrite Hc, Hs, He. Qed.

Lemma resolve_coordinates_inr (v v' : locals float_value) c :
  coordinates v = Some c -> resolve_coordinates v = inr v' ->
  exists qs qe c',
    query_start v = Some qs /\ query_end v = Some qe
    /\ rebase_query qs qe c = inr c'
    /\ v' = set_coordinates v (Some c').
Proof.
  intros Hc. unfold resolve_coordinates. rewrite Hc.
  destruct (query_start v) as [qs|]; [|discriminate].
  destruct (query_end v) as [qe|]; [|discriminate].
  intros H. apply bind_inr in H as (c' & Hc' & H). inversion H. eauto 7.
Qed.

Lemma resolve_coordinates_frame (v v' : locals float_value) :
  resolve_coordinates v = inr v' ->
  same_target_side v v'
  /\ query_start v' = query_start v /\ query_end v' = query_end v
  /\ query_sequence v' = query_sequence v /\ query_size v' = query_size v.
Proof.
  unfold resolve_coordinates, same_target_side.
  destruct (coordinates v).
  - destruct (query_start v) eqn:Hs, (query_end v) eqn:He; try discriminate.
    intros H. apply bind_inr in H as (c' & _ & H).
    inversion H; subst; cbn; rewrite ?Hs, ?He; auto 10.
  - destruct (alignment_length v); cbn; destruct (query_start v) eqn:Hs; cbn;
      destruct (query_end v) eqn:He; cbn; intros H; inversion H; subst; cbn;
      rewrite ?Hs, ?He; auto 10.
Qed.

(** Within the 64-bit integers the query rebasing returns whenever both
    query offsets are there. *)
Lemma resolve_coordinates_within (v : locals float_value) :
  rebasing_within_int64 v ->
  (coordinates v = None \/ (query_start v <> None /\ query_end v <> None)) ->
  exists v1, resolve_coordinates v = inr v1.
Proof.
  unfold rebasing_within_int64, resolve_coordinates. intros Hw Hc.
  destruct (coordinates v) as [[m|m]|]; [|contradiction|eauto].
  destruct Hc as [Hc | [Hs He]]; [discriminate|].
  destruct (query_start v) as [qs|]; [|congruence].
  destruct (query_end v) as [qe|]; [|congruence].
  rewrite (rebase_query_int64 qs qe m (Hw qs eq_refl)). cbn [bind ret]. eauto.
Qed.

Lemma resolve_query_frame (v v' : locals float_value) q :
  resolve_query self v = inr (q, v') ->
  same_target_side v v' /\ coordinates v' = coordinates v.
Proof.
  unfold resolve_query, same_target_side.
  destruct (query_sequence v) as [s|].
  - destruct (String.eqb (Program self) "TBLASTN").
    + destruct (query_start v); [|discriminate].
      destruct (query_end v); [|discriminate].
      destruct (len (remove_dashes s) =? z0 - z); [|discriminate].
      intros H; inversion H; subst; auto.
    + destruct (String.eqb (Program self) "TBLASTX"); [|discriminate].
      intros H; inversion H; subst; cbn; auto.
  - destruct (query_size v); intros H; inversion H; subst; auto.
Qed.

Lemma resolve_target_coordinates (v v' : locals float_value) t :
  resolve_target self v = inr (t, v') ->
  (translated self = true /\ coordinates v' = coordinates v)
  \/ (translated self = false
      /\ match coordinates v with
         | None => coordinates v' = None
         | Some c => exists ts c', target_start v = Some ts
                                   /\ rebase_target ts c = inr c'
                                   /\ coordinates v' = Some c'
         end).
Proof.
  unfold resolve_target. fold (translated self). intros H.
  destruct (translated self).
  - left. split; [reflexivity|].
    destruct (target_sequence _); inversion H; subst; reflexivity.
  - right. split; [reflexivity|].
    destruct (coordinates v) as [c|] eqn:Hc.
    + destruct (target_start v) as [ts|] eqn:Hs; [|discriminate].
      destruct (rebase_target ts c) as [e|c'] eqn:Hr; [discriminate|].
      cbn [bind ret] in H. exists ts, c'. split; [reflexivity|].
      split; [exact Hr|].
      cbn [target_sequence target_end target_start set_coordinates] in H.
      rewrite Hs in H.
      destruct (target_sequence v).
      * destruct (target_end v); [|discriminate].
        destruct (len (remove_dashes s) =? z - ts); [|discriminate].
        inversion H; subst; reflexivity.
      * destruct (target_end v); inversion H; subst; reflexivity.
    + cbn [bind ret] in H.
      destruct (target_sequence v).
      * destruct (target_start v); [|discriminate].
        destruct (target_end v); [|discriminate].
        destruct (len (remove_dashes s) =? z0 - z); [|discriminate].
        inversion H; subst; assumption.
      * destruct (target_end v); inversion H; subst; assumption.
Qed.

(** The coordinates of the alignment, from those the loop has left. *)
Lemma assemble_coordinates (v : locals float_value) c aln :
  coordinates v = Some c -> assemble self v = inr aln ->
  exists qs qe c1,
    query_start v = Some qs /\ query_end v = Some qe
    /\ rebase_query qs qe c = inr c1
    /\ ((translated self = true /\ aln_coordinates aln = Some c1)
        \/ (translated self = false
            /\ exists ts c2,
                 target_start v = Some ts
                 /\ rebase_target ts c1 = inr c2
                 /\ aln_coordinates aln = Some c2)).
Proof.
  intros Hc H. unfold assemble in H.
  apply bind_inr in H as (v1 & H1 & H).
  apply bind_inr in H as ([q v2] & H2 & H).
  apply bind_inr in H as ([t v3] & H3 & H).
  inversion H; subst; clear H. cbn [aln_coordinates].
  destruct (resolve_coordinates_inr v v1 c Hc H1)
    as (qs & qe & c1 & Hs & He & Hr & ->).
  exists qs, qe, c1. repeat split; try assumption.
  destruct (resolve_query_frame _ _ _ H2) as [(Hts & _ & _) Hc2].
  destruct (resolve_target_coordinates _ _ _ H3) as [[Ht Hc3] | [Ht Hc3]].
  - left. split; [assumption|]. now rewrite Hc3, Hc2.
  - right. split; [assumption|]. rewrite Hc2 in Hc3.
    cbn [coordinates set_coordinates] in Hc3.
    destruct Hc3 as (ts & c2 & Hs3 & Hr3 & Hc3). exists ts, c2.
    split; [|split; assumption]. now rewrite <- Hs3, Hts.
Qed.

Lemma read_coordinates line v c aln :
  row_locals float self line = inr v -> coordinates v = Some c ->
  _read_next_alignment float self line = inr aln ->
  exists qs qe c1,
    query_start v = Some qs /\ query_end v = Some qe
    /\ rebase_query qs qe c = inr c1
    /\ ((translated self = true /\ aln_coordinates aln = Some c1)
        \/ (translated self = false
            /\ exists ts c2,
                 target_start v = Some ts
                 /\ rebase_target ts c1 = inr c2
                 /\ aln_coordinates aln = Some c2)).
Proof.
  intros Hv Hc Ha.
  apply read_next_alignment_inr in Ha as (_ & v' & Hv' & Ha).
  rewrite Hv in Hv'. inversion Hv'; subst v'.
  eapply assemble_coordinates; eassumption.
Qed.

(** A row without sequence text, with coordinates and both query offsets,
    reaches the end once its rebasings have returned; the target rebasing
    is made unless the target is translated. *)
Lemma assemble_no_sequences (v : locals float_value) c qs qe c1 :
  coordinates v = Some c -> query_start v = Some qs -> query_end v = Some qe ->
  query_sequence v = None -> target_sequence v = None ->
  rebase_query qs qe c = inr c1 ->
  (translated self = true ->
   exists aln, assemble self v = inr aln /\ aln_coordinates aln = Some c1)
  /\ (translated self = false ->
      forall ts c2, target_start v = Some ts -> rebase_target ts c1 = inr c2 ->
      exists aln, assemble self v = inr aln /\ aln_coordinates aln = Some c2).
Proof.
  intros Hc Hs He Hq Ht Hr. unfold assemble.
  rewrite (resolve_coordinates_some v c qs qe Hc Hs He), Hr. cbn [bind ret].
  unfold resolve_query. cbn [query_sequence set_coordinates query_size].
  rewrite Hq. unfold resolve_target. fold (translated self).
  split.
  - intros Htr. rewrite Htr.
    destruct (query_size v); cbn [bind ret]; cbn; rewrite Ht; cbn;
      eexists; split; reflexivity.
  - intros Htr ts c2 Hts Hr2. rewrite Htr.
    destruct (query_size v); cbn [bind ret]; cbn; rewrite Hts, Hr2; cbn;
      rewrite Ht; destruct (target_end v); cbn; eexists; split; reflexivity.
Qed.

(** The length check on the query sequence, made for TBLASTN. *)
Lemma assemble_query_length (v : locals float_value) s qs qe :
  Program self = "TBLASTN" ->
  rebasing_within_int64 v ->
  query_sequence v = Some s -> query_start v = Some qs -> query_end v = Some qe ->
  len (remove_dashes s) <> qe - qs ->
  assemble self v = inl AssertionError.
Proof.
  intros Hp Hw Hq Hs He Hlen. unfold assemble.
  destruct (resolve_coordinates_within v Hw) as [v1 H1].
  { right. rewrite Hs, He. split; discriminate. }
  rewrite H1. cbn [bind].
  destruct (resolve_coordinates_frame v v1 H1) as (_ & Hs1 & He1 & Hq1 & _).
  unfold resolve_query. rewrite Hq1, Hq, Hp, Hs1, Hs, He1, He.
  cbn [String.eqb Ascii.eqb Bool.eqb].
  apply Z.eqb_neq in Hlen. rewrite Hlen. reflexivity.
Qed.

(** The length check on the target sequence, made unless the target is
    translated. *)
Lemma assemble_target_length (v : locals float_value) s ts te :
  translated self = false ->
  target_sequence v = Some s -> target_start v = Some ts -> target_end v = Some te ->
  len (remove_dashes s) <> te - ts ->
  exists e, assemble self v = inl e.
Proof.
  intros Hp Hq Hs He Hlen. unfold assemble.
  destruct (resolve_coordinates v) as [e|v1] eqn:H1; [now exists e|].
  cbn [bind].
  destruct (resolve_coordinates_frame v v1 H1) as ((Hs1 & He1 & Hq1) & _).
  destruct (resolve_query self v1) as [e|[q v2]] eqn:H2; [now exists e|].
  cbn [bind].
  destruct (resolve_query_frame v1 v2 q H2) as ((Hs2 & He2 & Hq2) & _).
  unfold resolve_target. fold (translated self). rewrite Hp.
  assert (Hstep : forall w : locals float_value,
             target_sequence w = Some s -> target_start w = Some ts ->
             target_end w = Some te ->
             exists e,
               match target_sequence w with
               | None =>
                   match target_end w with
                   | None => ret (None, w)
                   | Some te => ret (Some (SeqUndefined te), w)
                   end
               | Some target_sequence =>
                   match target_start w, target_end w with
                   | Some ts, Some te =>
                       _ <- assert (len (remove_dashes target_sequence) =? te - ts) ;;
                       ret (Some (SeqPartial ts (remove_dashes target_sequence) (Some te)), w)
                   | _, _ => raise UnboundLocalError
                   end
               end = inl e).
  { intros w Hw1 Hw2 Hw3. rewrite Hw1, Hw2, Hw3.
    apply Z.eqb_neq in Hlen. rewrite Hlen. now exists AssertionError. }
  assert (Hs' : target_start v2 = Some ts) by congruence.
  assert (He' : target_end v2 = Some te) by congruence.
  assert (Hq' : target_sequence v2 = Some s) by congruence.
  destruct (coordinates v2) as [c|].
  - rewrite Hs'. destruct (rebase_target ts c) as [e|c2]; [now exists e|].
    cbn [bind ret].
    destruct (Hstep (set_coordinates v2 (Some c2))) as [e Hee]; auto.
    exists e. now rewrite Hee.
  - cbn [bind ret]. destruct (Hstep v2) as [e Hee]; auto.
    exists e. now rewrite Hee.
Qed.

(** With program TBLASTX no length of a sequence is checked. *)
Lemma assemble_tblastx (v : locals float_value) :
  Program self = "TBLASTX" ->
  rebasing_within_int64 v ->
  (coordinates v = None \/ (query_start v <> None /\ query_end v <> None)) ->
  exists aln, assemble self v = inr aln.
Proof.
  intros Hp Hw Hc. unfold assemble.
  destruct (resolve_coordinates_within v Hw Hc) as [v1 ->]. cbn [bind].
  unfold resolve_query, resolve_target. rewrite Hp.
  cbn [String.eqb Ascii.eqb Bool.eqb orb].
  destruct (query_sequence v1); [|destruct (query_size v1)];
    cbn [bind ret];
    match goal with
    | |- context [target_sequence ?w] => destruct (target_sequence w)
    end; cbn [bind ret]; eauto.
Qed.

End AssemblerProperties.

(** * The claims about the row assembler *)

(** The FASTA row 3, 6, 11, 14, 4M has both rows of its matrix moved,
    whatever [float] and numpy beyond the 64-bit integers are. *)
Lemma fasta_row_both_rows {F : Type} (float : string -> option F)
    {numpy : Numpy} :
  exists v aln,
    row_locals float fasta_session (join_tab ["3"; "6"; "11"; "14"; "4M"]) = inr v
    /\ coordinates v = Some (int64_array (Matrix [0; 4] [0; 4]))
    /\ _read_next_alignment float fasta_session
         (join_tab ["3"; "6"; "11"; "14"; "4M"]) = inr aln
    /\ aln_coordinates aln = Some (int64_array (Matrix [10; 14] [2; 6])).
Proof.
  do 2 eexists.
  split; [vm_compute; reflexivity|].
  split; [vm_compute; reflexivity|].
  split; vm_compute; reflexivity.
Qed.

(** C3, as stated, fails: for the FASTA row 3, 6, 11, 14, 4M the decoded
    matrix [[0,4],[0,4]] has both its rows rebased, the query row by 2 and
    the target row by 10. *)
Lemma C3_fasta_row_rebased_twice :
  exists v c aln m,
    row_locals float_of_integer fasta_session
               (join_tab ["3"; "6"; "11"; "14"; "4M"]) = inr v
    /\ coordinates v = Some (int64_array c)
    /\ _read_next_alignment float_of_integer fasta_session
         (join_tab ["3"; "6"; "11"; "14"; "4M"]) = inr aln
    /\ aln_coordinates aln = Some (int64_array m)
    /\ target_row m <> target_row c
    /\ query_row m <> query_row c.
Proof.
  destruct (fasta_row_both_rows float_of_integer)
    as (v & aln & Hv & Hc & Ha & Hm).
  exists v, (Matrix [0; 4] [0; 4]), aln, (Matrix [10; 14] [2; 6]).
  repeat split; try assumption; discriminate.
Qed.

(** C3, amended: for every row with a trace-back field that reaches the
    end of the assembler, the query-row rebasing is applied to the decoded
    array, and the target-row rebasing is applied after it exactly when the
    program is neither TBLASTN nor TBLASTX.  A row with an array of 64-bit
    integers, both query offsets, a query start in the 64-bit range and no
    sequence text does reach the end so, given its value count matches and,
    for the other programs, that it has a target start in that range. *)
Theorem C3_rebasing_by_program :
  (forall (F : Type) (float : string -> option F) (numpy : Numpy)
          self line v c aln,
      row_locals float self line = inr v ->
      coordinates v = Some c ->
      _read_next_alignment float self line = inr aln ->
      exists qs qe c1,
        query_start v = Some qs /\ query_end v = Some qe
        /\ rebase_query qs qe c = inr c1
        /\ ((translated self = true /\ aln_coordinates aln = Some c1)
            \/ (translated self = false
                /\ exists ts c2,
                     target_start v = Some ts
                     /\ rebase_target ts c1 = inr c2
                     /\ aln_coordinates aln = Some c2)))
  /\ (forall (F : Type) (float : string -> option F) (numpy : Numpy)
             self line v m qs qe,
         count_matches self line = true ->
         row_locals float self line = inr v ->
         coordinates v = Some (int64_array m) ->
         query_start v = Some qs -> query_end v = Some qe ->
         fits_int64 qs = true ->
         query_sequence v = None -> target_sequence v = None ->
         (translated self = true ->
          exists aln,
            _read_next_alignment float self line = inr aln
            /\ aln_coordinates aln
               = Some (int64_array (query_rebased qs qe m)))
         /\ (translated self = false ->
             forall ts, target_start v = Some ts -> fits_int64 ts = true ->
             exists aln,
               _read_next_alignment float self line = inr aln
               /\ aln_coordinates aln
                  = Some (int64_array
                            (target_rebased ts (query_rebased qs qe m))))).
Proof.
  split.
  - intros F float numpy self line v c aln. apply read_coordinates.
  - intros F float numpy self line v m qs qe Hn Hv Hc Hs He Hfit Hq Ht.
    rewrite (read_next_alignment_counted float self line v Hn Hv).
    destruct (assemble_no_sequences self v _ qs qe _ Hc Hs He Hq Ht
                (rebase_query_int64 qs qe m Hfit)) as [H1 H2].
    split; [exact H1|].
    intros Htr ts Hts Hfts. apply (H2 Htr ts); [assumption|].
    now apply rebase_target_int64.
Qed.

(** The theorem at a TBLASTN row with a BTOP field and at a FASTA row with
    an operation code. *)
Lemma C3_rebasing_rows :
  (exists aln,
      _read_next_alignment float_of_integer btop_session
        (join_tab ["3"; "6"; "4"]) = inr aln
      /\ aln_coordinates aln
         = Some (int64_array (query_rebased 2 6 (Matrix [0; 4] [0; 4]))))
  /\ (exists aln,
         _read_next_alignment float_of_integer fasta_session
           (join_tab ["3"; "6"; "11"; "14"; "4M"]) = inr aln
         /\ aln_coordinates aln
            = Some (int64_array
                      (target_rebased 10
                         (query_rebased 2 6 (Matrix [0; 4] [0; 4]))))).
Proof.
  split.
  - edestruct (proj2 C3_rebasing_by_program Z float_of_integer numpy_refusing
                 btop_session (join_tab ["3"; "6"; "4"])) as [H _];
      [vm_compute; reflexivity ..|].
    apply H. reflexivity.
  - edestruct (proj2 C3_rebasing_by_program Z float_of_integer numpy_refusing
                 fasta_session (join_tab ["3"; "6"; "11"; "14"; "4M"]))
      as [_ H]; [vm_compute; reflexivity ..|].
    apply H; reflexivity.
Defined.

(** C6, as stated, fails: the array is one of 64-bit integers and the sum
    wraps round.  For the TBLASTN row 3, 6 with the BTOP field
    9223372036854775807 the query row [0, 2^63 - 1] becomes
    [2, -2^63 + 1]: its second value is not increased by query_start = 2.
    Every entry and the offset are in the 64-bit range, so nothing here
    rests on what numpy does beyond it. *)
Lemma C6_query_row_wraps :
  exists v c aln m,
    row_locals float_of_integer btop_session
               (join_tab ["3"; "6"; "9223372036854775807"]) = inr v
    /\ coordinates v = Some (int64_array c)
    /\ query_start v = Some 2 /\ query_end v = Some 6
    /\ _read_next_alignment float_of_integer btop_session
         (join_tab ["3"; "6"; "9223372036854775807"]) = inr aln
    /\ aln_coordinates aln = Some (int64_array m)
    /\ query_row c = [0; 9223372036854775807]
    /\ query_row m = [2; -9223372036854775807]
    /\ query_row m <> map (fun x => x + 2) (query_row c).
Proof.
  exists (Locals None None None None None (Some 2) (Some 6) None None None None
                 None
                 (Some (int64_array (Matrix [0; 9223372036854775807]
                                            [0; 9223372036854775807])))
                 None [] [] []).
  exists (Matrix [0; 9223372036854775807] [0; 9223372036854775807]).
  eexists.
  exists (Matrix [0; 9223372036854775807] [2; -9223372036854775807]).
  split; [vm_compute; reflexivity|].
  split; [reflexivity|].
  split; [reflexivity|].
  split; [reflexivity|].
  split; [vm_compute; reflexivity|].
  split; [reflexivity|].
  split; [reflexivity|].
  split; [reflexivity|].
  vm_compute. discriminate.
Qed.

(** C6, amended: on an array of 64-bit integers and with a query start in
    their range, the query rebasing replaces every value v of the query row
    by v + query_start when query_start < query_end, and by
    query_start - v + 1 otherwise, wrapped round into the 64-bit range; it
    is that number itself whenever it lies in the range.  The target row is
    left as it is.  This is what the alignment of every row with a
    trace-back field carries in its query row, when the row reaches the end
    of the assembler with an array of 64-bit integers and offsets in their
    range.  With query_start = 100 and query_end = 80 the value 10 becomes
    91. *)
Theorem C6_query_rebasing :
  (forall (numpy : Numpy) qs qe m,
      fits_int64 qs = true ->
      rebase_query qs qe (int64_array m)
      = inr (int64_array (query_rebased qs qe m)))
  /\ (forall qs qe m,
         Forall (fun x => fits_int64 (if qs <? qe then x + qs else qs - x + 1)
                          = true) (query_row m) ->
         query_rebased qs qe m
         = Matrix (target_row m)
                  (map (fun x => if qs <? qe then x + qs else qs - x + 1)
                       (query_row m)))
  /\ (forall (F : Type) (float : string -> option F) (numpy : Numpy)
             self line v m aln,
         row_locals float self line = inr v ->
         coordinates v = Some (int64_array m) ->
         (forall qs, query_start v = Some qs -> fits_int64 qs = true) ->
         (forall ts, target_start v = Some ts -> fits_int64 ts = true) ->
         _read_next_alignment float self line = inr aln ->
         exists qs qe m',
           query_start v = Some qs /\ query_end v = Some qe
           /\ aln_coordinates aln = Some (int64_array m')
           /\ query_row m' = query_row (query_rebased qs qe m))
  /\ query_row (query_rebased 100 80 (Matrix [0; 10] [0; 10])) = [101; 91].
Proof.
  split; [intros numpy qs qe m; apply rebase_query_int64|].
  split.
  { intros qs qe m H. unfold query_rebased. f_equal.
    now apply (map_wrap_fits
                 (fun x => if qs <? qe then x + qs else qs - x + 1)). }
  split; [|reflexivity].
  intros F float numpy self line v m aln Hv Hc Hqs Hts Ha.
  destruct (read_coordinates float self line v _ aln Hv Hc Ha)
    as (qs & qe & c1 & Hs & He & Hr & H).
  rewrite (rebase_query_int64 qs qe m (Hqs qs Hs)) in Hr.
  inversion Hr; subst c1; clear Hr.
  exists qs, qe.
  destruct H as [[_ Hm] | [_ (ts & c2 & Ht & Hr2 & Hm)]].
  - exists (query_rebased qs qe m). auto.
  - rewrite (rebase_target_int64 ts _ (Hts ts Ht)) in Hr2.
    inversion Hr2; subst c2.
    exists (target_rebased ts (query_rebased qs qe m)). auto.
Qed.

(** The theorem at the TBLASTN row 101, 80 with the BTOP field 10. *)
Lemma C6_reverse_strand_row :
  exists v aln m',
    row_locals float_of_integer btop_session (join_tab ["101"; "80"; "10"]) = inr v
    /\ _read_next_alignment float_of_integer btop_session
         (join_tab ["101"; "80"; "10"]) = inr aln
    /\ query_start v = Some 100 /\ query_end v = Some 80
    /\ aln_coordinates aln = Some (int64_array m')
    /\ query_row m' = query_row (query_rebased 100 80 (Matrix [0; 10] [0; 10]))
    /\ query_row m' = [101; 91].
Proof.
  edestruct (proj1 (proj2 (proj2 C6_query_rebasing)) Z float_of_integer
               numpy_refusing btop_session (join_tab ["101"; "80"; "10"]))
    as (qs & qe & m' & Hs & He & Hm & Hq);
    [vm_compute; reflexivity | vm_compute; reflexivity | | |
     vm_compute; reflexivity |].
  - intros qs H. vm_compute in H. inversion H. reflexivity.
  - intros ts H. vm_compute in H. discriminate.
  - vm_compute in Hs, He. inversion Hs; inversion He; subst qs qe.
    do 2 eexists. exists m'.
    split; [vm_compute; reflexivity|].
    split; [vm_compute; reflexivity|].
    split; [reflexivity|]. split; [reflexivity|].
    split; [exact Hm|]. split; [exact Hq|].
    rewrite Hq. reflexivity.
Defined.

(** C8, as stated, fails: with program TBLASTX the row 11, 14, AC-G (query
    start 10, query end 14, three residues once the gap is removed) passes
    through the assembler, which compares no length and reaches the call
    [Alignment(records, None)] of line 298. *)
Lemma C8_tblastx_row_accepted :
  len (remove_dashes "AC-G") <> 14 - 10
  /\ _read_next_alignment float_of_integer tblastx_session
       (join_tab ["11"; "14"; "AC-G"])
     = inr (MkAlignment
              [MkSeqRecord None None None
                 [("start", VNone); ("end", VNone); ("length", VNone)];
               MkSeqRecord (Some (SeqDefined "ACG")) None None
                 [("start", VInt 10); ("end", VInt 14)]]
              None [] None).
Proof. split; [discriminate | vm_compute; reflexivity]. Qed.

(** C8, amended: the length of a sequence without its gap characters is
    compared with end - start in two places.  With program TBLASTN, a row
    with a query sequence and both query offsets whose lengths differ
    fails with AssertionError, provided the query rebasing before it stays
    with the 64-bit integers.  With a program other than TBLASTN and
    TBLASTX, a row with a target sequence and both target offsets whose
    lengths differ fails.  In both cases the call of [Alignment] is not
    reached.  With program TBLASTX no length is compared: every row whose
    fields were read, and which has no trace-back field or has both query
    offsets and a query rebasing within the 64-bit integers, reaches the
    call of [Alignment] of line 298. *)
Theorem C8_length_checks :
  (forall (F : Type) (float : string -> option F) (numpy : Numpy)
          self line v s qs qe,
      Program self = "TBLASTN" ->
      row_locals float self line = inr v ->
      rebasing_within_int64 v ->
      query_sequence v = Some s ->
      query_start v = Some qs -> query_end v = Some qe ->
      len (remove_dashes s) <> qe - qs ->
      _read_next_alignment float self line = inl AssertionError)
  /\ (forall (F : Type) (float : string -> option F) (numpy : Numpy)
             self line v s ts te,
         translated self = false ->
         row_locals float self line = inr v ->
         target_sequence v = Some s ->
         target_start v = Some ts -> target_end v = Some te ->
         len (remove_dashes s) <> te - ts ->
         exists e, _read_next_alignment float self line = inl e)
  /\ (forall (F : Type) (float : string -> option F) (numpy : Numpy)
             self line v,
         Program self = "TBLASTX" ->
         count_matches self line = true ->
         row_locals float self line = inr v ->
         rebasing_within_int64 v ->
         (coordinates v = None \/ (query_start v <> None /\ query_end v <> None)) ->
         exists aln, _read_next_alignment float self line = inr aln).
Proof.
  split; [|split].
  - intros F float numpy self line v s qs qe Hp Hv Hw Hq Hs He Hlen.
    rewrite read_next_alignment_eq.
    destruct (count_matches self line); [|reflexivity].
    rewrite Hv. cbn [assert bind ret].
    eapply assemble_query_length; eassumption.
  - intros F float numpy self line v s ts te Hp Hv Hq Hs He Hlen.
    rewrite read_next_alignment_eq.
    destruct (count_matches self line); [|now exists AssertionError].
    rewrite Hv. cbn [assert bind ret].
    eapply assemble_target_length; eassumption.
  - intros F float numpy self line v Hp Hn Hv Hw Hc.
    rewrite (read_next_alignment_counted float self line v Hn Hv).
    now apply assemble_tblastx.
Qed.

(** The theorem at the TBLASTN row 11, 14, AC-G. *)
Lemma C8_tblastn_row_rejected :
  _read_next_alignment float_of_integer tblastn_session
    (join_tab ["11"; "14"; "AC-G"]) = inl AssertionError.
Proof.
  eapply (proj1 C8_length_checks Z float_of_integer numpy_refusing
            tblastn_session (join_tab ["11"; "14"; "AC-G"]));
    [vm_compute; reflexivity | vm_compute; reflexivity | exact I |
     vm_compute; reflexivity .. |].
  vm_compute. discriminate.
Defined.

(** C9, as stated, fails: the values are counted once the white space at
    the end of the line is gone, and a tab is white space.  The row of the
    three values 3, 6 and the empty text, read under the two field names
    "q. start" and "q. end", has its fields dispatched and reaches the call
    of [Alignment]. *)
Lemma C9_trailing_tab_row_accepted :
  List.length (split_tab (join_tab ["3"; "6"; ""])) = 3%nat
  /\ List.length (_fields offsets_session) = 2%nat
  /\ (exists v,
         row_locals float_of_integer offsets_session (join_tab ["3"; "6"; ""])
         = inr v
         /\ query_start v = Some 2 /\ query_end v = Some 6)
  /\ exists aln,
       _read_next_alignment float_of_integer offsets_session
         (join_tab ["3"; "6"; ""]) = inr aln.
Proof.
  split; [reflexivity|]. split; [reflexivity|].
  split; eexists; [split; [vm_compute; reflexivity | split; reflexivity]|].
  vm_compute. reflexivity.
Qed.

(** C9, amended: the values of a row are counted after the white space at
    the end of its line has been removed, tabs included.  A row that then
    has not as many tab-separated values as there are declared field names
    fails with AssertionError, whatever the field names and the values are:
    no field is dispatched and the call of [Alignment] is not reached.
    White space added at the end of a line changes nothing. *)
Theorem C9_value_count_mismatch :
  (forall (F : Type) (float : string -> option F) (numpy : Numpy) self line,
      List.length (split_tab (rstrip line)) <> List.length (_fields self) ->
      _read_next_alignment float self line = inl AssertionError)
  /\ (forall (F : Type) (float : string -> option F) (numpy : Numpy)
             self line blanks,
         is_blank blanks = true ->
         _read_next_alignment float self (line ++ blanks)
         = _read_next_alignment float self line).
Proof.
  split.
  - intros F float numpy self line Hne. rewrite read_next_alignment_eq.
    unfold count_matches. apply Nat.eqb_neq in Hne. now rewrite Hne.
  - intros F float numpy self line blanks Hb.
    unfold _read_next_alignment. now rewrite (rstrip_blank line blanks Hb).
Qed.

(** The theorem at a row of two values under three field names, and at a
    row with a tab and a blank after its values. *)
Lemma C9_short_row_rejected :
  (List.length (split_tab (rstrip (join_tab ["11"; "14"])))
     <> List.length (_fields tblastn_session)
   /\ _read_next_alignment float_of_integer tblastn_session (join_tab ["11"; "14"])
      = inl AssertionError)
  /\ _read_next_alignment float_of_integer offsets_session
       (join_tab ["3"; "6"] ++ join_tab [""; " "])
     = _read_next_alignment float_of_integer offsets_session
         (join_tab ["3"; "6"]).
Proof.
  split; [split; [vm_compute; discriminate|]|].
  - apply (proj1 C9_value_count_mismatch Z float_of_integer numpy_refusing
             tblastn_session (join_tab ["11"; "14"])).
    vm_compute. discriminate.
  - apply (proj2 C9_value_count_mismatch Z float_of_integer numpy_refusing
             offsets_session (join_tab ["3"; "6"]) (join_tab [""; " "])).
    reflexivity.
Defined.

(** * Further properties of the decoders *)

(** X1: for every input whose tokens add up to less than 2^63 on either
    row, the last column of the array [parse_btop] returns is the sum of
    what the tokens add to either row, however the runs were merged into
    columns: one target residue for a token that starts with '-', one query
    residue for a token that ends with '-', and the run length on both rows
    for any other token, which is 1 for a pair of letters and also for a run
    of more than 4300 digits, [int] refusing it. *)
Theorem X1_btop_last_column :
  (forall btop,
      within_int64 (total_advance (btop_tokens btop)) ->
      exists m,
        parse_btop btop = int64_array m
        /\ last_column m = total_advance (btop_tokens btop))
  /\ (forall t,
         all_digits t = true -> 4300 < Z.of_nat (String.length t) ->
         match_length t = 1).
Proof.
  split.
  - intros btop Hfit. exists (btop_lists btop).
    split; [now apply parse_btop_int64 | apply btop_lists_last_column].
  - intros t Hd Hlen. unfold match_length.
    rewrite (int_digits_string t Hd) by (destruct t; [simpl in Hlen; lia | discriminate]).
    replace (max_str_digits <? Z.of_nat (String.length t)) with true;
      [reflexivity|].
    symmetry. apply Z.ltb_lt. unfold max_str_digits. lia.
Qed.

(** The theorem at "5AG-C3", and at a run of 4301 digits. *)
Lemma X1_btop_5AG_C3 :
  (exists m,
      parse_btop "5AG-C3" = int64_array m
      /\ last_column m = total_advance (btop_tokens "5AG-C3"))
  /\ match_length (render_digits (repeat d7 4301)) = 1.
Proof.
  split.
  - apply (proj1 X1_btop_last_column "5AG-C3"). vm_compute. split; reflexivity.
  - apply (proj2 X1_btop_last_column (render_digits (repeat d7 4301)));
      vm_compute; reflexivity.
Defined.

Lemma findall_before pattern c rest :
  (forall x s, pattern (String x (s ++ String c rest)) = pattern (String x s)) ->
  (forall s t, pattern s = Some t ->
               (1 <= String.length t <= String.length s)%nat) ->
  forall s k, (k <= String.length s)%nat ->
  findall pattern k (s ++ String c rest)
  = findall pattern k s ++ findall pattern 0 (String c rest).
Proof.
  intros Hsame Hlen.
  induction s as [|x s IH]; intros k Hk.
  - simpl in Hk. assert (k = 0)%nat as -> by lia. reflexivity.
  - change (String x s ++ String c rest)%string
      with (String x (s ++ String c rest)).
    cbn [findall]. destruct k as [|k].
    + rewrite Hsame.
      destruct (pattern (String x s)) as [t|] eqn:Hp.
      * apply Hlen in Hp. cbn [String.length] in Hp.
        rewrite IH by lia. reflexivity.
      * apply IH. lia.
    + apply IH. cbn [String.length] in Hk. lia.
Qed.

Lemma btop_pattern_before c rest x s :
  is_digit c = false -> btop_class c = false ->
  btop_pattern (String x (s ++ String c rest)) = btop_pattern (String x s).
Proof.
  intros Hd Hc. unfold btop_pattern, digits_pattern.
  destruct s as [|y s].
  - cbn [String.append]. rewrite Hc, andb_false_r.
    change (String x (String c rest)) with (String x EmptyString ++ String c rest)%string.
    now rewrite take_digits_before.
  - cbn [String.append].
    change (String x (String y (s ++ String c rest)))
      with (String x (String y s) ++ String c rest)%string.
    now rewrite take_digits_before.
Qed.

Lemma btop_pattern_length s t :
  btop_pattern s = Some t -> (1 <= String.length t <= String.length s)%nat.
Proof.
  assert (Hdig : forall s t, digits_pattern s = Some t ->
                             (1 <= String.length t <= String.length s)%nat).
  { intros s0 t0. unfold digits_pattern.
    pose proof (take_digits_length s0) as Hl.
    destruct (take_digits s0); intros H; inversion H; subst. simpl in *. lia. }
  unfold btop_pattern. destruct s as [|a [|b r]]; try apply Hdig.
  destruct (btop_class a && btop_class b); [|apply Hdig].
  intros H; inversion H; subst. simpl. lia.
Qed.

Lemma btop_tokens_skip s c rest :
  is_digit c = false -> btop_class c = false ->
  btop_tokens (s ++ String c rest) = btop_tokens s ++ btop_tokens rest.
Proof.
  intros Hd Hc. unfold btop_tokens.
  rewrite findall_before; [f_equal| |exact btop_pattern_length|lia].
  - apply findall_miss. unfold btop_pattern, digits_pattern.
    destruct rest as [|b r]; rewrite ?Hc; cbn [andb take_digits];
      now rewrite Hd.
  - intros x s0. now apply btop_pattern_before.
Qed.

(** X2: a character that is neither a digit nor one of A-Z, '-', '*' is
    passed over by [parse_btop]: the tokens are those of the text before it
    followed by those of the text after it, so the matrix is the one the
    loop reaches over the two token lists in turn, and the input without
    that character at its head decodes alike. *)
Theorem X2_btop_foreign_character s c rest :
  is_digit c = false -> btop_class c = false ->
  btop_tokens (s ++ String c rest) = btop_tokens s ++ btop_tokens rest
  /\ parse_btop (String c rest) = parse_btop rest
  /\ parse_btop (s ++ String c rest)
     = let v := btop_loop (btop_tokens rest) (btop_loop (btop_tokens s) btop_init) in
       numpy_array (bt_target v) (bt_query v).
Proof.
  intros Hd Hc. split; [now apply btop_tokens_skip|]. split.
  - unfold parse_btop, btop_lists.
    change (String c rest) with (EmptyString ++ String c rest)%string.
    now rewrite btop_tokens_skip.
  - unfold parse_btop, btop_lists. rewrite btop_tokens_skip by assumption.
    unfold btop_loop. now rewrite fold_left_app.
Qed.

(** The theorem at a lower-case letter between two parts of a BTOP string. *)
Lemma X2_btop_lower_case_letter :
  btop_tokens "5AGx-C3" = btop_tokens "5AG" ++ btop_tokens "-C3"
  /\ parse_btop "x-C3" = parse_btop "-C3"
  /\ parse_btop "5AGx-C3"
     = let v := btop_loop (btop_tokens "-C3") (btop_loop (btop_tokens "5AG") btop_init) in
       numpy_array (bt_target v) (bt_query v).
Proof.
  apply (X2_btop_foreign_character "5AG" "x"%char "-C3"); reflexivity.
Defined.

Lemma trace_columns items : short_lengths items -> forall c,
  trace c (map item_tokens items)
  = map (fun k => (fst c + fst (cigar_column items k),
                   snd c + snd (cigar_column items k)))
        (List.seq 1 (List.length items)).
Proof.
  induction 1 as [|it items Hit Hitems IH]; intros c; [reflexivity|].
  cbn [map trace item_tokens List.length List.seq].
  rewrite (int_render_digits it Hit), IH,
    <- (seq_shift (List.length items) 1), map_map.
  f_equal.
  - unfold cigar_column, advance. cbn [firstn sum_M_I sum_M_D fst snd].
    destruct (item_operation it);
      cbn [operation_char String.eqb Ascii.eqb Bool.eqb fst snd];
      simpl; f_equal; lia.
  - apply map_ext. intros k. unfold cigar_column, advance.
    cbn [firstn sum_M_I sum_M_D fst snd].
    destruct (item_operation it);
      cbn [operation_char String.eqb Ascii.eqb Bool.eqb fst snd];
      simpl; f_equal; lia.
Qed.

(** X3: for every string of the CIGAR grammar whose lengths have at most
    4300 digits and whose sums are below 2^63, the array [parse_cigar]
    returns has, for each k from 0 to the number of items, the column
    (sum of the M and I lengths, sum of the M and D lengths) of the first k
    items, and no other column. *)
Theorem X3_cigar_columns items :
  short_lengths items ->
  within_int64 (sum_M_I items, sum_M_D items) ->
  exists m,
    parse_cigar (render items) = inr (int64_array m)
    /\ matrix_columns m
       = map (cigar_column items) (List.seq 0 (S (List.length items))).
Proof.
  intros Hs Hfit. eexists. split; [now apply parse_cigar_render|].
  rewrite columns_of_pairs, (trace_columns items Hs). reflexivity.
Qed.

(** The theorem at the items 4M, 2I, 3M. *)
Lemma X3_cigar_4M2I3M :
  exists m,
    parse_cigar (render [((d4, []), OpM); ((d2, []), OpI); ((d3, []), OpM)])
    = inr (int64_array m)
    /\ matrix_columns m
       = map (cigar_column [((d4, []), OpM); ((d2, []), OpI); ((d3, []), OpM)])
             (List.seq 0 4).
Proof.
  apply (X3_cigar_columns [((d4, []), OpM); ((d2, []), OpI); ((d3, []), OpM)]).
  - repeat constructor; vm_compute; discriminate.
  - vm_compute. split; reflexivity.
Defined.

(** * Further properties of the row assembler *)

Section DispatchProperties.

Context {float_value : Type}.
Variable float : string -> option float_value.
Context {numpy : Numpy}.
Variable self : AlignmentIterator.

Lemma dispatch_field_unknown (v : locals float_value) column field :
  ~ In field field_names ->
  dispatch_field float self v column field = inl ValueError.
Proof.
  intros Hin.
  assert (H : existsb (String.eqb field) field_names = false).
  { destruct (existsb (String.eqb field) field_names) eqn:E; [|reflexivity].
    apply existsb_exists in E as (x & Hx & Hfx).
    apply String.eqb_eq in Hfx. subst x. contradiction. }
  unfold field_names in H. cbn [existsb] in H.
  repeat (apply orb_false_iff in H; destruct H as [? H]).
  unfold dispatch_field.
  repeat match goal with
         | E : String.eqb field _ = false |- _ => rewrite E; clear E
         end.
  reflexivity.
Qed.

Ltac dispatch_branch H :=
  cbv beta iota in H; unfold to_int, to_float, assert in H;
  repeat match type of H with
         | context [bind (parse_cigar ?c) _] =>
             destruct (parse_cigar c) eqn:?; cbn [bind ret raise] in H
         | context [match ?x with _ => _ end] =>
             destruct x eqn:?; cbn [bind ret raise] in H
         end;
  try discriminate;
  inversion H; subst; clear H;
  repeat split; cbn; try reflexivity; try (intros; congruence); auto.

(** What one field does to the locals the properties below look at. *)
Lemma dispatch_field_effect (v v' : locals float_value) column field :
  dispatch_field float self v column field = inr v' ->
  coordinates v'
  = (if String.eqb field "BTOP" then Some (parse_btop column)
     else if String.eqb field "aln_code"
          then match parse_cigar column with
               | inr c => Some c
               | inl _ => None
               end
          else coordinates v)
  /\ query_start v'
     = (if String.eqb field "q. start"
        then option_map (fun n => n - 1) (int column) else query_start v)
  /\ query_end v'
     = (if String.eqb field "q. end" then int column else query_end v)
  /\ target_start v'
     = (if String.eqb field "s. start"
        then option_map (fun n => n - 1) (int column) else target_start v)
  /\ target_end v'
     = (if String.eqb field "s. end" then int column else target_end v)
  /\ query_sequence v'
     = (if String.eqb field "query seq" then Some column else query_sequence v)
  /\ target_sequence v'
     = (if String.eqb field "subject seq" then Some column
        else target_sequence v)
  /\ (forall n, query_size v = Some n -> query_size v' = Some n).
Proof.
  intros H. unfold dispatch_field in H.
  repeat match type of H with
         | context [if String.eqb field ?s then _ else _] =>
             destruct (String.eqb_spec field s) as [E|E];
             [subst field; dispatch_branch H|clear E]
         end.
  discriminate.
Qed.

(** Three ways to follow the loop over the fields: a property every field
    keeps, a field that fails whenever it is reached, and a field that
    sets up a property the fields after it keep. *)
Lemma dispatch_invariant (P : locals float_value -> Prop) ps :
  (forall v column field v',
      In (column, field) ps -> P v ->
      dispatch_field float self v column field = inr v' -> P v') ->
  forall v v', P v -> dispatch float self ps v = inr v' -> P v'.
Proof.
  induction ps as [|[col f] ps IH]; intros Hstep v v' HP H.
  - inversion H; subst; assumption.
  - cbn [dispatch] in H. apply bind_inr in H as (v1 & H1 & H).
    apply (IH (fun v0 c0 f0 v0' Hin => Hstep v0 c0 f0 v0' (or_intror Hin)) v1 v');
      [|assumption].
    eapply Hstep; [left; reflexivity | eassumption | eassumption].
Qed.

Lemma dispatch_fails (P : locals float_value -> Prop) ps column field :
  In (column, field) ps ->
  (forall v c f v', In (c, f) ps -> P v ->
                    dispatch_field float self v c f = inr v' -> P v') ->
  (forall v, P v -> exists e, dispatch_field float self v column field = inl e) ->
  forall v, P v -> exists e, dispatch float self ps v = inl e.
Proof.
  induction ps as [|[col f] ps IH]; intros Hin Hstep Hfail v HP; [contradiction|].
  cbn [dispatch].
  destruct (dispatch_field float self v col f) as [e|v1] eqn:H1;
    [now exists e|]. cbn [bind].
  destruct Hin as [Heq | Hin].
  - inversion Heq; subst. destruct (Hfail v HP) as [e He]. congruence.
  - apply IH; try assumption.
    + intros v0 c0 f0 v0' Hin0. apply Hstep. now right.
    + eapply Hstep; [left; reflexivity | eassumption | eassumption].
Qed.

Lemma dispatch_reaches (Q : locals float_value -> Prop) ps column field :
  In (column, field) ps ->
  (forall v v', dispatch_field float self v column field = inr v' -> Q v') ->
  (forall v c f v', In (c, f) ps -> Q v ->
                    dispatch_field float self v c f = inr v' -> Q v') ->
  forall v v', dispatch float self ps v = inr v' -> Q v'.
Proof.
  induction ps as [|[col f] ps IH]; intros Hin Hset Hkeep v v' H; [contradiction|].
  cbn [dispatch] in H. apply bind_inr in H as (v1 & H1 & H).
  destruct Hin as [Heq | Hin].
  - inversion Heq; subst.
    apply (dispatch_invariant Q ps
             (fun v0 c0 f0 v0' Hin => Hkeep v0 c0 f0 v0' (or_intror Hin)) v1 v');
      [|assumption].
    eapply Hset; eassumption.
  - eapply IH; try eassumption.
    intros v0 c0 f0 v0' Hin0. apply Hkeep. now right.
Qed.

Lemma row_fields_names line column field :
  In (column, field) (row_fields self line) -> In field (_fields self).
Proof. unfold row_fields. apply in_combine_r. Qed.

Lemma combine_has_right {A B} (l : list A) (l' : list B) y :
  List.length l = List.length l' -> In y l' -> exists x, In (x, y) (combine l l').
Proof.
  revert l'. induction l as [|a l IH]; intros [|b l'] Hlen Hin;
    try discriminate; [contradiction|].
  injection Hlen as Hlen. destruct Hin as [-> | Hin].
  - exists a. now left.
  - destruct (IH l' Hlen Hin) as [x Hx]. exists x. now right.
Qed.

Lemma row_fields_has line field :
  count_matches self line = true -> In field (_fields self) ->
  exists column, In (column, field) (row_fields self line).
Proof.
  unfold count_matches, row_fields. intros Hc Hin.
  apply Nat.eqb_eq in Hc. now apply combine_has_right.
Qed.

Lemma read_next_alignment_fails line :
  (count_matches self line = true ->
   exists e, row_locals float self line = inl e) ->
  exists e, _read_next_alignment float self line = inl e.
Proof.
  intros H. rewrite read_next_alignment_eq.
  destruct (count_matches self line); [|now exists AssertionError].
  destruct (H eq_refl) as [e He]. rewrite He. now exists e.
Qed.

(** The coordinates among the locals: absent without a trace-back field,
    present and well formed with one. *)
Lemma dispatch_no_traceback ps (v v' : locals float_value) :
  (forall column field, In (column, field) ps ->
                        field <> "BTOP" /\ field <> "aln_code") ->
  coordinates v = None ->
  dispatch float self ps v = inr v' -> coordinates v' = None.
Proof.
  intros Hps. apply (dispatch_invariant (fun w => coordinates w = None)).
  intros w col f w' Hin Hw Hstep.
  destruct (dispatch_field_effect w w' col f Hstep) as (Hc & _).
  destruct (Hps col f Hin) as [HB HA].
  apply String.eqb_neq in HB, HA. now rewrite Hc, HB, HA.
Qed.

Lemma parse_cigar_well_formed cigar a :
  parse_cigar cigar = inr a -> exists m, a = array_of m /\ well_formed m.
Proof.
  intros H. destruct (lengths_numeric (cigar_tokens cigar)) eqn:Hnum.
  - rewrite (parse_cigar_numeric cigar Hnum) in H. injection H as Hm.
    eexists. split; [symmetry; exact Hm | apply cigar_lists_well_formed].
  - rewrite (parse_cigar_not_numeric cigar Hnum) in H. discriminate.
Qed.

Lemma dispatch_field_decoded (v v' : locals float_value) column field :
  decoded v -> dispatch_field float self v column field = inr v' -> decoded v'.
Proof.
  intros Hv Hstep c Hc.
  destruct (dispatch_field_effect v v' column field Hstep) as (Hc' & _).
  rewrite Hc' in Hc.
  destruct (String.eqb field "BTOP").
  - inversion Hc; subst. exists (btop_lists column).
    split; [reflexivity | apply btop_lists_well_formed].
  - destruct (String.eqb field "aln_code"); [|now apply Hv].
    destruct (parse_cigar column) as [e|m] eqn:Hp; [discriminate|].
    inversion Hc; subst. eapply parse_cigar_well_formed; eassumption.
Qed.

Lemma dispatch_decoded ps (v v' : locals float_value) :
  decoded v -> dispatch float self ps v = inr v' -> decoded v'.
Proof.
  apply (dispatch_invariant (@decoded float_value)).
  intros w col f w' _. apply dispatch_field_decoded.
Qed.

Lemma dispatch_traceback ps column field (v v' : locals float_value) :
  In (column, field) ps -> field = "BTOP" \/ field = "aln_code" ->
  dispatch float self ps v = inr v' -> exists c, coordinates v' = Some c.
Proof.
  intros Hin Hf.
  apply (dispatch_reaches (fun w => exists c, coordinates w = Some c) ps column field Hin).
  - intros w w' Hstep.
    destruct (dispatch_field_effect w w' column field Hstep) as (Hc & _).
    rewrite Hc. destruct Hf as [-> | ->]; cbn; [eauto|].
    destruct (parse_cigar column) as [e|m] eqn:Hp; [|eauto].
    unfold dispatch_field in Hstep. cbn in Hstep. rewrite Hp in Hstep. discriminate.
  - intros w c f w' _ [c0 Hc0] Hstep.
    destruct (dispatch_field_effect w w' c f Hstep) as (Hc & _).
    rewrite Hc. destruct (String.eqb f "BTOP"); [eauto|].
    destruct (String.eqb_spec f "aln_code") as [->|_]; [|eauto].
    destruct (parse_cigar c) as [e|m] eqn:Hp; [|eauto].
    unfold dispatch_field in Hstep. cbn in Hstep. rewrite Hp in Hstep. discriminate.
Qed.

(** A local that only one field assigns stays [None] without that field. *)
Lemma dispatch_unassigned {A : Type} (get : locals float_value -> option A)
    name ps :
  (forall v v' column field,
      dispatch_field float self v column field = inr v' ->
      field <> name -> get v' = get v) ->
  (forall column field, In (column, field) ps -> field <> name) ->
  forall v v', get v = None -> dispatch float self ps v = inr v' -> get v' = None.
Proof.
  intros Hget Hps.
  apply (dispatch_invariant (fun w => get w = None)).
  intros w col f w' Hin Hw Hstep.
  rewrite (Hget w w' col f Hstep); [assumption|]. now apply (Hps col f).
Qed.

Lemma initial_locals_decoded :
  decoded (initial_locals self : locals float_value).
Proof. intros c Hc. discriminate. Qed.

End DispatchProperties.

Section RowProperties.

Context {float_value : Type}.
Variable float : string -> option float_value.
Context {numpy : Numpy}.
Variable self : AlignmentIterator.

Lemma row_locals_eq line :
  row_locals float self line
  = dispatch float self (row_fields self line) (initial_locals self).
Proof. reflexivity. Qed.

Lemma resolve_coordinates_none (v v' : locals float_value) :
  coordinates v = None -> resolve_coordinates v = inr v' ->
  coordinates v' = None.
Proof.
  unfold resolve_coordinates. intros Hc. rewrite Hc.
  destruct (alignment_length v); cbn; destruct (query_start v); cbn;
    destruct (query_end v); cbn; intros H; inversion H; subst; cbn; assumption.
Qed.

Lemma assemble_no_coordinates (v : locals float_value) aln :
  coordinates v = None -> assemble self v = inr aln ->
  aln_coordinates aln = None.
Proof.
  intros Hc H. unfold assemble in H.
  apply bind_inr in H as (v1 & H1 & H).
  apply bind_inr in H as ([q v2] & H2 & H).
  apply bind_inr in H as ([t v3] & H3 & H).
  inversion H; subst; clear H. cbn [aln_coordinates].
  pose proof (resolve_coordinates_none v v1 Hc H1) as Hc1.
  destruct (resolve_query_frame self _ _ _ H2) as [_ Hc2].
  destruct (resolve_target_coordinates self _ _ _ H3) as [[_ Hc3] | [_ Hc3]].
  - congruence.
  - rewrite Hc2, Hc1 in Hc3. assumption.
Qed.

Lemma assemble_type_error (v : locals float_value) c :
  coordinates v = Some c -> query_start v = None \/ query_end v = None ->
  assemble self v = inl TypeError.
Proof.
  intros Hc Hq. unfold assemble, resolve_coordinates. rewrite Hc.
  destruct Hq as [-> | ->]; [reflexivity|].
  destruct (query_start v); reflexivity.
Qed.

Lemma row_unassigned {A : Type} (get : locals float_value -> option A)
    name line v :
  (forall w w' column field,
      dispatch_field float self w column field = inr w' ->
      field <> name -> get w' = get w) ->
  get (initial_locals self) = None ->
  ~ In name (_fields self) ->
  row_locals float self line = inr v -> get v = None.
Proof.
  intros Hget H0 Hin Hv.
  apply (dispatch_unassigned float self get name (row_fields self line) Hget)
    with (v := initial_locals self); try assumption.
  intros col f Hf Heq. subst f. apply Hin.
  eapply row_fields_names; eassumption.
Qed.

Lemma query_start_assigned (w w' : locals float_value) column field :
  dispatch_field float self w column field = inr w' ->
  field <> "q. start" -> query_start w' = query_start w.
Proof.
  intros H Hf. destruct (dispatch_field_effect float self w w' column field H)
    as (_ & Hs & _).
  apply String.eqb_neq in Hf. now rewrite Hs, Hf.
Qed.

Lemma query_end_assigned (w w' : locals float_value) column field :
  dispatch_field float self w column field = inr w' ->
  field <> "q. end" -> query_end w' = query_end w.
Proof.
  intros H Hf. destruct (dispatch_field_effect float self w w' column field H)
    as (_ & _ & Hs & _).
  apply String.eqb_neq in Hf. now rewrite Hs, Hf.
Qed.

Lemma target_start_assigned (w w' : locals float_value) column field :
  dispatch_field float self w column field = inr w' ->
  field <> "s. start" -> target_start w' = target_start w.
Proof.
  intros H Hf. destruct (dispatch_field_effect float self w w' column field H)
    as (_ & _ & _ & Hs & _).
  apply String.eqb_neq in Hf. now rewrite Hs, Hf.
Qed.

Lemma target_end_assigned (w w' : locals float_value) column field :
  dispatch_field float self w column field = inr w' ->
  field <> "s. end" -> target_end w' = target_end w.
Proof.
  intros H Hf. destruct (dispatch_field_effect float self w w' column field H)
    as (_ & _ & _ & _ & Hs & _).
  apply String.eqb_neq in Hf. now rewrite Hs, Hf.
Qed.

Lemma query_sequence_assigned (w w' : locals float_value) column field :
  dispatch_field float self w column field = inr w' ->
  field <> "query seq" -> query_sequence w' = query_sequence w.
Proof.
  intros H Hf. destruct (dispatch_field_effect float self w w' column field H)
    as (_ & _ & _ & _ & _ & Hs & _).
  apply String.eqb_neq in Hf. now rewrite Hs, Hf.
Qed.

Lemma row_query_sequence line v :
  count_matches self line = true -> In "query seq" (_fields self) ->
  row_locals float self line = inr v -> exists s, query_sequence v = Some s.
Proof.
  intros Hn Hin Hv. rewrite row_locals_eq in Hv.
  destruct (row_fields_has self line _ Hn Hin) as [col Hcol].
  apply (dispatch_reaches float self (fun w => exists s, query_sequence w = Some s)
           (row_fields self line) col "query seq" Hcol) with (v := initial_locals self);
    [| |exact Hv].
  - intros w w' H. destruct (dispatch_field_effect float self w w' _ _ H)
      as (_ & _ & _ & _ & _ & Hs & _). rewrite Hs. cbn. eauto.
  - intros w c f w' _ [s0 Hs0] H.
    destruct (dispatch_field_effect float self w w' _ _ H)
      as (_ & _ & _ & _ & _ & Hs & _). rewrite Hs.
    destruct (String.eqb f "query seq"); eauto.
Qed.

Lemma row_target_sequence line v :
  count_matches self line = true -> In "subject seq" (_fields self) ->
  row_locals float self line = inr v -> exists s, target_sequence v = Some s.
Proof.
  intros Hn Hin Hv. rewrite row_locals_eq in Hv.
  destruct (row_fields_has self line _ Hn Hin) as [col Hcol].
  apply (dispatch_reaches float self (fun w => exists s, target_sequence w = Some s)
           (row_fields self line) col "subject seq" Hcol) with (v := initial_locals self);
    [| |exact Hv].
  - intros w w' H. destruct (dispatch_field_effect float self w w' _ _ H)
      as (_ & _ & _ & _ & _ & _ & Hs & _). rewrite Hs. cbn. eauto.
  - intros w c f w' _ [s0 Hs0] H.
    destruct (dispatch_field_effect float self w w' _ _ H)
      as (_ & _ & _ & _ & _ & _ & Hs & _). rewrite Hs.
    destruct (String.eqb f "subject seq"); eauto.
Qed.

Lemma row_traceback line v :
  count_matches self line = true ->
  In "BTOP" (_fields self) \/ In "aln_code" (_fields self) ->
  row_locals float self line = inr v ->
  exists c, coordinates v = Some c.
Proof.
  intros Hn Hin Hv. rewrite row_locals_eq in Hv.
  destruct Hin as [Hin | Hin];
    destruct (row_fields_has self line _ Hn Hin) as [col Hcol];
    eapply dispatch_traceback; eauto.
Qed.

Lemma row_no_traceback line v :
  ~ In "BTOP" (_fields self) -> ~ In "aln_code" (_fields self) ->
  row_locals float self line = inr v -> coordinates v = None.
Proof.
  intros HB HA Hv. rewrite row_locals_eq in Hv.
  apply (dispatch_no_traceback float self (row_fields self line)
           (initial_locals self) v); [|reflexivity|exact Hv].
  intros col f Hin. apply row_fields_names in Hin.
  split; intros ->; contradiction.
Qed.

Lemma row_decoded line v :
  row_locals float self line = inr v -> decoded v.
Proof.
  intros Hv. eapply dispatch_decoded; [apply initial_locals_decoded|exact Hv].
Qed.

(** The query sequence, with a program that is neither TBLASTN nor
    TBLASTX. *)
Lemma assemble_unknown_program (v : locals float_value) s :
  translated self = false -> query_sequence v = Some s ->
  (exists e, assemble self v = inl e)
  /\ (rebasing_within_int64 v ->
      coordinates v = None \/ (query_start v <> None /\ query_end v <> None) ->
      assemble self v = inl Exception).
Proof.
  intros Hp Hq. unfold translated in Hp. apply orb_false_iff in Hp as [Hn Hx].
  assert (Hrq : forall w : locals float_value,
             query_sequence w = Some s -> resolve_query self w = inl Exception).
  { intros w Hw. unfold resolve_query. now rewrite Hw, Hn, Hx. }
  assert (Hok : forall v1, resolve_coordinates v = inr v1 ->
                           assemble self v = inl Exception).
  { intros v1 H1. unfold assemble. rewrite H1. cbn [bind].
    destruct (resolve_coordinates_frame v v1 H1) as (_ & _ & _ & Hq1 & _).
    rewrite Hrq by congruence. reflexivity. }
  split.
  - destruct (resolve_coordinates v) as [e|v1] eqn:H1.
    + exists e. unfold assemble. now rewrite H1.
    + exists Exception. now apply (Hok v1).
  - intros Hw Hc.
    destruct (resolve_coordinates_within v Hw Hc) as [v1 H1].
    now apply (Hok v1).
Qed.

(** The target sequence without both target offsets, when the target is
    not translated. *)
Lemma assemble_unbound_target (v : locals float_value) s :
  translated self = false -> target_sequence v = Some s ->
  target_start v = None \/ target_end v = None ->
  (exists e, assemble self v = inl e)
  /\ (coordinates v = None -> query_sequence v = None ->
      assemble self v = inl UnboundLocalError).
Proof.
  intros Hp Ht Hoff.
  assert (Hrt : forall w : locals float_value,
             target_sequence w = Some s ->
             target_start w = None \/ target_end w = None ->
             exists e, resolve_target self w = inl e
                       /\ (coordinates w = None -> e = UnboundLocalError)).
  { intros w Hw Hwo. unfold resolve_target. fold (translated self). rewrite Hp.
    destruct (coordinates w) as [c|].
    - destruct (target_start w) as [ts|] eqn:Hs.
      + destruct (rebase_target ts c) as [e|c'];
          [exists e; split; [reflexivity|discriminate]|].
        cbn [bind ret]. cbn [target_sequence target_start target_end set_coordinates].
        rewrite Hw, Hs. destruct Hwo as [Hwo | ->]; [discriminate|].
        exists UnboundLocalError. split; [reflexivity|discriminate].
      + exists TypeError. split; [reflexivity|discriminate].
    - cbn [bind ret]. rewrite Hw. exists UnboundLocalError. split; [|reflexivity].
      destruct Hwo as [-> | ->]; [reflexivity|].
      destruct (target_start w); reflexivity. }
  assert (Hgen : forall v1 q v2,
             resolve_coordinates v = inr v1 -> resolve_query self v1 = inr (q, v2) ->
             exists e, assemble self v = inl e
                       /\ (coordinates v2 = None -> e = UnboundLocalError)).
  { intros v1 q v2 H1 H2.
    destruct (resolve_coordinates_frame v v1 H1) as ((Hs1 & He1 & Ht1) & _).
    destruct (resolve_query_frame self v1 v2 q H2) as ((Hs2 & He2 & Ht2) & _).
    destruct (Hrt v2) as (e & He & Hee).
    - congruence.
    - rewrite Hs2, He2, Hs1, He1. exact Hoff.
    - exists e. split; [|exact Hee].
      unfold assemble. rewrite H1. cbn [bind]. rewrite H2. cbn [bind].
      now rewrite He. }
  split.
  - destruct (resolve_coordinates v) as [e|v1] eqn:H1.
    + exists e. unfold assemble. now rewrite H1.
    + destruct (resolve_query self v1) as [e|[q v2]] eqn:H2.
      * exists e. unfold assemble. rewrite H1. cbn [bind]. now rewrite H2.
      * destruct (Hgen v1 q v2 eq_refl H2) as (e & He & _). now exists e.
  - intros Hc Hq.
    destruct (resolve_coordinates v) as [e|v1] eqn:H1.
    + unfold resolve_coordinates in H1. rewrite Hc in H1. discriminate.
    + pose proof (resolve_coordinates_none v v1 Hc H1) as Hc1.
      destruct (resolve_coordinates_frame v v1 H1) as (_ & _ & _ & Hq1 & _).
      assert (H2 : exists q, resolve_query self v1 = inr (q, v1)).
      { unfold resolve_query. rewrite Hq1, Hq. destruct (query_size v1); eauto. }
      destruct H2 as [q H2].
      destruct (Hgen v1 q v1 eq_refl H2) as (e & He & Hee).
      rewrite (Hee Hc1) in He. exact He.
Qed.

End RowProperties.

(** X4: a session whose field list holds a name the loop over the fields
    has no branch for yields no alignment, whatever the row is. *)
Theorem X4_unknown_field_name
    (F : Type) (float : string -> option F) {numpy : Numpy}
    self line field :
  In field (_fields self) -> ~ In field field_names ->
  exists e, _read_next_alignment float self line = inl e.
Proof.
  intros Hin Hout. apply read_next_alignment_fails. intros Hn.
  destruct (row_fields_has self line field Hn Hin) as [col Hcol].
  apply (dispatch_fails float self (fun _ => True) (row_fields self line) col field);
    auto.
  intros v _. exists ValueError. now apply dispatch_field_unknown.
Qed.

(** The theorem at a row read with the field "query cover". *)
Lemma X4_query_cover_rejected :
  exists e,
    _read_next_alignment float_of_integer
      (MkAlignmentIterator ["query id"; "query cover"] None None None "TBLASTN")
      (join_tab ["q1"; "98"]) = inl e.
Proof.
  apply (X4_unknown_field_name Z float_of_integer _ _ "query cover").
  - right; left; reflexivity.
  - vm_compute. intuition discriminate.
Defined.

(** X5: when a row reaches the call [Alignment(records, coordinates)] of
    line 298, the coordinates passed to it are None if and only if the field
    list has no trace-back field, neither BTOP nor aln_code.  What the
    constructor makes of None is not part of the statement. *)
Theorem X5_coordinates_need_traceback
    (F : Type) (float : string -> option F) {numpy : Numpy}
    self line aln :
  _read_next_alignment float self line = inr aln ->
  (aln_coordinates aln = None
   <-> ~ In "BTOP" (_fields self) /\ ~ In "aln_code" (_fields self)).
Proof.
  intros H. apply read_next_alignment_inr in H as (Hn & v & Hv & Ha).
  split.
  - intros Hnone.
    assert (Hno : ~ (In "BTOP" (_fields self) \/ In "aln_code" (_fields self))).
    { intros Hin. destruct (row_traceback float self line v Hn Hin Hv) as [c Hc].
      destruct (assemble_coordinates self v c aln Hc Ha)
        as (qs & qe & c1 & _ & _ & _ & [[_ Hm] | [_ (ts & c2 & _ & _ & Hm)]]);
        congruence. }
    tauto.
  - intros [HB HA]. eapply assemble_no_coordinates; [|eassumption].
    eapply row_no_traceback; eassumption.
Qed.

(** The theorem at a TBLASTX row with a query sequence and no trace-back. *)
Lemma X5_row_without_traceback :
  exists aln,
    _read_next_alignment float_of_integer tblastx_session
      (join_tab ["11"; "14"; "AC-G"]) = inr aln
    /\ (aln_coordinates aln = None
        <-> ~ In "BTOP" (_fields tblastx_session)
            /\ ~ In "aln_code" (_fields tblastx_session)).
Proof.
  eexists. split; [vm_compute; reflexivity|].
  eapply (X5_coordinates_need_traceback Z float_of_integer tblastx_session
            (join_tab ["11"; "14"; "AC-G"])).
  vm_compute. reflexivity.
Defined.

(** X6: a row with a trace-back field but without the field "q. start" or
    without the field "q. end" yields no alignment; when its values are as
    many as the field names and all are read, the error is TypeError. *)
Theorem X6_traceback_needs_query_offsets
    (F : Type) (float : string -> option F) {numpy : Numpy}
    self line :
  In "BTOP" (_fields self) \/ In "aln_code" (_fields self) ->
  ~ In "q. start" (_fields self) \/ ~ In "q. end" (_fields self) ->
  (exists e, _read_next_alignment float self line = inl e)
  /\ (count_matches self line = true ->
      forall v, row_locals float self line = inr v ->
                _read_next_alignment float self line = inl TypeError).
Proof.
  intros Htb Hq.
  assert (Hmain : count_matches self line = true ->
                  forall v, row_locals float self line = inr v ->
                            _read_next_alignment float self line = inl TypeError).
  { intros Hn v Hv. rewrite (read_next_alignment_counted float self line v Hn Hv).
    destruct (row_traceback float self line v Hn Htb Hv) as [c Hc].
    apply (assemble_type_error self v c Hc).
    destruct Hq as [Hq | Hq]; [left | right].
    - eapply (row_unassigned float self query_start "q. start");
        eauto using query_start_assigned.
    - eapply (row_unassigned float self query_end "q. end");
        eauto using query_end_assigned. }
  split; [|exact Hmain].
  destruct (count_matches self line) eqn:Hn.
  - destruct (row_locals float self line) as [e|v] eqn:Hv.
    + exists e. rewrite read_next_alignment_eq, Hn, Hv. reflexivity.
    + exists TypeError. now apply (Hmain eq_refl v).
  - exists AssertionError. rewrite read_next_alignment_eq, Hn. reflexivity.
Qed.

(** The theorem at a row with a BTOP field and no query offsets. *)
Lemma X6_btop_alone :
  _read_next_alignment float_of_integer
    (MkAlignmentIterator ["query id"; "BTOP"] None None None "TBLASTN")
    (join_tab ["q1"; "10"]) = inl TypeError.
Proof.
  eapply (proj2 (X6_traceback_needs_query_offsets Z float_of_integer
                   (MkAlignmentIterator ["query id"; "BTOP"] None None None "TBLASTN")
                   (join_tab ["q1"; "10"]) _ _)).
  - reflexivity.
  - vm_compute. reflexivity.
  Unshelve.
  + left. right. left. reflexivity.
  + left. vm_compute. intuition discriminate.
Defined.

Lemma well_formed_rows c :
  well_formed c ->
  exists t q r,
    target_row c = 0 :: t /\ query_row c = 0 :: q /\ combine t q = r
    /\ nondecreasing (0 :: t) /\ nondecreasing (0 :: q).
Proof.
  intros ([r Hr] & _ & Ht & Hq). unfold matrix_columns in Hr.
  destruct (target_row c) as [|t0 t]; [discriminate|].
  destruct (query_row c) as [|q0 q]; [discriminate|].
  cbn [combine] in Hr. inversion Hr; subst. now exists t, q, (combine t q).
Qed.

(** The rows after the rebasing of the query row, when no value leaves
    the 64-bit integers. *)
Lemma rebased_query_shape qs qe c :
  well_formed c ->
  exists t q,
    target_row c = 0 :: t
    /\ map (fun x => if qs <? qe then x + qs else qs - x + 1) (query_row c)
       = (if qs <? qe then qs else qs + 1) :: q
    /\ nondecreasing (0 :: t)
    /\ (if qs <? qe
        then nondecreasing ((if qs <? qe then qs else qs + 1) :: q)
        else nonincreasing ((if qs <? qe then qs else qs + 1) :: q)).
Proof.
  intros Hc. destruct (well_formed_rows c Hc) as (t & q & r & Ht & Hq & _ & Hnt & Hnq).
  rewrite Ht, Hq. exists t.
  destruct (qs <? qe).
  - exists (map (fun x => x + qs) q). split; [reflexivity|].
    split; [reflexivity|]. split; [assumption|].
    change (qs :: map (fun x => x + qs) q)
      with (map (fun x => x + qs) (0 :: q)).
    apply (adjacent_map _ Z.le); [intros; lia | assumption].
  - exists (map (fun x => qs - x + 1) q). split; [reflexivity|]. split.
    + cbn [map]. now rewrite Z.sub_0_r.
    + split; [assumption|]. replace (qs + 1) with (qs - 0 + 1) by lia.
      change ((qs - 0 + 1) :: map (fun x => qs - x + 1) q)
        with (map (fun x => qs - x + 1) (0 :: q)).
      apply (adjacent_map _ Z.le); [intros; lia | assumption].
Qed.

(** X7: when a row with a trace-back field reaches the call of Alignment of
    line 298 and its array is one of 64-bit integers that no rebasing takes
    out of their range, the array passed to the call starts at the offsets
    of the row and keeps the order of the decoded array.  Its first column
    is (0, q) when the program is TBLASTN or TBLASTX and (target_start, q)
    otherwise, where q is query_start when query_start < query_end and
    query_start + 1 when not; its target row never decreases; its query row
    never decreases in the first case and never increases in the second. *)
Theorem X7_rebased_matrix
    (F : Type) (float : string -> option F) {numpy : Numpy}
    self line v c aln :
  row_locals float self line = inr v ->
  coordinates v = Some (int64_array c) ->
  rebasing_exact self v c ->
  _read_next_alignment float self line = inr aln ->
  exists qs qe t0 t q m,
    query_start v = Some qs /\ query_end v = Some qe
    /\ ((translated self = true /\ t0 = 0)
        \/ (translated self = false /\ target_start v = Some t0))
    /\ aln_coordinates aln = Some (int64_array m)
    /\ m = Matrix (t0 :: t) ((if qs <? qe then qs else qs + 1) :: q)
    /\ nondecreasing (target_row m)
    /\ (if qs <? qe then nondecreasing (query_row m)
        else nonincreasing (query_row m)).
Proof.
  intros Hv Hc (Hfq & Hq & Ht) Ha.
  destruct (row_decoded float self line v Hv _ Hc) as (m0 & Hm0 & Hwf).
  symmetry in Hm0. apply array_of_int64 in Hm0 as [Hm0 _]. subst m0.
  destruct (read_coordinates float self line v _ aln Hv Hc Ha)
    as (qs & qe & c1 & Hs & He & Hr & Hcase).
  rewrite (rebase_query_int64 qs qe c (Hfq qs Hs)) in Hr.
  inversion Hr; subst c1; clear Hr.
  assert (Hqr : query_rebased qs qe c
                = Matrix (target_row c)
                         (map (fun x => if qs <? qe then x + qs else qs - x + 1)
                              (query_row c))).
  { unfold query_rebased. f_equal.
    apply (map_wrap_fits (fun x => if qs <? qe then x + qs else qs - x + 1)).
    exact (Hq qs qe Hs He). }
  destruct (rebased_query_shape qs qe c Hwf) as (t & q & Htr & Hqq & Hnt & Hnq).
  rewrite Hqq, Htr in Hqr.
  destruct Hcase as [[Htl Hm] | [Htl (ts & c2 & Hts & Hr2 & Hm)]].
  - exists qs, qe, 0, t, q, (query_rebased qs qe c).
    rewrite Hqr. cbn [target_row query_row].
    split; [assumption|]. split; [assumption|]. split; [left; auto|].
    split; [now rewrite <- Hqr|]. split; [reflexivity|]. split; assumption.
  - pose proof (Ht Htl ts Hts) as Hft. rewrite Htr in Hft.
    assert (Hfts : fits_int64 ts = true) by (inversion Hft; assumption).
    rewrite (rebase_target_int64 ts _ Hfts) in Hr2.
    inversion Hr2; subst c2; clear Hr2.
    exists qs, qe, ts, (map (fun x => x + ts) t), q,
      (target_rebased ts (query_rebased qs qe c)).
    split; [assumption|]. split; [assumption|]. split; [right; auto|].
    split; [assumption|].
    rewrite Hqr. unfold target_rebased. cbn [target_row query_row].
    rewrite (map_wrap_fits (fun x => x + ts) (0 :: t) Hft).
    split; [reflexivity|]. split; [|assumption].
    apply (adjacent_map _ Z.le); [intros; lia | assumption].
Qed.

(** The theorem at the FASTA row 3, 6, 11, 14, 4M. *)
Lemma X7_fasta_row_matrix :
  exists v aln qs qe t0 t q m,
    row_locals float_of_integer fasta_session
               (join_tab ["3"; "6"; "11"; "14"; "4M"]) = inr v
    /\ _read_next_alignment float_of_integer fasta_session
         (join_tab ["3"; "6"; "11"; "14"; "4M"]) = inr aln
    /\ query_start v = Some qs /\ query_end v = Some qe
    /\ ((translated fasta_session = true /\ t0 = 0)
        \/ (translated fasta_session = false /\ target_start v = Some t0))
    /\ aln_coordinates aln = Some (int64_array m)
    /\ m = Matrix (t0 :: t) ((if qs <? qe then qs else qs + 1) :: q)
    /\ nondecreasing (target_row m)
    /\ (if qs <? qe then nondecreasing (query_row m)
        else nonincreasing (query_row m)).
Proof.
  edestruct (X7_rebased_matrix Z float_of_integer fasta_session
               (join_tab ["3"; "6"; "11"; "14"; "4M"]))
    as (qs & qe & t0 & t & q & m & H);
    [vm_compute; reflexivity | vm_compute; reflexivity | |
     vm_compute; reflexivity |].
  - split; [|split].
    + intros qs H. vm_compute in H. inversion H. reflexivity.
    + intros qs qe H1 H2. vm_compute in H1, H2. inversion H1; inversion H2.
      repeat constructor.
    + intros _ ts H. vm_compute in H. inversion H. repeat constructor.
  - do 2 eexists. exists qs, qe, t0, t, q, m.
    split; [vm_compute; reflexivity|].
    split; [vm_compute; reflexivity|]. exact H.
Defined.

(** X8: a row is checked against the session.  When the session declares a
    query identifier, a row with a "query id" value other than it yields no
    alignment; when the session declares a query size, a row with a
    "query length" value that is not that number yields no alignment. *)
Theorem X8_row_against_session
    (F : Type) (float : string -> option F) {numpy : Numpy}
    self line column :
  (forall expected,
      _query_id self = Some expected ->
      In (column, "query id") (row_fields self line) ->
      column <> expected ->
      exists e, _read_next_alignment float self line = inl e)
  /\ (forall size,
         _query_size self = Some size ->
         In (column, "query length") (row_fields self line) ->
         int column <> Some size ->
         exists e, _read_next_alignment float self line = inl e).
Proof.
  split.
  - intros expected Hid Hin Hne. apply read_next_alignment_fails. intros _.
    apply (dispatch_fails float self (fun _ => True) (row_fields self line)
             column "query id"); auto.
    intros v _. exists AssertionError.
    unfold dispatch_field. cbn [String.eqb Ascii.eqb Bool.eqb]. rewrite Hid.
    apply String.eqb_neq in Hne. now rewrite Hne.
  - intros size Hsz Hin Hne. apply read_next_alignment_fails. intros _.
    apply (dispatch_fails float self (fun w => query_size w = Some size)
             (row_fields self line) column "query length"); auto.
    + intros v c f v' _ Hq H.
      destruct (dispatch_field_effect float self v v' c f H)
        as (_ & _ & _ & _ & _ & _ & _ & Hkeep). now apply Hkeep.
    + intros v Hq.
      assert (Hf : dispatch_field float self v column "query length"
                   = match query_size v with
                     | None => n <- to_int column ;; ret (set_query_size v (Some n))
                     | Some size =>
                         n <- to_int column ;; _ <- assert (size =? n) ;; ret v
                     end) by reflexivity.
      rewrite Hf, Hq. unfold to_int.
      destruct (int column) as [n|]; [|now exists ValueError].
      cbn [bind ret]. destruct (Z.eqb_spec size n) as [->|_];
        [congruence | now exists AssertionError].
Qed.

(** The theorem at a row of another query and at a row of another length. *)
Lemma X8_other_query_rejected :
  (exists e,
      _read_next_alignment float_of_integer
        (MkAlignmentIterator ["query id"; "subject id"] (Some "q1") None None "TBLASTN")
        (join_tab ["q2"; "s1"]) = inl e)
  /\ (exists e,
         _read_next_alignment float_of_integer
           (MkAlignmentIterator ["query length"; "subject id"] (Some "q1") None
                                (Some 120) "FASTA")
           (join_tab ["121"; "s1"]) = inl e).
Proof.
  split.
  - apply (proj1 (X8_row_against_session Z float_of_integer
                    (MkAlignmentIterator ["query id"; "subject id"]
                                         (Some "q1") None None "TBLASTN")
                    (join_tab ["q2"; "s1"]) "q2") "q1").
    + reflexivity.
    + left. reflexivity.
    + discriminate.
  - apply (proj2 (X8_row_against_session Z float_of_integer
                    (MkAlignmentIterator ["query length"; "subject id"]
                                         (Some "q1") None (Some 120) "FASTA")
                    (join_tab ["121"; "s1"]) "121") 120).
    + reflexivity.
    + left. reflexivity.
    + vm_compute. discriminate.
Defined.

(** X9: with a program other than TBLASTN and TBLASTX, a row read with the
    field "query seq" yields no alignment; when its values are read and it
    has no trace-back field, or has both query offsets and a query rebasing
    that stays with the 64-bit integers, the error is the Exception for an
    unknown program. *)
Theorem X9_query_sequence_needs_blast
    (F : Type) (float : string -> option F) {numpy : Numpy}
    self line :
  translated self = false -> In "query seq" (_fields self) ->
  (exists e, _read_next_alignment float self line = inl e)
  /\ (count_matches self line = true ->
      forall v, row_locals float self line = inr v ->
      rebasing_within_int64 v ->
      (coordinates v = None \/ (query_start v <> None /\ query_end v <> None)) ->
      _read_next_alignment float self line = inl Exception).
Proof.
  intros Hp Hin. split.
  - rewrite read_next_alignment_eq.
    destruct (count_matches self line) eqn:Hn; [|now exists AssertionError].
    destruct (row_locals float self line) as [e|v] eqn:Hv; [now exists e|].
    destruct (row_query_sequence float self line v Hn Hin Hv) as [s Hs].
    exact (proj1 (assemble_unknown_program self v s Hp Hs)).
  - intros Hn v Hv Hw Hc.
    rewrite (read_next_alignment_counted float self line v Hn Hv).
    destruct (row_query_sequence float self line v Hn Hin Hv) as [s Hs].
    now apply (proj2 (assemble_unknown_program self v s Hp Hs)).
Qed.

(** The theorem at a FASTA row with a query sequence. *)
Lemma X9_fasta_query_sequence :
  _read_next_alignment float_of_integer
    (MkAlignmentIterator ["query id"; "query seq"] None None (Some 4) "FASTA")
    (join_tab ["q1"; "ACGT"]) = inl Exception.
Proof.
  eapply (proj2 (X9_query_sequence_needs_blast Z float_of_integer
                   (MkAlignmentIterator ["query id"; "query seq"] None None
                                        (Some 4) "FASTA")
                   (join_tab ["q1"; "ACGT"]) eq_refl
                   (or_intror (or_introl eq_refl)))).
  - reflexivity.
  - vm_compute. reflexivity.
  - exact I.
  - left. reflexivity.
Defined.

(** X10: with a program other than TBLASTN and TBLASTX, a row read with the
    field "subject seq" but without the field "s. start" or without the
    field "s. end" yields no alignment; when the row has no trace-back
    field and no query sequence field and its values are read, the error is
    UnboundLocalError: the target sequence is used without having been
    assigned. *)
Theorem X10_target_sequence_needs_offsets
    (F : Type) (float : string -> option F) {numpy : Numpy}
    self line :
  translated self = false -> In "subject seq" (_fields self) ->
  ~ In "s. start" (_fields self) \/ ~ In "s. end" (_fields self) ->
  (exists e, _read_next_alignment float self line = inl e)
  /\ (count_matches self line = true ->
      ~ In "BTOP" (_fields self) -> ~ In "aln_code" (_fields self) ->
      ~ In "query seq" (_fields self) ->
      forall v, row_locals float self line = inr v ->
      _read_next_alignment float self line = inl UnboundLocalError).
Proof.
  intros Hp Hin Hoff.
  assert (Hv_off : forall v, row_locals float self line = inr v ->
                             target_start v = None \/ target_end v = None).
  { intros v Hv. destruct Hoff as [Ho | Ho]; [left | right].
    - eapply (row_unassigned float self target_start "s. start");
        eauto using target_start_assigned.
    - eapply (row_unassigned float self target_end "s. end");
        eauto using target_end_assigned. }
  split.
  - rewrite read_next_alignment_eq.
    destruct (count_matches self line) eqn:Hn; [|now exists AssertionError].
    destruct (row_locals float self line) as [e|v] eqn:Hv; [now exists e|].
    destruct (row_target_sequence float self line v Hn Hin Hv) as [s Hs].
    exact (proj1 (assemble_unbound_target self v s Hp Hs (Hv_off v eq_refl))).
  - intros Hn HB HA HQ v Hv.
    rewrite (read_next_alignment_counted float self line v Hn Hv).
    destruct (row_target_sequence float self line v Hn Hin Hv) as [s Hs].
    apply (proj2 (assemble_unbound_target self v s Hp Hs (Hv_off v Hv))).
    + eapply row_no_traceback; eassumption.
    + eapply (row_unassigned float self query_sequence "query seq");
        eauto using query_sequence_assigned.
Qed.

(** The theorem at a FASTA row with a target sequence and no target end. *)
Lemma X10_fasta_target_sequence :
  _read_next_alignment float_of_integer
    (MkAlignmentIterator ["s. start"; "subject seq"] None None (Some 4) "FASTA")
    (join_tab ["11"; "ACGT"]) = inl UnboundLocalError.
Proof.
  eapply (proj2 (X10_target_sequence_needs_offsets Z float_of_integer
                   (MkAlignmentIterator ["s. start"; "subject seq"] None None
                                        (Some 4) "FASTA")
                   (join_tab ["11"; "ACGT"]) eq_refl
                   (or_intror (or_introl eq_refl)) _)).
  - reflexivity.
  - vm_compute. intuition discriminate.
  - vm_compute. intuition discriminate.
  - vm_compute. intuition discriminate.
  - vm_compute. reflexivity.
  Unshelve. right. vm_compute. intuition discriminate.
Defined.


(** * Properties of the header and of the stream *)

Lemma bind_outcome_inr {A B} (m : outcome A) (k : A -> outcome B) b :
  bind_outcome m k = inr b -> exists a, m = inr a /\ k a = inr b.
Proof. destruct m as [e|a]; simpl; [discriminate | eauto]. Qed.

(** A header leaves lines of the stream it was given, and takes none back. *)
Lemma header_lines_rest stream : forall fp md q f self rest,
  header_lines stream fp md q f = inr (self, rest) ->
  (List.length rest <= List.length stream)%nat.
Proof.
  induction stream as [|line stream IH]; intros fp md q f self rest H.
  - inversion H; subst. simpl. lia.
  - cbn [header_lines] in H. cbn [List.length].
    destruct (negb (startswith "# " (strip line))); [discriminate|].
    destruct (split_sep ": " (drop 2 (strip line))) as [|p [|v [|x l]]].
    1,2,4: destruct (negb (endswith " hits found" (strip line))); [discriminate|];
      destruct (int _); [|discriminate]; inversion H; subst; lia.
    destruct (String.eqb p "Query").
    { apply bind_outcome_inr in H as (q' & _ & H). apply IH in H. lia. }
    destruct (String.eqb p "Database"); [apply IH in H; lia|].
    destruct (String.eqb p "Fields"); [apply IH in H; lia|].
    destruct (String.eqb p "RID"); apply IH in H; lia.
Qed.

Lemma parse_header_rest q f stream line self rest :
  _parse_header q f stream line = inr (self, rest) ->
  (List.length rest <= List.length stream)%nat.
Proof.
  unfold _parse_header.
  destruct (startswith "TBLASTN " (drop 2 line) || startswith "TBLASTX " (drop 2 line)).
  - intros H. apply bind_outcome_inr in H as (pv & _ & H).
    now apply header_lines_rest in H.
  - destruct stream as [|line2 stream]; [discriminate|].
    destruct (negb (startswith "# " line2)); [discriminate|].
    intros H. apply bind_outcome_inr in H as (pv & _ & H).
    apply header_lines_rest in H. cbn [List.length]. lia.
Qed.

Section StreamProperties.

Context {float_value : Type}.
Variable float : string -> option float_value.
Context {numpy : Numpy}.

(** The bound on the turns of the loop is never reached. *)
Lemma next_alignment_loop_turns turns : forall self line stream,
  (List.length stream <= turns)%nat ->
  next_alignment_loop float turns self line stream <> inl OutOfTurns.
Proof.
  assert (Hrow : forall self line k,
             (aln <-- read_row float self line ;;
              inr (Some aln, self, k))
             <> (inl OutOfTurns
                 : outcome (option (Alignment float_value) * Attributes * list string))).
  { intros self line k. unfold read_row.
    destruct (query_attributes self); [|discriminate].
    destruct line; [|discriminate].
    destruct (fields_attribute self); [|discriminate].
    destruct (_read_next_alignment float _ s); discriminate. }
  induction turns as [|turns IH]; intros self line stream Hlen.
  - destruct stream as [|raw rest]; [apply Hrow | simpl in Hlen; lia].
  - destruct stream as [|raw rest]; [apply Hrow|].
    cbn [next_alignment_loop]. cbn [List.length] in Hlen.
    destruct (startswith "# " (rstrip raw)); [|apply Hrow].
    destruct (_final_prefix self) eqn:Hfp; [|discriminate].
    destruct (startswith s (rstrip raw) && endswith " queries" (rstrip raw)).
    + unfold delete_attributes. rewrite Hfp.
      destruct (fields_attribute self), (query_attributes self);
        cbn [bind_outcome]; discriminate.
    + destruct (_parse_header _ _ rest (rstrip raw)) as [e|[self' rest']] eqn:Hp.
      * cbn [bind_outcome]. intros He. inversion He; subst.
        unfold _parse_header in Hp. clear - Hp.
        assert (Hh : forall st fp md q f,
                   header_lines st fp md q f <> inl OutOfTurns).
        { induction st as [|l st IHst]; intros fp md q f; [discriminate|].
          cbn [header_lines].
          destruct (negb (startswith "# " (strip l))); [discriminate|].
          destruct (split_sep ": " (drop 2 (strip l))) as [|p [|v [|x t]]].
          1,2,4: destruct (negb (endswith " hits found" (strip l))); [discriminate|];
            destruct (int _); discriminate.
          destruct (String.eqb p "Query").
          { unfold parse_query.
            destruct (String.eqb (md_Program md) "FASTA").
            - destruct (rsplit_maxsplit1 " - " v) as [|a [|b [|c0 t0]]];
                try discriminate.
              destruct (split_words b) as [|a1 [|b1 [|c1 t1]]]; try discriminate.
              destruct (int a1); [|discriminate].
              destruct (String.eqb b1 "nt" || String.eqb b1 "aa"); [|discriminate].
              cbn [bind_outcome].
              destruct (split_maxsplit1 a) as [|x1 [|y1 [|z1 t1]]];
                cbn [bind_outcome]; apply IHst.
            - cbn [bind_outcome].
              destruct (split_maxsplit1 v) as [|x1 [|y1 [|z1 t1]]];
                cbn [bind_outcome]; apply IHst. }
          destruct (String.eqb p "Database"); [apply IHst|].
          destruct (String.eqb p "Fields"); [apply IHst|].
          destruct (String.eqb p "RID"); apply IHst. }
        destruct (startswith "TBLASTN " (drop 2 (rstrip raw))
                  || startswith "TBLASTX " (drop 2 (rstrip raw))).
        -- unfold program_and_version in Hp.
           destruct (split_maxsplit1 _) as [|a [|b [|c0 t0]]]; try discriminate.
           cbn [bind_outcome] in Hp. now apply Hh in Hp.
        -- destruct rest as [|l2 rest2]; [discriminate|].
           destruct (negb (startswith "# " l2)); [discriminate|].
           unfold program_and_version in Hp.
           destruct (split_maxsplit1 _) as [|a [|b [|c0 t0]]]; try discriminate.
           cbn [bind_outcome] in Hp. now apply Hh in Hp.
      * cbn [bind_outcome fst snd]. apply IH.
        apply parse_header_rest in Hp. lia.
Qed.

Lemma read_next_alignment_turns self stream :
  read_next_alignment float self stream <> inl OutOfTurns.
Proof. apply next_alignment_loop_turns. lia. Qed.

End StreamProperties.

Lemma read_next_alignment_count {F : Type} (float : string -> option F)
    {numpy : Numpy} self line :
  List.length (split_tab (rstrip line)) <> List.length (_fields self) ->
  _read_next_alignment float self line = inl AssertionError.
Proof.
  intros Hne. rewrite read_next_alignment_eq. unfold count_matches.
  apply Nat.eqb_neq in Hne. now rewrite Hne.
Qed.

Section LoopProperties.

Context {float_value : Type}.
Variable float : string -> option float_value.
Context {numpy : Numpy}.

Lemma read_row_session self raw q fields :
  query_attributes self = Some q -> fields_attribute self = Some fields ->
  read_row float self (Some raw)
  = lift (_read_next_alignment float (session q fields (metadata self)) raw).
Proof. intros Hq Hf. unfold read_row. now rewrite Hq, Hf. Qed.

Lemma loop_row turns self line raw rest :
  startswith "# " (rstrip raw) = false ->
  next_alignment_loop float turns self line (raw :: rest)
  = (aln <-- read_row float self (Some raw) ;; inr (Some aln, self, rest)).
Proof. intros H. destruct turns; cbn [next_alignment_loop]; now rewrite H. Qed.

Lemma loop_header turns self line raw rest fp :
  startswith "# " (rstrip raw) = true ->
  _final_prefix self = Some fp ->
  startswith fp (rstrip raw) && endswith " queries" (rstrip raw) = false ->
  next_alignment_loop float (S turns) self line (raw :: rest)
  = (h <-- _parse_header (query_attributes self) (fields_attribute self)
                         rest (rstrip raw) ;;
     next_alignment_loop float turns (fst h) (Some raw) (snd h)).
Proof.
  intros H Hfp Hfin. cbn [next_alignment_loop]. now rewrite H, Hfp, Hfin.
Qed.

Lemma loop_cleared turns self line stream :
  cleared self ->
  next_alignment_loop float turns self line stream = inl AttributeError.
Proof.
  intros (Hfp & Hq & Hf).
  assert (Hrow : forall l, read_row float self l = inl AttributeError)
    by (intros l; unfold read_row; now rewrite Hq).
  destruct turns, stream as [|raw rest]; cbn [next_alignment_loop];
    rewrite ?Hrow, ?Hfp; try reflexivity;
    destruct (startswith "# " (rstrip raw)); rewrite ?Hrow; reflexivity.
Qed.

End LoopProperties.

(** X11: the loop at the head of [_read_next_alignment] hands the first
    line that is not a header line to the code that reads a row, in the
    session the attributes of [self] describe, and leaves the lines after it
    in the stream.  A header block standing before that line is parsed
    first, and the row is then read in the session that block has set up. *)
Theorem X11_row_after_headers (F : Type) (float : string -> option F)
    {numpy : Numpy} :
  (forall self raw rest q fields,
      startswith "# " (rstrip raw) = false ->
      query_attributes self = Some q -> fields_attribute self = Some fields ->
      read_next_alignment float self (raw :: rest)
      = (aln <-- lift (_read_next_alignment float
                         (session q fields (metadata self)) raw) ;;
         inr (Some aln, self, rest)))
  /\ (forall self raw rest fp self' row rest' q fields,
         startswith "# " (rstrip raw) = true ->
         _final_prefix self = Some fp ->
         startswith fp (rstrip raw) && endswith " queries" (rstrip raw) = false ->
         _parse_header (query_attributes self) (fields_attribute self)
                       rest (rstrip raw) = inr (self', row :: rest') ->
         startswith "# " (rstrip row) = false ->
         query_attributes self' = Some q -> fields_attribute self' = Some fields ->
         read_next_alignment float self (raw :: rest)
         = (aln <-- lift (_read_next_alignment float
                            (session q fields (metadata self')) row) ;;
            inr (Some aln, self', rest'))).
Proof.
  split.
  - intros self raw rest q fields Hrow Hq Hf. unfold read_next_alignment.
    rewrite loop_row by assumption. now rewrite (read_row_session float self raw q fields).
  - intros self raw rest fp self' row rest' q fields Hh Hfp Hfin Hp Hrow Hq Hf.
    unfold read_next_alignment. cbn [List.length].
    rewrite (loop_header float _ self None raw rest fp Hh Hfp Hfin), Hp.
    cbn [bind_outcome fst snd]. rewrite loop_row by assumption.
    now rewrite (read_row_session float self' row q fields).
Qed.

(** The row of the example is read in the session its header describes,
    straight after the header and after a second copy of the header. *)
Lemma X11_example_row_read :
  read_next_alignment float_of_integer (header_attributes example_header)
                      [example_row; example_final_line]
  = (aln <-- lift (_read_next_alignment float_of_integer
                     (session (MkQueryAttributes None "gi|296147483"
                                 (Some "Saccharomyces cerevisiae"))
                              (bh_fields example_header)
                              (metadata (header_attributes example_header)))
                     example_row) ;;
     inr (Some aln, header_attributes example_header, [example_final_line]))
  /\ read_next_alignment float_of_integer (header_attributes example_header)
                         (header_block example_header
                          ++ [example_row; example_final_line])
     = (aln <-- lift (_read_next_alignment float_of_integer
                        (session (MkQueryAttributes None "gi|296147483"
                                    (Some "Saccharomyces cerevisiae"))
                                 (bh_fields example_header)
                                 (metadata (header_attributes example_header)))
                        example_row) ;;
        inr (Some aln, header_attributes example_header, [example_final_line])).
Proof.
  split.
  - apply (proj1 (X11_row_after_headers Z float_of_integer)
             (header_attributes example_header) example_row
             [example_final_line]);
      vm_compute; reflexivity.
  - apply (proj2 (X11_row_after_headers Z float_of_integer)
             (header_attributes example_header)
             ("# TBLASTN 2.2.29+" ++ newline)%string
             (tl (header_block example_header)
              ++ [example_row; example_final_line])
             "# BLAST processed "
             (header_attributes example_header) example_row
             [example_final_line]);
      vm_compute; reflexivity.
Defined.

(** X12: at the line that closes the output, one that starts with the final
    prefix and ends with " queries", [_read_next_alignment] returns [None],
    deletes the attributes, keeps the metadata and leaves the rest of the
    stream, provided the field list and the query attributes are there.
    When the field list or the query attributes are missing, as after a
    header without a "Fields" line, the call raises AttributeError at that
    line.  Every call after the attributes have been deleted raises
    AttributeError, whatever the stream holds. *)
Theorem X12_after_the_final_line (F : Type) (float : string -> option F)
    {numpy : Numpy} :
  (forall self raw rest fp q fields,
      startswith "# " (rstrip raw) = true ->
      _final_prefix self = Some fp ->
      startswith fp (rstrip raw) = true ->
      endswith " queries" (rstrip raw) = true ->
      query_attributes self = Some q -> fields_attribute self = Some fields ->
      exists self',
        read_next_alignment float self (raw :: rest) = inr (None, self', rest)
        /\ cleared self' /\ metadata self' = metadata self)
  /\ (forall self raw rest fp,
         startswith "# " (rstrip raw) = true ->
         _final_prefix self = Some fp ->
         startswith fp (rstrip raw) = true ->
         endswith " queries" (rstrip raw) = true ->
         query_attributes self = None \/ fields_attribute self = None ->
         read_next_alignment float self (raw :: rest) = inl AttributeError)
  /\ (forall self stream,
         cleared self ->
         read_next_alignment float self stream = inl AttributeError).
Proof.
  split; [|split].
  - intros self raw rest fp q fields Hh Hfp Hs He Hq Hf.
    exists (MkAttributes None None None (metadata self)).
    split; [|split; [repeat split|reflexivity]].
    unfold read_next_alignment. cbn [List.length next_alignment_loop].
    rewrite Hh, Hfp, Hs, He. cbn [andb]. unfold delete_attributes.
    now rewrite Hq, Hf, Hfp.
  - intros self raw rest fp Hh Hfp Hs He Hmiss.
    unfold read_next_alignment. cbn [List.length next_alignment_loop].
    rewrite Hh, Hfp, Hs, He. cbn [andb]. unfold delete_attributes.
    destruct Hmiss as [Hq | Hf].
    + rewrite Hq. now destruct (fields_attribute self).
    + now rewrite Hf.
  - intros self stream Hc. now apply loop_cleared.
Qed.

(** The closing line of the example ends the session and the call after it
    fails; after a header that reports no hit and has no "Fields" line, the
    closing line fails. *)
Lemma X12_example_final_line :
  (exists self',
      read_next_alignment float_of_integer (header_attributes example_header)
                          [example_final_line]
      = inr (None, self', [])
      /\ cleared self'
      /\ metadata self' = metadata (header_attributes example_header))
  /\ (_read_header [("# TBLASTN 2.2.29+" ++ newline)%string;
                    ("# Query: gi|296147483" ++ newline)%string;
                    ("# Database: nr" ++ newline)%string;
                    ("# 0 hits found" ++ newline)%string;
                    example_final_line]
      = inr (no_hit_attributes, [example_final_line])
      /\ read_next_alignment float_of_integer no_hit_attributes
                             [example_final_line]
         = inl AttributeError)
  /\ read_next_alignment float_of_integer
                         (MkAttributes None None None
                            (metadata (header_attributes example_header)))
                         [example_row]
     = inl AttributeError.
Proof.
  split; [|split; [split; [vm_compute; reflexivity|]|]].
  - apply (proj1 (X12_after_the_final_line Z float_of_integer)
             (header_attributes example_header) example_final_line []
             "# BLAST processed "
             (MkQueryAttributes None "gi|296147483"
                (Some "Saccharomyces cerevisiae"))
             (bh_fields example_header));
      vm_compute; reflexivity.
  - apply (proj1 (proj2 (X12_after_the_final_line Z float_of_integer))
             no_hit_attributes example_final_line [] "# BLAST processed ");
      try (vm_compute; reflexivity).
    right. reflexivity.
  - apply (proj2 (proj2 (X12_after_the_final_line Z float_of_integer))).
    repeat split.
Defined.

(** X13: when the stream has no line left, [_read_next_alignment] raises
    AttributeError if the query attributes are not there and
    UnboundLocalError otherwise.  When the stream ends with a header block,
    the loop ends without a row and the first line of that block is read
    as one; it fails with AssertionError when it has not as many values as
    there are field names. *)
Theorem X13_end_of_stream (F : Type) (float : string -> option F)
    {numpy : Numpy} :
  (forall self,
      read_next_alignment float self []
      = match query_attributes self with
        | None => inl AttributeError
        | Some _ => inl (Exn UnboundLocalError)
        end)
  /\ (forall self raw rest fp self',
         startswith "# " (rstrip raw) = true ->
         _final_prefix self = Some fp ->
         startswith fp (rstrip raw) && endswith " queries" (rstrip raw) = false ->
         _parse_header (query_attributes self) (fields_attribute self)
                       rest (rstrip raw) = inr (self', []) ->
         read_next_alignment float self (raw :: rest)
         = (aln <-- read_row float self' (Some raw) ;; inr (Some aln, self', []))
         /\ forall q fields,
              query_attributes self' = Some q ->
              fields_attribute self' = Some fields ->
              List.length (split_tab (rstrip raw)) <> List.length fields ->
              read_next_alignment float self (raw :: rest)
              = inl (Exn AssertionError)).
Proof.
  split.
  - intros self. unfold read_next_alignment. cbn [List.length next_alignment_loop].
    unfold read_row. now destruct (query_attributes self).
  - intros self raw rest fp self' Hh Hfp Hfin Hp.
    assert (Heq : read_next_alignment float self (raw :: rest)
                  = (aln <-- read_row float self' (Some raw) ;;
                     inr (Some aln, self', []))).
    { unfold read_next_alignment. cbn [List.length].
      rewrite (loop_header float _ self None raw rest fp Hh Hfp Hfin), Hp.
      cbn [bind_outcome fst snd]. now destruct (List.length rest). }
    split; [exact Heq|].
    intros q fields Hq Hf Hlen. rewrite Heq.
    rewrite (read_row_session float self' raw q fields Hq Hf).
    rewrite (read_next_alignment_count float (session q fields (metadata self')) raw Hlen).
    reflexivity.
Qed.

(** The example without its row and closing line: the first line of the
    header is taken for a row and rejected. *)
Lemma X13_example_without_rows :
  read_next_alignment float_of_integer (header_attributes example_header) []
  = inl (Exn UnboundLocalError)
  /\ read_next_alignment float_of_integer (header_attributes example_header)
                         (header_block example_header)
     = inl (Exn AssertionError).
Proof.
  split.
  - apply (proj1 (X13_end_of_stream Z float_of_integer)
             (header_attributes example_header)).
  - apply (proj2 (proj2 (X13_end_of_stream Z float_of_integer)
                    (header_attributes example_header)
                    ("# TBLASTN 2.2.29+" ++ newline)%string
                    (tl (header_block example_header))
                    "# BLAST processed "
                    (header_attributes example_header)
                    eq_refl eq_refl eq_refl eq_refl)
             (MkQueryAttributes None "gi|296147483"
                (Some "Saccharomyces cerevisiae"))
             (bh_fields example_header));
      vm_compute; try reflexivity; discriminate.
Defined.

(** ** Taking the lines of a header apart *)

Lemma append_assoc (a b c : string) : ((a ++ b) ++ c = a ++ (b ++ c))%string.
Proof. induction a as [|x a IH]; simpl; congruence. Qed.

Lemma append_empty (a : string) : (a ++ EmptyString)%string = a.
Proof. induction a as [|x a IH]; simpl; congruence. Qed.

Lemma append_length (a b : string) :
  String.length (a ++ b) = (String.length a + String.length b)%nat.
Proof. induction a as [|x a IH]; simpl; congruence. Qed.

Lemma startswith_append p x : startswith p (p ++ x) = true.
Proof.
  induction p as [|c p IH]; [reflexivity|]. cbn [String.append startswith].
  now rewrite Ascii.eqb_refl, IH.
Qed.

Lemma startswith_inv p : forall s,
  startswith p s = true -> exists x, s = (p ++ x)%string.
Proof.
  induction p as [|c p IH]; intros s H; [now exists s|].
  destruct s as [|b s]; [discriminate|]. cbn [startswith] in H.
  apply andb_true_iff in H as [Hc Hp]. apply Ascii.eqb_eq in Hc. subst b.
  destruct (IH s Hp) as [x ->]. now exists x.
Qed.

Lemma endswith_append suffix x : endswith suffix (x ++ suffix) = true.
Proof.
  induction x as [|c x IH]; cbn [String.append].
  - destruct suffix; cbn [endswith]; now rewrite String.eqb_refl.
  - cbn [endswith]. rewrite IH. apply orb_true_r.
Qed.

Lemma take_append a b : take (String.length a) (a ++ b) = a.
Proof. induction a as [|c a IH]; [now destruct b|]. simpl. now rewrite IH. Qed.

Lemma rstrip_newline x : rstrip (x ++ newline) = rstrip x.
Proof.
  induction x as [|c x IH]; [reflexivity|].
  cbn [String.append rstrip]. now rewrite IH.
Qed.

Lemma rstrip_append x y :
  y <> EmptyString -> rstrip y = y -> rstrip (x ++ y) = (x ++ y)%string.
Proof.
  intros Hne Hy. induction x as [|c x IH]; [exact Hy|].
  cbn [String.append rstrip]. rewrite IH.
  destruct (x ++ y)%string eqn:E; [|reflexivity].
  destruct x; simpl in E; [contradiction | discriminate].
Qed.

Lemma is_trimmed_inv s :
  is_trimmed s = true -> s <> EmptyString /\ lstrip s = s /\ rstrip s = s.
Proof.
  unfold is_trimmed. intros H.
  apply andb_true_iff in H as [H Hr]. apply andb_true_iff in H as [Hn Hl].
  apply String.eqb_eq in Hl, Hr. apply negb_true_iff, String.eqb_neq in Hn.
  auto.
Qed.

Lemma is_word_inv s :
  is_word s = true ->
  s <> EmptyString /\ all_chars (fun c => negb (is_space c)) s = true.
Proof.
  unfold is_word. intros H. apply andb_true_iff in H as [Hn Ha].
  apply negb_true_iff, String.eqb_neq in Hn. auto.
Qed.

Lemma rstrip_no_space s :
  all_chars (fun c => negb (is_space c)) s = true -> rstrip s = s.
Proof.
  induction s as [|c s IH]; intros H; [reflexivity|].
  cbn [all_chars] in H. apply andb_true_iff in H as [Hc Hs].
  cbn [rstrip]. rewrite (IH Hs). apply negb_true_iff in Hc.
  destruct s; [now rewrite Hc | reflexivity].
Qed.

Lemma lstrip_no_space s :
  all_chars (fun c => negb (is_space c)) s = true -> lstrip s = s.
Proof.
  destruct s as [|c s]; intros H; [reflexivity|].
  cbn [all_chars] in H. apply andb_true_iff in H as [Hc _].
  apply negb_true_iff in Hc. cbn [lstrip]. now rewrite Hc.
Qed.

Lemma span_word_append w c r :
  all_chars (fun c => negb (is_space c)) w = true -> is_space c = true ->
  span_word (w ++ String c r) = (w, String c r).
Proof.
  intros Hw Hc. induction w as [|x w IH]; cbn [String.append span_word].
  - now rewrite Hc.
  - cbn [all_chars] in Hw. apply andb_true_iff in Hw as [Hx Hw].
    apply negb_true_iff in Hx. now rewrite Hx, (IH Hw).
Qed.

Lemma span_word_whole w :
  all_chars (fun c => negb (is_space c)) w = true ->
  span_word w = (w, EmptyString).
Proof.
  induction w as [|x w IH]; intros Hw; [reflexivity|].
  cbn [all_chars] in Hw. apply andb_true_iff in Hw as [Hx Hw].
  apply negb_true_iff in Hx. cbn [span_word]. now rewrite Hx, (IH Hw).
Qed.

(** [split(None, 1)] on a word, a blank and a text without white space at
    its ends, and on a word alone. *)
Lemma split_maxsplit1_two w t :
  is_word w = true -> is_trimmed t = true ->
  split_maxsplit1 (w ++ " " ++ t) = [w; t].
Proof.
  intros Hw Ht. apply is_word_inv in Hw as [Hwn Hw].
  apply is_trimmed_inv in Ht as (Htn & Htl & _).
  unfold split_maxsplit1.
  assert (Hl : lstrip (w ++ " " ++ t) = (w ++ " " ++ t)%string).
  { destruct w as [|x w]; [contradiction|].
    cbn [all_chars] in Hw. apply andb_true_iff in Hw as [Hx _].
    apply negb_true_iff in Hx. cbn [String.append lstrip]. now rewrite Hx. }
  rewrite Hl.
  destruct (w ++ " " ++ t)%string eqn:E.
  { destruct w; [contradiction | discriminate]. }
  rewrite <- E. change (" " ++ t)%string with (String " " t).
  rewrite span_word_append by (auto; reflexivity).
  change (lstrip (String " " t)) with (lstrip t). rewrite Htl.
  destruct t; [contradiction | reflexivity].
Qed.

Lemma split_maxsplit1_one w :
  is_word w = true -> split_maxsplit1 w = [w] /\ strip w = w.
Proof.
  intros Hw. apply is_word_inv in Hw as [Hwn Hw]. split.
  - unfold split_maxsplit1. rewrite (lstrip_no_space w Hw).
    destruct w as [|x v]; [contradiction|].
    now rewrite (span_word_whole (String x v) Hw).
  - unfold strip. now rewrite (rstrip_no_space w Hw), (lstrip_no_space w Hw).
Qed.

(** [split(sep)] on a text in which the first character of the separator
    does not occur. *)
Lemma split_sep_from_absent sep0 sep s : forall part,
  all_chars (fun c => negb (Ascii.eqb c sep0)) s = true ->
  split_sep_from (String sep0 sep) 0 part s = [(part ++ s)%string].
Proof.
  induction s as [|c s IH]; intros part Hs.
  - cbn [split_sep_from]. now rewrite append_empty.
  - cbn [all_chars] in Hs. apply andb_true_iff in Hs as [Hc Hs].
    apply negb_true_iff in Hc. cbn [split_sep_from startswith].
    rewrite Ascii.eqb_sym, Hc. cbn [andb]. rewrite (IH _ Hs).
    now rewrite append_assoc.
Qed.

Lemma split_sep_from_found sep0 sep1 f rest : forall part,
  all_chars (fun c => negb (Ascii.eqb c sep0)) f = true ->
  split_sep_from (String sep0 (String sep1 EmptyString)) 0 part
                 (f ++ String sep0 (String sep1 rest))
  = (part ++ f)%string
      :: split_sep_from (String sep0 (String sep1 EmptyString)) 0 EmptyString rest.
Proof.
  induction f as [|c f IH]; intros part Hf.
  - cbn [String.append split_sep_from startswith String.length Nat.pred].
    rewrite !Ascii.eqb_refl. cbn [andb]. rewrite append_empty.
    destruct rest; reflexivity.
  - cbn [all_chars] in Hf. apply andb_true_iff in Hf as [Hc Hf].
    apply negb_true_iff in Hc. cbn [String.append split_sep_from startswith].
    rewrite Ascii.eqb_sym, Hc. cbn [andb]. rewrite (IH _ Hf).
    now rewrite append_assoc.
Qed.

Lemma split_colon name value :
  no_colon name = true -> no_colon value = true ->
  split_sep ": " (name ++ ": " ++ value) = [name; value].
Proof.
  intros Hn Hv. unfold split_sep.
  change (": " ++ value)%string with (String ":" (String " " value)).
  rewrite (split_sep_from_found ":" " " name value EmptyString Hn).
  now rewrite (split_sep_from_absent ":" " " value EmptyString Hv).
Qed.

Lemma split_no_colon s :
  no_colon s = true -> split_sep ": " s = [s].
Proof. intros Hs. unfold split_sep. now rewrite split_sep_from_absent. Qed.

Lemma split_join_comma fields :
  fields <> [] -> forallb no_comma fields = true ->
  split_sep ", " (join_comma fields) = fields.
Proof.
  unfold split_sep. induction fields as [|f fields IH]; intros Hne Hall;
    [contradiction|].
  cbn [forallb] in Hall. apply andb_true_iff in Hall as [Hf Hall].
  destruct fields as [|g fields].
  - cbn [join_comma]. now rewrite split_sep_from_absent.
  - change (join_comma (f :: g :: fields))
      with (f ++ String "," (String " " (join_comma (g :: fields))))%string.
    rewrite (split_sep_from_found "," " " f _ EmptyString Hf).
    rewrite IH; [reflexivity | discriminate | assumption].
Qed.

Lemma all_chars_append p a b :
  all_chars p (a ++ b) = all_chars p a && all_chars p b.
Proof.
  induction a as [|c a IH]; [reflexivity|]. cbn [String.append all_chars].
  now rewrite IH, andb_assoc.
Qed.

Lemma no_colon_join fields :
  forallb no_colon fields = true -> no_colon (join_comma fields) = true.
Proof.
  induction fields as [|f fields IH]; intros H; [reflexivity|].
  cbn [forallb] in H. apply andb_true_iff in H as [Hf H].
  destruct fields as [|g fields]; [exact Hf|].
  change (join_comma (f :: g :: fields))
    with (f ++ ", " ++ join_comma (g :: fields))%string.
  unfold no_colon in *. rewrite !all_chars_append, Hf, (IH H). reflexivity.
Qed.

Lemma rstrip_join fields :
  fields <> [] -> forallb is_trimmed fields = true ->
  join_comma fields <> EmptyString
  /\ rstrip (join_comma fields) = join_comma fields.
Proof.
  induction fields as [|f fields IH]; intros Hne H; [contradiction|].
  cbn [forallb] in H. apply andb_true_iff in H as [Hf H].
  destruct fields as [|g fields].
  - apply is_trimmed_inv in Hf as (Hfn & _ & Hfr). auto.
  - change (join_comma (f :: g :: fields))
      with (f ++ ", " ++ join_comma (g :: fields))%string.
    destruct IH as [IHn IHr]; [discriminate | assumption |].
    rewrite <- !append_assoc. split.
    + destruct ((f ++ ", ") ++ join_comma (g :: fields))%string eqn:E;
        [|discriminate].
      destruct f; simpl in E; discriminate.
    + now apply rstrip_append.
Qed.

Lemma is_word_trimmed s : is_word s = true -> is_trimmed s = true.
Proof.
  intros H. apply is_word_inv in H as [Hn Hs]. unfold is_trimmed.
  rewrite (lstrip_no_space s Hs), (rstrip_no_space s Hs), String.eqb_refl.
  apply String.eqb_neq in Hn. now rewrite Hn.
Qed.

Lemma no_colon_digits ds : no_colon (render_digits ds) = true.
Proof. induction ds as [|[] ds IH]; simpl; auto. Qed.

(** A line of a header, read by the loop of [_parse_header]: the mark and
    the end of line go. *)
Lemma strip_header_line x :
  x <> EmptyString -> rstrip x = x ->
  strip ("# " ++ x ++ newline) = ("# " ++ x)%string.
Proof.
  intros Hn Hx. unfold strip.
  rewrite <- append_assoc, rstrip_newline, (rstrip_append "# " x Hn Hx).
  reflexivity.
Qed.

Lemma rstrip_value name value :
  value <> EmptyString -> rstrip value = value ->
  (name ++ value)%string <> EmptyString
  /\ rstrip (name ++ value) = (name ++ value)%string.
Proof.
  intros Hn Hv. split; [|now apply rstrip_append].
  destruct name; simpl; [assumption | discriminate].
Qed.

Section HeaderLines.

Variables (rest : list string) (final_prefix : string) (md : Metadata).
Variables (query : option QueryAttributes) (fields : option (list string)).

(** A line [# name: value] as the loop of [_parse_header] sees it. *)
Lemma header_line_parts name value :
  no_colon name = true -> no_colon value = true ->
  value <> EmptyString -> rstrip value = value ->
  let line := strip ("# " ++ (name ++ ": " ++ value) ++ newline) in
  startswith "# " line = true
  /\ split_sep ": " (drop 2 line) = [name; value].
Proof.
  intros Hn Hv Hne Hr line.
  assert (Hx : (name ++ ": " ++ value)%string <> EmptyString
               /\ rstrip (name ++ ": " ++ value) = (name ++ ": " ++ value)%string).
  { rewrite <- append_assoc. now apply rstrip_value. }
  destruct Hx as [Hxn Hxr]. unfold line.
  rewrite (strip_header_line _ Hxn Hxr). split; [apply startswith_append|].
  change (drop 2 ("# " ++ (name ++ ": " ++ value)))
    with (name ++ ": " ++ value)%string.
  now apply split_colon.
Qed.

Lemma header_lines_database db :
  is_trimmed db = true -> no_colon db = true ->
  header_lines (("# Database: " ++ db ++ newline)%string :: rest)
               final_prefix md query fields
  = header_lines rest final_prefix (set_Database md db) query fields.
Proof.
  intros Ht Hc. apply is_trimmed_inv in Ht as (Hne & _ & Hr).
  destruct (header_line_parts "Database" db eq_refl Hc Hne Hr) as [Hs Hp].
  change ("# Database: " ++ db ++ newline)%string
    with ("# " ++ ("Database" ++ ": " ++ db) ++ newline)%string.
  cbn [header_lines]. rewrite Hs, Hp. reflexivity.
Qed.

Lemma header_lines_fields fs :
  fs <> [] -> forallb field_text fs = true ->
  header_lines (("# Fields: " ++ join_comma fs ++ newline)%string :: rest)
               final_prefix md query fields
  = header_lines rest final_prefix md query (Some fs).
Proof.
  intros Hne Hall.
  assert (Ht : forallb is_trimmed fs = true
               /\ forallb no_colon fs = true /\ forallb no_comma fs = true).
  { clear Hne. induction fs as [|f r IH]; [auto|].
    cbn [forallb] in *. apply andb_true_iff in Hall as [Hf Hall].
    unfold field_text in Hf. apply andb_true_iff in Hf as [Hf H3].
    apply andb_true_iff in Hf as [H1 H2].
    destruct (IH Hall) as (I1 & I2 & I3). now rewrite H1, H2, H3, I1, I2, I3. }
  destruct Ht as (Ht & Hc & Hm).
  destruct (rstrip_join fs Hne Ht) as [Hjn Hjr].
  destruct (header_line_parts "Fields" (join_comma fs) eq_refl
              (no_colon_join fs Hc) Hjn Hjr) as [Hs Hp].
  change ("# Fields: " ++ join_comma fs ++ newline)%string
    with ("# " ++ ("Fields" ++ ": " ++ join_comma fs) ++ newline)%string.
  cbn [header_lines]. rewrite Hs, Hp. cbn [negb].
  change (String.eqb "Fields" "Query") with false.
  change (String.eqb "Fields" "Database") with false.
  change (String.eqb "Fields" "Fields") with true. cbv iota.
  now rewrite (split_join_comma fs Hne Hm).
Qed.

Lemma header_lines_query id description :
  String.eqb (md_Program md) "FASTA" = false ->
  is_word id = true -> no_colon id = true ->
  match description with
  | Some d => is_trimmed d = true /\ no_colon d = true
  | None => True
  end ->
  header_lines (("# Query: " ++ (id ++ match description with
                                       | Some d => " " ++ d
                                       | None => EmptyString
                                       end) ++ newline)%string :: rest)
               final_prefix md query fields
  = header_lines rest final_prefix md
                 (Some (MkQueryAttributes None id description)) fields.
Proof.
  intros Hp Hw Hc Hd.
  set (value := (id ++ match description with
                       | Some d => " " ++ d
                       | None => EmptyString
                       end)%string).
  assert (Hv : no_colon value = true /\ value <> EmptyString
               /\ rstrip value = value
               /\ parse_query md value
                  = inr (MkQueryAttributes None id description)).
  { unfold parse_query. rewrite Hp. cbn [bind_outcome]. unfold value.
    destruct description as [d|].
    - destruct Hd as [Ht Hdc].
      rewrite (split_maxsplit1_two id d Hw Ht).
      apply is_trimmed_inv in Ht as (Hdn & _ & Hdr).
      apply is_word_inv in Hw as [Hin _].
      repeat split.
      + unfold no_colon in *. rewrite !all_chars_append, Hc, Hdc. reflexivity.
      + destruct id; [contradiction | discriminate].
      + rewrite <- append_assoc. now apply rstrip_append.
    - rewrite append_empty.
      destruct (split_maxsplit1_one id Hw) as [H1 H2]. rewrite H1, H2.
      apply is_word_inv in Hw as [Hin Hs].
      repeat split; auto using rstrip_no_space. }
  destruct Hv as (Hvc & Hvn & Hvr & Hq).
  destruct (header_line_parts "Query" value eq_refl Hvc Hvn Hvr) as [Hs Hsp].
  change ("# Query: " ++ value ++ newline)%string
    with ("# " ++ ("Query" ++ ": " ++ value) ++ newline)%string.
  cbn [header_lines]. rewrite Hs, Hsp. cbn [negb].
  change (String.eqb "Query" "Query") with true. cbv iota.
  rewrite Hq. reflexivity.
Qed.

Lemma header_lines_hits d ds :
  header_lines (("# " ++ (render_digits (d :: ds) ++ " hits found")
                 ++ newline)%string :: rest)
               final_prefix md query fields
  = if max_str_digits <? Z.of_nat (List.length (d :: ds))
    then inl (Exn ValueError)
    else inr (MkAttributes (Some final_prefix) query fields md, rest).
Proof.
  set (n := render_digits (d :: ds)).
  assert (Hn : n <> EmptyString) by (unfold n; simpl; discriminate).
  assert (Hx : (n ++ " hits found")%string <> EmptyString
               /\ rstrip (n ++ " hits found") = (n ++ " hits found")%string).
  { apply rstrip_value; [discriminate | reflexivity]. }
  destruct Hx as [Hxn Hxr].
  cbn [header_lines]. rewrite (strip_header_line _ Hxn Hxr), startswith_append.
  change (drop 2 ("# " ++ (n ++ " hits found"))) with (n ++ " hits found")%string.
  rewrite split_no_colon
    by (unfold no_colon; rewrite all_chars_append;
        fold (no_colon n); unfold n; now rewrite no_colon_digits).
  cbn [negb]. cbv iota.
  rewrite <- append_assoc, endswith_append. cbn [negb].
  unfold slice_between. rewrite append_assoc.
  change (drop 2 ("# " ++ (n ++ " hits found"))) with (n ++ " hits found")%string.
  replace (String.length ("# " ++ n ++ " hits found")
           - String.length " hits found" - 2)%nat with (String.length n)
    by (rewrite !append_length; simpl; lia).
  rewrite take_append.
  unfold n. rewrite int_digits_string;
    [| apply render_digits_all | discriminate].
  rewrite render_digits_length.
  now destruct (max_str_digits <? Z.of_nat (List.length (d :: ds))).
Qed.

End HeaderLines.

(** X14: the header of a BLAST output is read back as written.  For every
    header of TBLASTN or TBLASTX whose version and query id are words, whose
    description, database and field names are not empty and have no white
    space at their ends, none of them with a colon and no field name with a
    comma, whose field list is not empty and whose number of hits is written
    with at most 4300 digits, [_read_header] on the five lines of the header
    followed by any lines returns the program, the version, the database,
    the query id and description and the field names of the header, no
    query size, no command line, the final prefix of BLAST, and leaves the
    lines that follow unread.  With a number of hits of more than 4300
    digits it raises ValueError. *)
Theorem X14_blast_header_read_back (h : blast_header) (rest : list string) :
  header_texts h = true ->
  _read_header (header_block h ++ rest)
  = if max_str_digits
       <? Z.of_nat (List.length (fst (bh_hits h) :: snd (bh_hits h)))
    then inl (Exn ValueError)
    else inr (header_attributes h, rest).
Proof.
  unfold header_texts. intros H.
  do 7 (apply andb_true_iff in H; destruct H as [H ?]).
  destruct h as [program version id description database fs [d ds]].
  cbn [bh_program bh_version bh_query_id bh_description bh_database bh_fields
       bh_hits fst snd] in *.
  assert (Hfs : fs <> []) by (destruct fs; [discriminate | congruence]).
  assert (Hv : is_trimmed version = true) by now apply is_word_trimmed.
  pose proof (is_trimmed_inv version Hv) as (Hvn & _ & Hvr).
  unfold _read_header, header_block, header_attributes.
  cbn [app bh_program bh_version bh_query_id bh_description bh_database
       bh_fields bh_hits fst snd].
  assert (Hfirst : forall p, p <> EmptyString ->
            startswith "# " ("# " ++ p ++ " " ++ version ++ newline) = true
            /\ rstrip ("# " ++ p ++ " " ++ version ++ newline)
               = ("# " ++ p ++ " " ++ version)%string).
  { intros p Hp. split; [apply startswith_append|].
    rewrite <- !append_assoc, rstrip_newline. now apply rstrip_append. }
  assert (Hprogram : program_name program <> EmptyString
                     /\ is_word (program_name program) = true
                     /\ String.eqb (program_name program) "FASTA" = false
                     /\ (startswith "TBLASTN " (program_name program ++ " " ++ version)
                         || startswith "TBLASTX " (program_name program ++ " " ++ version))
                        = true)
    by (destruct program; repeat split; discriminate).
  destruct Hprogram as (Hpn & Hpw & Hpf & Hps).
  destruct (Hfirst _ Hpn) as [Hs Hr]. rewrite Hs, Hr. cbn [negb].
  unfold _parse_header.
  change (drop 2 ("# " ++ program_name program ++ " " ++ version))
    with (program_name program ++ " " ++ version)%string.
  rewrite Hps. unfold program_and_version.
  rewrite (split_maxsplit1_two _ _ Hpw Hv). cbn [bind_outcome fst snd].
  rewrite header_lines_query; auto.
  - rewrite header_lines_database by assumption.
    rewrite header_lines_fields by assumption.
    now rewrite header_lines_hits.
  - destruct description; [|exact I].
    now apply andb_true_iff.
Qed.

(** The header of the example is one of these, and is read back. *)
Lemma X14_example_header_read_back :
  header_texts example_header = true
  /\ _read_header (header_block example_header
                   ++ [example_row; example_final_line])
     = inr (header_attributes example_header,
            [example_row; example_final_line]).
Proof.
  split; [vm_compute; reflexivity|].
  exact (X14_blast_header_read_back example_header
           [example_row; example_final_line] eq_refl).
Defined.

(** ** The lines a call takes from the stream *)

Lemma header_lines_suffix stream : forall fp md q f self rest,
  header_lines stream fp md q f = inr (self, rest) ->
  exists taken, stream = taken ++ rest.
Proof.
  induction stream as [|line stream IH]; intros fp md q f self rest H.
  - inversion H; subst. now exists [].
  - assert (Hcons : forall fp md q f,
              header_lines stream fp md q f = inr (self, rest) ->
              exists taken, line :: stream = taken ++ rest).
    { intros fp' md' q' f' H'. destruct (IH _ _ _ _ _ _ H') as [taken ->].
      now exists (line :: taken). }
    cbn [header_lines] in H.
    destruct (negb (startswith "# " (strip line))); [discriminate|].
    destruct (split_sep ": " (drop 2 (strip line))) as [|p [|v [|x l]]].
    1,2,4: destruct (negb (endswith " hits found" (strip line))); [discriminate|];
      destruct (int _); [|discriminate]; inversion H; subst; now exists [line].
    destruct (String.eqb p "Query").
    { apply bind_outcome_inr in H as (q' & _ & H). eauto. }
    destruct (String.eqb p "Database"); [eauto|].
    destruct (String.eqb p "Fields"); [eauto|].
    destruct (String.eqb p "RID"); eauto.
Qed.

Lemma parse_header_suffix q f stream line self rest :
  _parse_header q f stream line = inr (self, rest) ->
  exists taken, stream = taken ++ rest.
Proof.
  unfold _parse_header.
  destruct (startswith "TBLASTN " (drop 2 line) || startswith "TBLASTX " (drop 2 line)).
  - intros H. apply bind_outcome_inr in H as (pv & _ & H).
    now apply header_lines_suffix in H.
  - destruct stream as [|line2 stream]; [discriminate|].
    destruct (negb (startswith "# " line2)); [discriminate|].
    intros H. apply bind_outcome_inr in H as (pv & _ & H).
    apply header_lines_suffix in H as [taken ->]. now exists (line2 :: taken).
Qed.

Section Progress.

Context {float_value : Type}.
Variable float : string -> option float_value.
Context {numpy : Numpy}.

Lemma next_alignment_loop_suffix turns : forall self line stream r self' rest,
  next_alignment_loop float turns self line stream = inr (r, self', rest) ->
  match stream with
  | [] => line <> None /\ rest = []
  | first :: stream => exists taken, stream = (taken ++ rest)%list
  end.
Proof.
  assert (Hrow : forall self line (k : list string) r self' rest,
             (aln <-- read_row float self line ;; inr (Some aln, self, k))
             = inr (r, self', rest) ->
             line <> None /\ rest = k).
  { intros self line k r self' rest H.
    apply bind_outcome_inr in H as (aln & Hr & H). inversion H; subst.
    split; [|reflexivity].
    intros ->. unfold read_row in Hr.
    destruct (query_attributes _); discriminate. }
  assert (Hfinal : forall self (k : list string) r self' rest,
             (s <-- delete_attributes self ;;
              inr (None : option (Alignment float_value), s, k))
             = inr (r, self', rest) -> rest = k).
  { intros self k r self' rest H.
    apply bind_outcome_inr in H as (s' & _ & H). now inversion H. }
  induction turns as [|turns IH]; intros self line stream r self' rest H.
  - destruct stream as [|raw k]; cbn [next_alignment_loop] in H.
    + now apply Hrow in H.
    + destruct (startswith "# " (rstrip raw)).
      * destruct (_final_prefix self); [|discriminate].
        destruct (_ && _); [|discriminate].
        apply Hfinal in H. subst. now exists [].
      * apply Hrow in H as [_ ->]. now exists [].
  - destruct stream as [|raw k]; cbn [next_alignment_loop] in H.
    + now apply Hrow in H.
    + destruct (startswith "# " (rstrip raw)).
      * destruct (_final_prefix self); [|discriminate].
        destruct (_ && _).
        { apply Hfinal in H. subst. now exists []. }
        apply bind_outcome_inr in H as ([s' k'] & Hp & H).
        cbn [fst snd] in H. apply IH in H.
        apply parse_header_suffix in Hp as [taken' ->].
        destruct k' as [|first' k''].
        -- destruct H as [_ ->]. now exists taken'.
        -- destruct H as [taken ->]. exists (taken' ++ first' :: taken)%list.
           now rewrite <- app_assoc.
      * apply Hrow in H as [_ ->]. now exists [].
Qed.

End Progress.

(** X15: a call of [_read_next_alignment] that returns has taken at least
    one line from the stream, and the lines it leaves are the lines that
    followed those it took: whether it returns an alignment or, at the
    closing line, nothing. *)
Theorem X15_call_takes_lines (F : Type) (float : string -> option F)
    {numpy : Numpy}
    (self self' : Attributes) (stream rest : list string)
    (r : option (Alignment F)) :
  read_next_alignment float self stream = inr (r, self', rest) ->
  exists first taken, stream = (first :: taken ++ rest)%list.
Proof.
  unfold read_next_alignment. intros H.
  apply next_alignment_loop_suffix in H.
  destruct stream as [|first stream].
  - now destruct H as [Hne _].
  - destruct H as [taken ->]. now exists first, taken.
Qed.

(** The call that reads the row of the example takes that row and leaves
    the closing line. *)
Lemma X15_example_row_taken :
  exists first taken,
    [example_row; example_final_line]
    = (first :: taken ++ [example_final_line])%list.
Proof.
  eapply (X15_call_takes_lines Z float_of_integer
            (header_attributes example_header) _
            [example_row; example_final_line] [example_final_line]).
  vm_compute. reflexivity.
Defined.

(** ** The first line of a header *)

Lemma header_lines_frame stream : forall fp md q f self rest,
  header_lines stream fp md q f = inr (self, rest) ->
  _final_prefix self = Some fp
  /\ md_Program (metadata self) = md_Program md
  /\ md_Version (metadata self) = md_Version md
  /\ md_Command_line (metadata self) = md_Command_line md.
Proof.
  induction stream as [|line stream IH]; intros fp md q f self rest H.
  - inversion H; subst. auto.
  - cbn [header_lines] in H.
    destruct (negb (startswith "# " (strip line))); [discriminate|].
    destruct (split_sep ": " (drop 2 (strip line))) as [|p [|v [|x l]]].
    1,2,4: destruct (negb (endswith " hits found" (strip line))); [discriminate|];
      destruct (int _); [|discriminate]; inversion H; subst; auto.
    destruct (String.eqb p "Query").
    { apply bind_outcome_inr in H as (q' & _ & H). eauto. }
    destruct (String.eqb p "Database"); [now apply IH in H|].
    destruct (String.eqb p "Fields"); [eauto|].
    destruct (String.eqb p "RID"); [now apply IH in H | eauto].
Qed.

Lemma program_of_first_line name x pv :
  is_word name = true ->
  program_and_version (name ++ " " ++ x) = inr pv -> fst pv = name.
Proof.
  intros Hw. apply is_word_inv in Hw as [Hn Hw].
  unfold program_and_version, split_maxsplit1.
  assert (Hl : lstrip (name ++ " " ++ x) = (name ++ " " ++ x)%string).
  { destruct name as [|c name]; [contradiction|].
    cbn [all_chars] in Hw. apply andb_true_iff in Hw as [Hc _].
    apply negb_true_iff in Hc. cbn [String.append lstrip]. now rewrite Hc. }
  rewrite Hl.
  destruct (name ++ " " ++ x)%string eqn:E.
  { destruct name; [contradiction | discriminate]. }
  rewrite <- E. change (" " ++ x)%string with (String " " x).
  rewrite span_word_append by (auto; reflexivity).
  destruct (lstrip (String " " x)); [discriminate|].
  intros H. now inversion H.
Qed.

(** X16: the first line of the output decides what kind of output it is.
    Whenever [_read_header] returns: if the first line, without the white
    space at its end, reads "# TBLASTN " or "# TBLASTX " and more, the
    program is that one, the final prefix is that of BLAST and no command
    line is kept; in every other case the final prefix is that of FASTA and
    the first line without its mark is kept as the command line, whatever
    the second line names as the program. *)
Theorem X16_first_line_decides (line : string) (stream rest : list string)
    (self : Attributes) :
  _read_header (line :: stream) = inr (self, rest) ->
  let first := drop 2 (rstrip line) in
  (forall program,
      program = "TBLASTN" \/ program = "TBLASTX" ->
      startswith (program ++ " ") first = true ->
      md_Program (metadata self) = program
      /\ _final_prefix self = Some "# BLAST processed "
      /\ md_Command_line (metadata self) = None)
  /\ (startswith "TBLASTN " first = false ->
      startswith "TBLASTX " first = false ->
      _final_prefix self = Some "# FASTA processed "
      /\ md_Command_line (metadata self) = Some first).
Proof.
  intros H first. unfold _read_header in H.
  destruct (negb (startswith "# " line)); [discriminate|].
  unfold _parse_header in H. fold first in H. split.
  - intros program Hprogram Hs.
    assert (Hb : startswith "TBLASTN " first || startswith "TBLASTX " first = true)
      by (destruct Hprogram; subst program; cbn [String.append] in Hs;
          rewrite Hs; auto using orb_true_r).
    rewrite Hb in H. apply bind_outcome_inr in H as (pv & Hpv & H).
    apply header_lines_frame in H as (Hfp & Hp & _ & Hc).
    cbn [md_Program md_Command_line] in Hp, Hc.
    apply startswith_inv in Hs as [x Hx]. rewrite Hx, append_assoc in Hpv.
    apply program_of_first_line in Hpv;
      [|destruct Hprogram; subst program; reflexivity].
    rewrite Hp, Hpv. auto.
  - intros Hn Hx. rewrite Hn, Hx in H. cbn [orb] in H.
    destruct stream as [|line2 stream]; [discriminate|].
    destruct (negb (startswith "# " line2)); [discriminate|].
    apply bind_outcome_inr in H as (pv & Hpv & H).
    apply header_lines_frame in H as (Hfp & _ & _ & Hc). auto.
Qed.

(** The header of the example is of BLAST, the example of FASTA is not. *)
Lemma X16_example_first_lines :
  (md_Program (metadata (header_attributes example_header)) = "TBLASTN"
   /\ _final_prefix (header_attributes example_header)
      = Some "# BLAST processed "
   /\ md_Command_line (metadata (header_attributes example_header)) = None)
  /\ exists self,
       _read_header example_fasta_header = inr (self, [])
       /\ _final_prefix self = Some "# FASTA processed "
       /\ md_Command_line (metadata self)
          = Some "fasta36 -m 8CB seq/mgstm1.aa seq/gst.nlib".
Proof.
  split.
  - apply (proj1 (X16_first_line_decides
                    ("# TBLASTN 2.2.29+" ++ newline)%string
                    (tl (header_block example_header)) []
                    (header_attributes example_header) eq_refl) "TBLASTN");
      [left|]; reflexivity.
  - eexists. split; [vm_compute; reflexivity|].
    apply (proj2 (X16_first_line_decides
                    ("# fasta36 -m 8CB seq/mgstm1.aa seq/gst.nlib" ++ newline)%string
                    (tl example_fasta_header) [] _ eq_refl));
      reflexivity.
Defined.

(** ** The "Query" line of FASTA *)

Lemma rsplit_last_absent s : no_dash s = true -> rsplit_last " - " s = None.
Proof.
  induction s as [|c s IH]; intros H; [reflexivity|].
  cbn [no_dash all_chars] in H. unfold no_dash in IH.
  apply andb_true_iff in H as [_ H]. cbn [rsplit_last]. rewrite (IH H).
  cbn [startswith]. destruct s as [|b s]; [now rewrite andb_false_r|].
  cbn [all_chars] in H. apply andb_true_iff in H as [Hb _].
  apply negb_true_iff in Hb. rewrite Ascii.eqb_sym in Hb.
  now rewrite Hb, andb_false_r.
Qed.

Lemma rsplit_last_found query_line tail :
  no_dash tail = true ->
  rsplit_last " - " (query_line ++ " - " ++ tail) = Some (query_line, tail).
Proof.
  intros H. induction query_line as [|c q IH].
  - change (EmptyString ++ " - " ++ tail)%string
      with (String " " (String "-" (String " " tail))).
    assert (H1 : rsplit_last " - " (String " " tail) = None).
    { cbn [rsplit_last]. rewrite (rsplit_last_absent tail H). cbn [startswith].
      destruct tail as [|b t]; [reflexivity|].
      cbn [no_dash all_chars] in H. apply andb_true_iff in H as [Hb _].
      apply negb_true_iff in Hb. rewrite Ascii.eqb_sym in Hb.
      now rewrite Hb. }
    assert (H2 : rsplit_last " - " (String "-" (String " " tail)) = None).
    { change (rsplit_last " - " (String "-" (String " " tail)))
        with (match rsplit_last " - " (String " " tail) with
              | Some (a, b) => Some (String "-" a, b)
              | None => None
              end).
      now rewrite H1. }
    change (rsplit_last " - " (String " " (String "-" (String " " tail))))
      with (match rsplit_last " - " (String "-" (String " " tail)) with
            | Some (a, b) => Some (String " " a, b)
            | None => Some (EmptyString, tail)
            end).
    now rewrite H2.
  - cbn [String.append rsplit_last]. cbn [String.append] in IH.
    now rewrite IH.
Qed.

Lemma split_words_from_word w : forall word s,
  all_chars (fun c => negb (is_space c)) w = true ->
  split_words_from word (w ++ s) = split_words_from (word ++ w) s.
Proof.
  induction w as [|c w IH]; intros word s H.
  - now rewrite append_empty.
  - cbn [all_chars] in H. apply andb_true_iff in H as [Hc H].
    apply negb_true_iff in Hc. cbn [String.append split_words_from].
    rewrite Hc, (IH _ _ H). now rewrite append_assoc.
Qed.

Lemma no_space_digits ds :
  all_chars (fun c => negb (is_space c)) (render_digits ds) = true.
Proof. induction ds as [|[] ds IH]; simpl; auto. Qed.

Lemma no_dash_digits ds : no_dash (render_digits ds) = true.
Proof. induction ds as [|[] ds IH]; simpl; auto. Qed.

Lemma lstrip_blank b : is_blank b = true -> lstrip b = EmptyString.
Proof.
  induction b as [|c b IH]; intros H; [reflexivity|].
  cbn [is_blank all_chars] in H. apply andb_true_iff in H as [Hc H].
  cbn [lstrip]. rewrite Hc. now apply IH.
Qed.

Lemma split_words_size n unit :
  n <> EmptyString -> all_chars (fun c => negb (is_space c)) n = true ->
  unit = "nt" \/ unit = "aa" ->
  split_words (n ++ " " ++ unit) = [n; unit].
Proof.
  intros Hn Hs Hu. unfold split_words. rewrite (split_words_from_word n _ _ Hs).
  cbn [String.append]. destruct n; [contradiction|].
  destruct Hu; subst unit; reflexivity.
Qed.

(** The size and the unit are cut off at the last " - ", and what stands
    before it names the query. *)
Lemma parse_query_fasta md query_line d ds unit :
  md_Program md = "FASTA" -> unit = "nt" \/ unit = "aa" ->
  parse_query md (fasta_query query_line (d, ds) unit)
  = if max_str_digits <? Z.of_nat (List.length (d :: ds))
    then inl (Exn ValueError)
    else match split_maxsplit1 query_line with
         | [query_id; query_description] =>
             inr (MkQueryAttributes (Some (number (d :: ds))) query_id
                                    (Some query_description))
         | _ => inr (MkQueryAttributes (Some (number (d :: ds)))
                                       (strip query_line) None)
         end.
Proof.
  intros Hp Hu. unfold parse_query, fasta_query. rewrite Hp.
  change (String.eqb "FASTA" "FASTA") with true. cbv iota.
  cbn [fst snd]. unfold rsplit_maxsplit1.
  rewrite rsplit_last_found.
  - rewrite (split_words_size (render_digits (d :: ds)) unit)
      by (auto using no_space_digits; discriminate).
    rewrite int_digits_string;
      [| apply render_digits_all | discriminate].
    rewrite render_digits_length.
    destruct (max_str_digits <? Z.of_nat (List.length (d :: ds)));
      [reflexivity|].
    rewrite decimal_render. fold (number (d :: ds)).
    destruct Hu; subst unit; reflexivity.
  - unfold no_dash. rewrite all_chars_append.
    fold (no_dash (render_digits (d :: ds))). rewrite no_dash_digits.
    destruct Hu; subst unit; reflexivity.
Qed.

(** X17: the "Query" line of FASTA.  When the program is FASTA and the
    value of the line ends with " - ", a number of at most 4300 digits and
    the unit nt or aa, the query size is that number and the query is named
    by what stands before that " - ", also when it holds " - " itself: a
    word followed by white space is the identifier, with no description; a
    word, a blank and a text without white space at its ends are the
    identifier and the description.  With a number of more than 4300 digits
    the line is refused with ValueError. *)
Theorem X17_fasta_query_line (md : Metadata) (id : string)
    (size : digit * list digit) (unit : string) :
  md_Program md = "FASTA" -> unit = "nt" \/ unit = "aa" ->
  is_word id = true ->
  (Z.of_nat (List.length (fst size :: snd size)) <= 4300 ->
   (forall blanks,
       is_blank blanks = true ->
       parse_query md (fasta_query (id ++ blanks) size unit)
       = inr (MkQueryAttributes (Some (number (fst size :: snd size))) id None))
   /\ (forall description,
          is_trimmed description = true ->
          parse_query md (fasta_query (id ++ " " ++ description) size unit)
          = inr (MkQueryAttributes (Some (number (fst size :: snd size))) id
                                   (Some description))))
  /\ (4300 < Z.of_nat (List.length (fst size :: snd size)) ->
      forall query_line,
        parse_query md (fasta_query query_line size unit)
        = inl (Exn ValueError)).
Proof.
  intros Hp Hu Hw. destruct size as [d ds]. cbn [fst snd].
  split; [intros Hlen; split|].
  - intros blanks Hb. rewrite (parse_query_fasta md _ d ds unit Hp Hu).
    replace (max_str_digits <? Z.of_nat (List.length (d :: ds))) with false
      by (symmetry; apply Z.ltb_ge; exact Hlen).
    pose proof (is_word_inv id Hw) as [Hn Hs].
    assert (H1 : split_maxsplit1 (id ++ blanks) = [id]).
    { unfold split_maxsplit1.
      assert (Hl : lstrip (id ++ blanks) = (id ++ blanks)%string).
      { destruct id as [|c id]; [contradiction|].
        cbn [all_chars] in Hs. apply andb_true_iff in Hs as [Hc _].
        apply negb_true_iff in Hc. cbn [String.append lstrip]. now rewrite Hc. }
      rewrite Hl.
      destruct (id ++ blanks)%string eqn:E.
      { destruct id; [contradiction | discriminate]. }
      rewrite <- E. destruct blanks as [|b blanks].
      - rewrite append_empty, (span_word_whole id Hs). reflexivity.
      - pose proof Hb as Hb'. cbn [is_blank all_chars] in Hb'.
        apply andb_true_iff in Hb' as [Hc _].
        rewrite (span_word_append id b blanks Hs Hc).
        now rewrite (lstrip_blank _ Hb). }
    rewrite H1. unfold strip.
    now rewrite (rstrip_blank id blanks Hb), (rstrip_no_space id Hs),
      (lstrip_no_space id Hs).
  - intros description Ht. rewrite (parse_query_fasta md _ d ds unit Hp Hu).
    replace (max_str_digits <? Z.of_nat (List.length (d :: ds))) with false
      by (symmetry; apply Z.ltb_ge; exact Hlen).
    now rewrite (split_maxsplit1_two id description Hw Ht).
  - intros Hlen query_line. rewrite (parse_query_fasta md _ d ds unit Hp Hu).
    replace (max_str_digits <? Z.of_nat (List.length (d :: ds))) with true
      by (symmetry; apply Z.ltb_lt; exact Hlen).
    reflexivity.
Qed.

(** The "Query" line of the example of FASTA, and one with a description
    that holds " - ". *)
Lemma X17_example_query_lines :
  parse_query (MkMetadata "FASTA" "36.3.8h May, 2020" None None None)
              "pGT875   - 657 nt"
  = inr (MkQueryAttributes (Some 657) "pGT875" None)
  /\ parse_query (MkMetadata "FASTA" "36.3.8h May, 2020" None None None)
                 "sp|P10649 GSTM1 - mouse - 218 aa"
     = inr (MkQueryAttributes (Some 218) "sp|P10649" (Some "GSTM1 - mouse")).
Proof.
  split.
  - apply (proj1 (proj1 (X17_fasta_query_line
                           (MkMetadata "FASTA" "36.3.8h May, 2020" None None None)
                           "pGT875" (d6, [d5; d7]) "nt"
                           eq_refl (or_introl eq_refl) eq_refl)
                    ltac:(vm_compute; discriminate)) "  ").
    reflexivity.
  - apply (proj2 (proj1 (X17_fasta_query_line
                           (MkMetadata "FASTA" "36.3.8h May, 2020" None None None)
                           "sp|P10649" (d2, [d1; d8]) "aa"
                           eq_refl (or_intror eq_refl) eq_refl)
                    ltac:(vm_compute; discriminate)) "GSTM1 - mouse").
    reflexivity.
Defined.
